(** * Codebase indexing core: ignore policy, symbol extraction, tree walk,
      index store and change watcher, embedded from
      [codebaseIndexer.ts], [indexStorage.ts] and [fileWatcherIndexer.ts].

    JavaScript strings are modelled by [string]: a sequence of code units,
    here restricted to the range 0..255.  JavaScript numbers that hold
    sizes, counters and timestamps are modelled by [N] and [nat]. *)

From stdpp Require Import gmap strings list fin_maps pretty.
From Stdlib Require Import Ascii String NArith ZArith Lia.

Local Open Scope string_scope.
Local Open Scope list_scope.

(* ===================================================================== *)
(** * Part I: definitions                                                 *)
(* ===================================================================== *)

(** ** Backtracking regular expressions

    The host's [RegExp] is not part of the repository.  This module gives
    the backtracking semantics of the constructs that the indexer's
    regular expressions use: character classes, concatenation, ordered
    alternation, greedy [?] and [*], and one capture group.  A match is
    enumerated as the list of all ways to match, in the priority order in
    which a backtracking engine tries them; the engine's answer is the
    head of that list. *)
Module Regex.

Inductive regex : Type :=
| Eps                                              (* empty pattern *)
| Cls (neg : bool) (ranges : list (ascii * ascii)) (* [a-z...] or [^...] *)
| Cat (r1 r2 : regex)                              (* r1 r2 *)
| Alt (r1 r2 : regex)                              (* r1|r2 *)
| Opt (r : regex)                                  (* r? , greedy *)
| Star (r : regex)                                 (* r* , greedy *)
| Grp (r : regex).                                 (* ( r ), capture 1 *)

Definition in_range (c : ascii) (r : ascii * ascii) : bool :=
  Nat.leb (nat_of_ascii (fst r)) (nat_of_ascii c)
  && Nat.leb (nat_of_ascii c) (nat_of_ascii (snd r)).

Definition cls_mem (neg : bool) (ranges : list (ascii * ascii)) (c : ascii) : bool :=
  xorb neg (existsb (in_range c) ranges).

Definition chr (c : ascii) : regex := Cls false [(c, c)].

(** [.] without the [s] flag: any code unit but a line terminator. *)
Definition dot : regex :=
  Cls true [("010"%char, "010"%char); ("013"%char, "013"%char)].

(** [\s]: the white space and line terminator code units below 256. *)
Definition space : regex :=
  Cls false [("009"%char, "013"%char); (" "%char, " "%char); ("160"%char, "160"%char)].

(** [\w] *)
Definition word : regex :=
  Cls false [("a"%char, "z"%char); ("A"%char, "Z"%char); ("0"%char, "9"%char);
             ("_"%char, "_"%char)].

Definition plus (r : regex) : regex := Cat r (Star r).

Fixpoint lit (s : string) : regex :=
  match s with
  | EmptyString => Eps
  | String c s' => Cat (chr c) (lit s')
  end.

(** The text consumed between an input [s] and one of its suffixes. *)
Definition consumed (s rest : string) : string :=
  substring 0 (String.length s - String.length rest) s.

Definition progress (s : string) (res : string * option string) : bool :=
  Nat.ltb (String.length (fst res)) (String.length s).

(** [run r s cap]: every way for [r] to match a prefix of [s], as the
    remaining input paired with the capture, most preferred first.  An
    iteration of [?] or [*] that consumes nothing is rejected, as the
    language's RepeatMatcher does. *)
Fixpoint run (r : regex) (s : string) (cap : option string)
  : list (string * option string) :=
  match r with
  | Eps => [(s, cap)]
  | Cls neg ranges =>
      match s with
      | String c s' => if cls_mem neg ranges c then [(s', cap)] else []
      | EmptyString => []
      end
  | Cat r1 r2 =>
      flat_map (fun res => run r2 (fst res) (snd res)) (run r1 s cap)
  | Alt r1 r2 => run r1 s cap ++ run r2 s cap
  | Opt r1 => List.filter (progress s) (run r1 s cap) ++ [(s, cap)]
  | Star r1 =>
      (fix iter (fuel : nat) (s : string) (cap : option string)
         : list (string * option string) :=
         match fuel with
         | O => [(s, cap)]
         | S fuel' =>
             flat_map (fun res => iter fuel' (fst res) (snd res))
                      (List.filter (progress s) (run r1 s cap))
             ++ [(s, cap)]
         end) (String.length s) s cap
  | Grp r1 =>
      List.map (fun res => (fst res, Some (consumed s (fst res)))) (run r1 s cap)
  end.

(** A successful match: where it starts, the matched text and the capture. *)
Record hit : Type := Hit { index : nat; matched : string; group1 : option string }.

(** Match at the current position only. *)
Definition match_here (r : regex) (s : string) : option (string * option string) :=
  head (run r s None).

(** [search r s pos]: the leftmost position at or after the start of [s]
    (which sits at offset [pos] of the content) where [r] matches; the
    result also carries the input left after the match. *)
Fixpoint search (r : regex) (s : string) (pos : nat) : option (hit * string) :=
  match match_here r s with
  | Some (rest, cap) =>
      Some (Hit pos (consumed s rest) cap, rest)
  | None =>
      match s with
      | EmptyString => None
      | String _ s' => search r s' (S pos)
      end
  end.

(** [while ((match = re.exec(content)) !== null) push(match)] for a
    regular expression with the [g] flag: each [exec] resumes at
    [lastIndex], the end of the previous match.  [None]: the fuel ran
    out, which happens only when the loop would not terminate. *)
Fixpoint exec_loop (fuel : nat) (r : regex) (s : string) (pos : nat)
  : option (list hit) :=
  match fuel with
  | O => None
  | S fuel' =>
      match search r s pos with
      | None => Some []
      | Some (h, rest) =>
          cons h <$> exec_loop fuel' r rest (index h + String.length (matched h))
      end
  end.

Definition exec_all (r : regex) (content : string) : option (list hit) :=
  exec_loop (S (String.length content)) r content 0.

(** [new RegExp("^" + body + "$").test(s)] for an already parsed body. *)
Definition full_match (r : regex) (s : string) : bool :=
  existsb (fun res => bool_decide (fst res = "")) (run r s None).

(** A sufficient syntactic test that no match of [r] is empty. *)
Fixpoint consuming (r : regex) : bool :=
  match r with
  | Eps => false
  | Cls _ _ => true
  | Cat r1 r2 => consuming r1 || consuming r2
  | Alt r1 r2 => consuming r1 && consuming r2
  | Opt _ => false
  | Star _ => false
  | Grp r1 => consuming r1
  end.

(** What a match leaves is no longer than what it was given, and shorter
    when the expression is [consuming]. *)
Definition shrinks (r : regex) : Prop :=
  forall (s : string) (cap : option string) (res : string * option string),
    In res (run r s cap) ->
    String.length (fst res) <= String.length s /\
    (consuming r = true -> String.length (fst res) < String.length s).

(** The starts of the hits of one loop grow strictly. *)
Definition increasing (positions : list nat) : Prop :=
  forall i j p q, positions !! i = Some p -> positions !! j = Some q -> i < j -> p < q.

End Regex.

(** ** Strings: the host's string and path helpers *)
Module Str.

Definition eqb_ascii (a b : ascii) : bool := Ascii.eqb a b.

(** [s.replace(/c/g, rep)] for a one-character pattern. *)
Fixpoint replace_char (c : ascii) (rep : string) (s : string) : string :=
  match s with
  | EmptyString => EmptyString
  | String a s' =>
      if eqb_ascii a c then rep +:+ replace_char c rep s'
      else String a (replace_char c rep s')
  end.

(** [s.replace(/\*\*/g, rep)]: leftmost, non-overlapping occurrences. *)
Fixpoint replace_star_star (rep : string) (s : string) : string :=
  match s with
  | EmptyString => EmptyString
  | String a s' =>
      match s' with
      | String b s'' =>
          if eqb_ascii a "*" && eqb_ascii b "*"
          then rep +:+ replace_star_star rep s''
          else String a (replace_star_star rep s')
      | EmptyString => String a EmptyString
      end
  end.

(** [s.split(sep)] for a one-character separator: never empty. *)
Fixpoint split (sep : ascii) (s : string) : list string :=
  match s with
  | EmptyString => [EmptyString]
  | String a s' =>
      if eqb_ascii a sep then EmptyString :: split sep s'
      else match split sep s' with
           | [] => [String a EmptyString]
           | seg :: segs => String a seg :: segs
           end
  end.

Definition is_space (a : ascii) : bool :=
  Regex.cls_mem false [("009"%char, "013"%char); (" "%char, " "%char);
                       ("160"%char, "160"%char)] a.

Fixpoint trim_start (s : string) : string :=
  match s with
  | EmptyString => EmptyString
  | String a s' => if is_space a then trim_start s' else s
  end.

Fixpoint trim_end (s : string) : string :=
  match s with
  | EmptyString => EmptyString
  | String a s' =>
      match trim_end s' with
      | EmptyString => if is_space a then EmptyString else String a EmptyString
      | t => String a t
      end
  end.

Definition trim (s : string) : string := trim_end (trim_start s).

Definition lower (a : ascii) : ascii :=
  if Regex.in_range a ("A"%char, "Z"%char)
  then ascii_of_nat (nat_of_ascii a + 32) else a.

Fixpoint toLowerCase (s : string) : string :=
  match s with
  | EmptyString => EmptyString
  | String a s' => String (lower a) (toLowerCase s')
  end.

Definition startsWith (s p : string) : bool := String.prefix p s.

Definition includes (l : list string) (x : string) : bool :=
  bool_decide (x ∈ l).

(** [parts.join(sep)] *)
Fixpoint intercalate (sep : string) (parts : list string) : string :=
  match parts with
  | [] => EmptyString
  | [part] => part
  | part :: rest => part +:+ sep +:+ intercalate sep rest
  end.

Fixpoint endsWith_slash (p : string) : bool :=
  match p with
  | EmptyString => false
  | String a EmptyString => eqb_ascii a "/"
  | String _ p' => endsWith_slash p'
  end.

(** One segment of the loop of [normalizeString], Node's helper of
    [path.normalize]; [kept] holds the segments kept so far, the last one
    first.  An empty segment and [.] are dropped; [..] removes the last
    kept segment unless there is none or it is [..] itself, in which case
    it is kept when the path is relative and dropped when it is absolute;
    any other segment is kept. *)
Definition normalize_step (allowAboveRoot : bool) (kept : list string) (segment : string)
  : list string :=
  if bool_decide (segment = "") || bool_decide (segment = ".") then kept
  else if bool_decide (segment = "..") then
    match kept with
    | last :: rest =>
        if bool_decide (last = "..")
        then (if allowAboveRoot then ".." :: kept else kept)
        else rest
    | [] => if allowAboveRoot then [".."] else []
    end
  else segment :: kept.

Definition normalize_segments (allowAboveRoot : bool) (segments : list string)
  : list string :=
  rev (fold_left (normalize_step allowAboveRoot) segments []).

(** POSIX [path.normalize]. *)
Definition normalize (p : string) : string :=
  if bool_decide (p = "") then "."
  else
    let isAbsolute := startsWith p "/" in
    let trailingSeparator := endsWith_slash p in
    let body := intercalate "/" (normalize_segments (negb isAbsolute) (split "/" p)) in
    if bool_decide (body = "")
    then (if isAbsolute then "/" else if trailingSeparator then "./" else ".")
    else (if isAbsolute then "/" else "") +:+ body
         +:+ (if trailingSeparator then "/" else "").

(** POSIX [path.join(...args)]: the arguments that are not empty, joined
    by the separator and normalised; [.] when there is none. *)
Definition join_all (args : list string) : string :=
  match List.filter (fun arg => negb (bool_decide (arg = ""))) args with
  | [] => "."
  | parts => normalize (intercalate "/" parts)
  end.

(** [path.join(dir, name)] *)
Definition join (dir name : string) : string := join_all [dir; name].

(** What [path.join] puts before a further segment that is joined to
    [p]: the normalised [p] with a closing separator, nothing when [p]
    normalises to the current directory. *)
Definition stem (p : string) : string :=
  let isAbsolute := startsWith p "/" in
  match normalize_segments (negb isAbsolute) (split "/" p) with
  | [] => if isAbsolute then "/" else ""
  | segments => (if isAbsolute then "/" else "") +:+ intercalate "/" segments +:+ "/"
  end.

(** POSIX [path.basename]: the last segment that is not empty, so that
    trailing separators do not count. *)
Definition basename (p : string) : string :=
  List.last (List.filter (fun seg => negb (bool_decide (seg = ""))) (split "/" p)) "".

(** The portion after the last dot of [b], with the dot; empty when [b]
    has no dot. *)
Fixpoint after_last_dot (b : string) : string :=
  match b with
  | EmptyString => EmptyString
  | String a b' =>
      match after_last_dot b' with
      | EmptyString => if eqb_ascii a "." then b else EmptyString
      | e => e
      end
  end.

(** POSIX [path.extname]: from the last dot of the base name; empty when
    there is none or when the only dot is the leading one. *)
Definition extname (p : string) : string :=
  match basename p with
  | EmptyString => EmptyString
  | String _ rest => after_last_dot rest
  end.

Definition substring1 (s : string) : string :=
  match s with EmptyString => EmptyString | String _ s' => s' end.

End Str.

(** ** Ignore-file patterns: [CodebaseIndexer.matchesPattern] *)
Module Glob.
Import Regex.

(** The four chained [replace] calls that turn a glob into the source of
    a regular expression. *)
Definition regexPattern (pattern : string) : string :=
  Str.replace_char "?" "."
    (Str.replace_char "*" "[^/]*"
       (Str.replace_star_star ".*"
          (Str.replace_char "." "\." pattern))).

(** [new RegExp(`^${regexPattern}$`)] then [regex.test(path)], over a
    host constructor [regexp] that answers [None] when it throws. *)
Definition matchesPattern (regexp : string -> option (string -> bool))
    (path pattern : string) : bool :=
  match regexp ("^" +:+ regexPattern pattern +:+ "$") with
  | Some regex => regex path
  | None => false
  end.

Definition not_slash : regex := Cls true [("/"%char, "/"%char)].
Definition any_char : regex := Cls true [].

Definition syntax_char (a : ascii) : bool :=
  bool_decide (a ∈ list_ascii_of_string "^$\.*+?()[]{}|").

(** The regular-expression sources built from [\.], [.], [[^/]*] and
    plain characters, read as the host reads them.  Any other use of a
    syntax character is outside this fragment. *)
Fixpoint parse (src : string) : option regex :=
  match src with
  | EmptyString => Some Eps
  | String a rest =>
      if Str.eqb_ascii a "\" then
        match rest with
        | String "."%char rest' => Cat (chr ".") <$> parse rest'
        | _ => None
        end
      else if Str.eqb_ascii a "." then Cat dot <$> parse rest
      else if Str.eqb_ascii a "[" then
        match rest with
        | String "^"%char (String "/"%char (String "]"%char (String "*"%char rest'))) =>
            Cat (Star not_slash) <$> parse rest'
        | _ => None
        end
      else if syntax_char a then None
      else Cat (chr a) <$> parse rest
  end.

Fixpoint strip_dollar (s : string) : option string :=
  match s with
  | EmptyString => None
  | String a s' =>
      match s' with
      | EmptyString => if Str.eqb_ascii a "$" then Some EmptyString else None
      | _ => String a <$> strip_dollar s'
      end
  end.

(** The host constructor on the fragment above, for sources of the shape
    [^body$].  Outside the fragment it answers [None]; the statements
    below that use it only concern sources inside the fragment. *)
Definition fragment_regexp (source : string) : option (string -> bool) :=
  match source with
  | String "^"%char rest =>
      body ← strip_dollar rest;
      r ← parse body;
      Some (full_match r)
  | _ => None
  end.

(** Modelled after the specification's wording of the translation:
    [**] is any sequence including separators, a single [*] any sequence
    without a separator, [?] exactly one character, every other
    character (the dot included) itself. *)
Fixpoint glob_regex (pattern : string) : regex :=
  match pattern with
  | EmptyString => Eps
  | String a rest =>
      if Str.eqb_ascii a "*" then
        match rest with
        | String "*"%char rest' => Cat (Star any_char) (glob_regex rest')
        | _ => Cat (Star not_slash) (glob_regex rest)
        end
      else if Str.eqb_ascii a "?" then Cat any_char (glob_regex rest)
      else Cat (chr a) (glob_regex rest)
  end.

Definition glob_matches (path pattern : string) : bool :=
  full_match (glob_regex pattern) path.

(** A character that the four replacements leave alone and that stands
    for itself in a regular expression, or the dot, which the first
    replacement escapes. *)
Definition literal_char (a : ascii) : bool :=
  negb (syntax_char a) || Str.eqb_ascii a ".".

(** A pattern without wildcard and without any other syntax character. *)
Fixpoint literal (pattern : string) : bool :=
  match pattern with
  | EmptyString => true
  | String a rest => literal_char a && literal rest
  end.

(** The first replacement alone. *)
Definition escape_dots (pattern : string) : string :=
  Str.replace_char "." "\." pattern.

(** No character of [s] is [c]. *)
Fixpoint lacks (c : ascii) (s : string) : bool :=
  match s with
  | EmptyString => true
  | String a rest => negb (Str.eqb_ascii a c) && lacks c rest
  end.

End Glob.

(** ** Data model: [CodeFile] and [CodebaseIndex]

    A field that a JavaScript object may lack is an [option]: the objects
    rebuilt by the index store carry fewer fields than the ones the
    indexer builds. *)
Module Summary.
Record t : Type := mk { functions : nat; classes : nat; total : nat }.
End Summary.

Module CodeFile.
Record t : Type := mk {
  id : string;
  path : string;
  relativePath : string;
  language : string;
  content : string;
  size : N;
  lastModified : option N;
  hash : string;
  symbols : option (list string)
}.
End CodeFile.

Module CodebaseIndex.
Record t : Type := mk {
  rootPath : string;
  files : list CodeFile.t;
  totalSize : N;
  fileCount : nat;
  lastIndexed : N;
  languages : gmap string nat;
  summary : option Summary.t
}.
End CodebaseIndex.

(** ** Computations that read and change a state, may throw and may not
       terminate *)
Module Js.

Inductive result (S A : Type) : Type :=
| Normal (a : A) (s : S)
| Throws (e : string) (s : S)
| Diverges.
Arguments Normal {S A} a s.
Arguments Throws {S A} e s.
Arguments Diverges {S A}.

Definition M (S A : Type) : Type := S -> result S A.

Definition ret {S A} (a : A) : M S A := fun s => Normal a s.
Definition throw {S A} (e : string) : M S A := fun s => Throws e s.
Definition diverge {S A} : M S A := fun _ => Diverges.

Definition bind {S A B} (c : M S A) (k : A -> M S B) : M S B :=
  fun s =>
    match c s with
    | Normal a s' => k a s'
    | Throws e s' => Throws e s'
    | Diverges => Diverges
    end.

(** [try { c } catch (e) { h e }]: what [c] changed before it threw
    stays changed. *)
Definition try_catch {S A} (c : M S A) (h : string -> M S A) : M S A :=
  fun s =>
    match c s with
    | Normal a s' => Normal a s'
    | Throws e s' => h e s'
    | Diverges => Diverges
    end.

Definition get {S} : M S S := fun s => Normal s s.
Definition modify {S} (f : S -> S) : M S unit := fun s => Normal tt (f s).

(** A host call that either yields a value or throws. *)
Definition lift {S A} (r : string + A) : M S A :=
  match r with
  | inl e => throw e
  | inr a => ret a
  end.

(** [for (const x of xs) body(x)] *)
Definition for_of {S A} (body : A -> M S unit) : list A -> M S unit :=
  fix loop (xs : list A) : M S unit :=
    match xs with
    | [] => ret tt
    | x :: xs' => bind (body x) (fun _ => loop xs')
    end.

End Js.

Declare Scope js_scope.
Delimit Scope js_scope with js.
Notation "'let*' x := c 'in' k" := (Js.bind c (fun x => k))
  (at level 10, x pattern, c at level 100, k at level 200) : js_scope.
Notation "c ;;; k" := (Js.bind c (fun _ => k))
  (at level 100, k at level 200, right associativity) : js_scope.

(** ** The file tree that a walk reads

    A directory entry has a name and is a regular file, a directory or
    something else (a link, a socket).  [stat] and [readFile] of a file,
    and [readdir] of a directory, may each fail. *)
Module Fs.

Record Stats : Type := mkStats { size : N; mtimeMs : N }.

#[warnings="-register-all"] Inductive node : Type :=
| File (name : string) (stats : option Stats) (data : option string)
| Dir (name : string) (listable : bool) (entries : list node)
| Other (name : string).

Definition name (n : node) : string :=
  match n with
  | File nm _ _ => nm
  | Dir nm _ _ => nm
  | Other nm => nm
  end.

Definition isDirectory (n : node) : bool :=
  match n with Dir _ _ _ => true | _ => false end.

Definition isFile (n : node) : bool :=
  match n with File _ _ _ => true | _ => false end.

(** [fs.promises.readdir(dirPath, { withFileTypes: true })]; the
    argument is what the path names, [None] when it names nothing. *)
Definition readdir (n : option node) : string + list node :=
  match n with
  | None => inl "ENOENT"
  | Some (Dir _ true entries) => inr entries
  | Some (Dir _ false _) => inl "EACCES"
  | Some _ => inl "ENOTDIR"
  end.

Definition stat (n : option node) : string + Stats :=
  match n with
  | Some (File _ (Some st) _) => inr st
  | Some (File _ None _) => inl "EACCES"
  | Some _ => inl "EINVAL"
  | None => inl "ENOENT"
  end.

Definition readFile (n : option node) : string + string :=
  match n with
  | None => inl "ENOENT"
  | Some (File _ _ (Some text)) => inr text
  | Some (File _ _ None) => inl "EACCES"
  | Some (Dir _ _ _) => inl "EISDIR"
  | Some (Other _) => inl "EINVAL"
  end.

(** The entry called [nm] of the directory [n], if both exist. *)
Definition child (n : option node) (nm : string) : option node :=
  match n with
  | Some (Dir _ _ entries) =>
      List.find (fun e => bool_decide (name e = nm)) entries
  | _ => None
  end.

Definition existsSync (n : option node) : bool :=
  match n with Some _ => true | None => false end.

End Fs.

(** ** Symbol extraction: [CodebaseIndexer.extractSymbols] *)
Module Symbols.
Import Regex.

Fixpoint seq (rs : list regex) : regex :=
  match rs with
  | [] => Eps
  | r :: rs' => Cat r (seq rs')
  end.

Definition alpha_ : list (ascii * ascii) :=
  [("a"%char, "z"%char); ("A"%char, "Z"%char); ("_"%char, "_"%char)].
Definition digit : list (ascii * ascii) := [("0"%char, "9"%char)].
Definition dollar : list (ascii * ascii) := [("$"%char, "$"%char)].

(** An identifier that may contain a dollar sign. *)
Definition js_ident : regex :=
  Cat (Cls false (alpha_ ++ dollar)) (Star (Cls false (alpha_ ++ digit ++ dollar))).

(** An identifier of letters, digits and underscores. *)
Definition ident : regex :=
  Cat (Cls false alpha_) (Star (Cls false (alpha_ ++ digit))).

(** The literal, as the source writes it, and its reading. *)
Definition js_funcRegex_literal : string :=
  "(?:async\s+)?(?:function|const|let|var)\s+([a-zA-Z_$][a-zA-Z0-9_$]*)\s*(?:=\s*)?(?:async\s*)?\(".
Definition js_funcRegex : regex :=
  seq [ Opt (seq [lit "async"; plus space]);
        Alt (lit "function") (Alt (lit "const") (Alt (lit "let") (lit "var")));
        plus space;
        Grp js_ident;
        Star space;
        Opt (seq [chr "="; Star space]);
        Opt (seq [lit "async"; Star space]);
        chr "(" ].

(** The literal, as the source writes it, and its reading. *)
Definition js_classRegex_literal : string :=
  "class\s+([a-zA-Z_$][a-zA-Z0-9_$]*)".
Definition js_classRegex : regex :=
  seq [ lit "class"; plus space; Grp js_ident ].

(** The literal, as the source writes it, and its reading. *)
Definition py_funcRegex_literal : string :=
  "def\s+([a-zA-Z_][a-zA-Z0-9_]*)\s*\(".
Definition py_funcRegex : regex :=
  seq [ lit "def"; plus space; Grp ident; Star space; chr "(" ].

(** The literal, as the source writes it, and its reading. *)
Definition py_classRegex_literal : string :=
  "class\s+([a-zA-Z_][a-zA-Z0-9_]*)".
Definition py_classRegex : regex :=
  seq [ lit "class"; plus space; Grp ident ].

(** The literal, as the source writes it, and its reading. *)
Definition java_classRegex_literal : string :=
  "(?:public\s+)?(?:class|interface)\s+([a-zA-Z_][a-zA-Z0-9_]*)".
Definition java_classRegex : regex :=
  seq [ Opt (seq [lit "public"; plus space]);
        Alt (lit "class") (lit "interface");
        plus space;
        Grp ident ].

(** The literal, as the source writes it, and its reading. *)
Definition java_methodRegex_literal : string :=
  "(?:public|private|protected)?\s+(?:static\s+)?(?:\w+\s+)*([a-zA-Z_][a-zA-Z0-9_]*)\s*\(".
Definition java_methodRegex : regex :=
  seq [ Opt (Alt (lit "public") (Alt (lit "private") (lit "protected")));
        plus space;
        Opt (seq [lit "static"; plus space]);
        Star (seq [plus word; plus space]);
        Grp ident;
        Star space;
        chr "(" ].

(** [`${tag}${match[1]}`]: a group that took no part in the match reads
    as [undefined]. *)
Definition tagged (tag : string) (h : hit) : string :=
  tag +:+ default "undefined" (group1 h).

(** One [while ((match = re.exec(content)) !== null)] loop: the tagged
    capture of every match, with the position [match.index] kept beside
    it. *)
Definition collect (tag : string) (re : regex) (content : string)
  : option (list (nat * string)) :=
  List.map (fun h => (index h, tagged tag h)) <$> exec_all re content.

(** [extractSymbols], each symbol paired with the position in [content]
    of the match that defines it.  [None]: a loop does not terminate. *)
Definition extractSymbolsAt (content language : string)
  : option (list (nat * string)) :=
  if bool_decide (language = "typescript") || bool_decide (language = "javascript") then
    fns ← collect "fn:" js_funcRegex content;
    cls ← collect "class:" js_classRegex content;
    Some (fns ++ cls)
  else if bool_decide (language = "python") then
    fns ← collect "fn:" py_funcRegex content;
    cls ← collect "class:" py_classRegex content;
    Some (fns ++ cls)
  else if bool_decide (language = "java") || bool_decide (language = "csharp") then
    cls ← collect "class:" java_classRegex content;
    mts ← collect "method:" java_methodRegex content;
    Some (cls ++ mts)
  else Some [].

Definition extractSymbols (content language : string) : option (list string) :=
  List.map snd <$> extractSymbolsAt content language.

(** A symbol whose defining match starts earlier in the content stands
    earlier in the sequence. *)
Definition first_occurrence_order (l : list (nat * string)) : Prop :=
  forall i j p q, l !! i = Some p -> l !! j = Some q -> fst p < fst q -> i < j.

(** The two tags a language's symbols carry, in the order of its two
    loops. *)
Definition kinds (language : string) : option (string * string) :=
  if bool_decide (language = "typescript") || bool_decide (language = "javascript")
     || bool_decide (language = "python")
  then Some ("fn:", "class:")
  else if bool_decide (language = "java") || bool_decide (language = "csharp")
  then Some ("class:", "method:")
  else None.

End Symbols.

(** ** The indexer core: [CodebaseIndexer] *)
Module Indexer.

Definition commonIgnorePaths : list string :=
  [ "node_modules"; ".npm"; "npm-debug.log"; "package-lock.json"; "yarn.lock";
    "pnpm-lock.yaml";
    "__pycache__"; ".venv"; "venv"; "env"; ".env"; ".env.local"; ".env.*.local";
    "pip-log.txt"; "pip-delete-this-directory.txt"; ".Python"; "build";
    "develop-eggs"; "dist"; "downloads"; "eggs"; ".eggs"; "lib"; "lib64";
    "parts"; "sdist"; "var"; "wheels"; "*.egg-info"; ".installed.cfg"; "*.egg";
    ".git"; ".gitignore"; ".gitattributes"; ".github"; ".gitlab"; ".hg"; ".svn";
    ".vscode"; ".idea"; ".sublime-project"; ".sublime-workspace"; ".project";
    ".pydevproject"; ".settings"; ".classpath";
    "dist"; "build"; "out"; ".next"; ".nuxt"; ".cache"; ".parcel-cache";
    ".vercel"; ".turbo"; "coverage";
    ".gradle"; "target"; ".m2";
    "cmake-build-debug"; "cmake-build-release"; ".o"; ".a"; ".so";
    "vendor"; ".gopath";
    "target"; "Cargo.lock";
    ".dockerignore"; "Dockerfile";
    ".DS_Store"; "Thumbs.db"; ".AppleDouble"; ".LSOverride"; ".TemporaryItems";
    "*.zip"; "*.tar"; "*.gz"; "*.rar";
    "tmp"; "temp"; ".tmp"; "logs"; "*.log"; ".cache" ].

Definition commonIgnoreFiles : list string :=
  [ ".gitignore"; ".env"; ".env.local"; ".DS_Store"; "package-lock.json";
    "yarn.lock"; "pnpm-lock.yaml" ].

Definition supportedLanguages : list string :=
  [ "typescript"; "javascript"; "python"; "java"; "csharp"; "cpp"; "c"; "go";
    "rust"; "php"; "ruby"; "swift"; "kotlin"; "scala"; "haskell"; "r";
    "matlab"; "groovy"; "shell"; "bash"; "sql"; "html"; "css"; "scss"; "less";
    "json"; "yaml"; "xml"; "markdown" ].

Definition extensionMap : list (string * string) :=
  [ ("ts", "typescript"); ("tsx", "typescript"); ("js", "javascript");
    ("jsx", "javascript"); ("py", "python"); ("java", "java"); ("cs", "csharp");
    ("cpp", "cpp"); ("cc", "cpp"); ("cxx", "cpp"); ("c", "c"); ("go", "go");
    ("rs", "rust"); ("php", "php"); ("rb", "ruby"); ("swift", "swift");
    ("kt", "kotlin"); ("scala", "scala"); ("hs", "haskell"); ("r", "r");
    ("m", "matlab"); ("groovy", "groovy"); ("sh", "shell"); ("bash", "bash");
    ("sql", "sql"); ("html", "html"); ("htm", "html"); ("css", "css");
    ("scss", "scss"); ("less", "less"); ("json", "json"); ("yaml", "yaml");
    ("yml", "yaml"); ("xml", "xml"); ("md", "markdown") ].

Definition getLanguageFromPath (filePath : string) : option string :=
  let ext := Str.substring1 (Str.toLowerCase (Str.extname filePath)) in
  match List.find (fun kv => bool_decide (fst kv = ext)) extensionMap with
  | Some (_, lang) => if Str.includes supportedLanguages lang then Some lang else None
  | None => None
  end.

(** ToInt32 of an integer-valued number. *)
Definition toInt32 (z : Z) : Z := ((z + 2 ^ 31) mod 2 ^ 32 - 2 ^ 31)%Z.

Fixpoint simpleHash_loop (str : string) (hash : Z) : Z :=
  match str with
  | EmptyString => hash
  | String c str' =>
      let char := Z.of_nat (nat_of_ascii c) in
      let hash1 := (toInt32 (Z.shiftl hash 5) - hash + char)%Z in
      simpleHash_loop str' (toInt32 hash1)
  end.

Definition hex_digit (n : N) : ascii :=
  match String.get (N.to_nat n) "0123456789abcdef" with
  | Some c => c
  | None => "0"%char
  end.

Fixpoint hex_digits (fuel : nat) (n : N) (acc : string) : string :=
  match fuel with
  | O => acc
  | S fuel' =>
      if (n =? 0)%N then acc
      else hex_digits fuel' (n / 16)%N (String (hex_digit (n mod 16)%N) acc)
  end.

(** [Number.prototype.toString(16)] of an integer. *)
Definition toString16 (z : Z) : string :=
  match z with
  | Z0 => "0"
  | Zpos p => hex_digits (S (N.to_nat (N.log2 (Npos p)))) (Npos p) ""
  | Zneg p => "-" +:+ hex_digits (S (N.to_nat (N.log2 (Npos p)))) (Npos p) ""
  end.

Definition simpleHash (str : string) : string :=
  toString16 (simpleHash_loop str 0%Z).

Section Host.

(** The host: its regular-expression constructor, its clock and its
    random source.  [dateNow k] and [random36 k] are what [Date.now()] and
    [Math.random().toString(36).substr(2, 9)] answer at the [k]-th draw. *)
Variable regexp : string -> option (string -> bool).
Variable dateNow : nat -> N.
Variable random36 : nat -> string.

(** What one indexer and one walk change: the index under construction
    (a single object, passed by reference down the walk), the indexer's
    loaded ignore patterns, the number of draws from the host, and what
    was sent to the progress sink. *)
Record state : Type := mkState {
  index : CodebaseIndex.t;
  gitignorePatterns : list string;
  draws : nat;
  reported : list string
}.

Definition M : Type -> Type := Js.M state.

Definition set_index (f : CodebaseIndex.t -> CodebaseIndex.t) (st : state) : state :=
  mkState (f (index st)) (gitignorePatterns st) (draws st) (reported st).

Definition set_patterns (ps : list string) (st : state) : state :=
  mkState (index st) ps (draws st) (reported st).

Definition draw : M nat :=
  fun st => Js.Normal (draws st)
              (mkState (index st) (gitignorePatterns st) (S (draws st)) (reported st)).

(** [progress?.report({ message, increment: 1 })] *)
Definition report (progress : bool) (message : string) : M unit :=
  if progress
  then Js.modify (fun st => mkState (index st) (gitignorePatterns st) (draws st)
                                    (reported st ++ [message]))
  else Js.ret tt.

Definition shouldIgnore (patterns : list string)
    (fileName relativePath : string) (isDir : bool) : bool :=
  let normalizedPath := Str.replace_char "\" "/" relativePath in
  let parts := Str.split "/" normalizedPath in
  if Str.includes commonIgnoreFiles fileName then true
  else if existsb (Str.includes commonIgnorePaths) parts then true
  else existsb (Glob.matchesPattern regexp normalizedPath) patterns.

Definition parse_gitignore (content : string) : list string :=
  List.filter (fun line => negb (bool_decide (line = "")) && negb (Str.startsWith line "#"))
              (List.map Str.trim (Str.split "010" content)).

Definition loadGitignore (root : option Fs.node) : M unit :=
  Js.try_catch
    (let gitignore := Fs.child root ".gitignore" in
     if Fs.existsSync gitignore then
       (let* content := Js.lift (Fs.readFile gitignore) in
        Js.modify (set_patterns (parse_gitignore content)))%js
     else Js.ret tt)
    (fun _ => Js.ret tt).

Definition count_if (p : string -> bool) (l : list string) : nat :=
  List.length (List.filter p l).

(** [files.push(file); totalSize += size; fileCount++; languages[language] = ...] *)
Definition push_file (file : CodeFile.t) (ix : CodebaseIndex.t) : CodebaseIndex.t :=
  let language := CodeFile.language file in
  CodebaseIndex.mk
    (CodebaseIndex.rootPath ix)
    (CodebaseIndex.files ix ++ [file])
    (CodebaseIndex.totalSize ix + CodeFile.size file)%N
    (S (CodebaseIndex.fileCount ix))
    (CodebaseIndex.lastIndexed ix)
    (<[language := default 0 (CodebaseIndex.languages ix !! language) + 1]>
       (CodebaseIndex.languages ix))
    (CodebaseIndex.summary ix).

Definition add_symbols (symbols : list string) (sm : Summary.t) : Summary.t :=
  Summary.mk
    (Summary.functions sm
     + count_if (fun s => Str.startsWith s "fn:" || Str.startsWith s "method:") symbols)
    (Summary.classes sm
     + count_if (fun s => Str.startsWith s "class:" || Str.startsWith s "struct:") symbols)
    (Summary.total sm + List.length symbols).

Definition with_summary (sm : Summary.t) (ix : CodebaseIndex.t) : CodebaseIndex.t :=
  CodebaseIndex.mk (CodebaseIndex.rootPath ix) (CodebaseIndex.files ix)
    (CodebaseIndex.totalSize ix) (CodebaseIndex.fileCount ix)
    (CodebaseIndex.lastIndexed ix) (CodebaseIndex.languages ix) (Some sm).

(** [index.summary.total += ...] and the two lines after it; reading a
    field of an absent [summary] throws. *)
Definition update_summary (symbols : list string) : M unit :=
  (let* st := Js.get in
   match CodebaseIndex.summary (index st) with
   | Some sm => Js.modify (set_index (with_summary (add_symbols symbols sm)))
   | None => Js.throw "TypeError"
   end)%js.

Definition maxFileSize : N := 500 * 1024.

(** [`file_${Date.now()}_${Math.random().toString(36).substr(2, 9)}`] at
    the [k]-th draw. *)
Definition drawn_id (k : nat) : string :=
  "file_" +:+ pretty (dateNow k) +:+ "_" +:+ random36 k.

Definition indexFile (progress : bool) (file : Fs.node)
    (fullPath relativePath : string) : M unit :=
  Js.try_catch
    (let* stats := Js.lift (Fs.stat (Some file)) in
     if (maxFileSize <? Fs.size stats)%N then Js.ret tt
     else
       match getLanguageFromPath fullPath with
       | None => Js.ret tt
       | Some language =>
           let* content :=
             Js.try_catch (Js.lift (Fs.readFile (Some file))) (fun _ => Js.ret "") in
           let* symbols :=
             match Symbols.extractSymbols content language with
             | Some l => Js.ret l
             | None => Js.diverge
             end in
           let* k := draw in
           let file :=
             CodeFile.mk (drawn_id k)
                         fullPath relativePath language content
                         (Fs.size stats) (Some (Fs.mtimeMs stats))
                         (simpleHash content) (Some symbols) in
           Js.modify (set_index (push_file file)) ;;;
           update_summary symbols ;;;
           report progress ("Indexed: " +:+ relativePath)
       end)%js
    (fun _ => Js.ret tt).

(** The root-relative path of an entry, the model of
    [path.relative(rootPath, path.join(dirPath, entry.name))]. *)
Definition relative (dirRelative name : string) : string :=
  if bool_decide (dirRelative = "") then name else Str.join dirRelative name.

(** [scanDirectory] of a directory that exists; [dirRelative] is its path
    relative to the root.  The listing is taken from the node itself when
    [readdir] succeeds on it, which is what lets the recursion follow the
    tree; in every other case [readdir] throws. *)
Fixpoint scanDirectory (progress : bool) (dir : Fs.node)
    (dirPath dirRelative : string) {struct dir} : M unit :=
  Js.try_catch
    (match dir with
     | Fs.Dir _ true entries =>
         Js.for_of
           (fun entry =>
              let fullPath := Str.join dirPath (Fs.name entry) in
              let relativePath := relative dirRelative (Fs.name entry) in
              let* st := Js.get in
              if shouldIgnore (gitignorePatterns st) (Fs.name entry) relativePath
                              (Fs.isDirectory entry)
              then Js.ret tt
              else if Fs.isDirectory entry
                then scanDirectory progress entry fullPath relativePath
              else if Fs.isFile entry
                then indexFile progress entry fullPath relativePath
              else Js.ret tt)
           entries
     | _ => Js.lift (Fs.readdir (Some dir)) ;;; Js.ret tt
     end)%js
    (fun _ => Js.ret tt).

(** [scanDirectory] of a path: of what it names, or of nothing. *)
Definition scanPath (progress : bool) (dir : option Fs.node)
    (dirPath : string) : M unit :=
  match dir with
  | Some d => scanDirectory progress d dirPath ""
  | None =>
      Js.try_catch (Js.lift (Fs.readdir None) ;;; Js.ret tt)%js (fun _ => Js.ret tt)
  end.

Definition emptyIndex (workspacePath : string) (startTime : N) : CodebaseIndex.t :=
  CodebaseIndex.mk workspacePath [] 0%N 0 startTime ∅ (Some (Summary.mk 0 0 0)).

Definition indexWorkspace (root : option Fs.node) (workspacePath : string)
    (progress : bool) : M CodebaseIndex.t :=
  (let* k := draw in
   let startTime := dateNow k in
   Js.modify (set_index (fun _ => emptyIndex workspacePath startTime)) ;;;
   Js.try_catch
     (loadGitignore root ;;;
      scanPath progress root workspacePath ;;;
      let* st := Js.get in
      Js.ret (index st))
     (fun error => Js.throw error))%js.

(** The state in which the walk of [indexWorkspace] starts. *)
Definition started (workspacePath : string) (st : state) : state :=
  mkState (emptyIndex workspacePath (dateNow (draws st))) (gitignorePatterns st)
          (S (draws st)) (reported st).

(** The state once [file], with these [symbols], has been appended by
    [indexFile]: the file pushed, an id drawn, and (when the index has its
    summary) the summary and the progress sink updated. *)
Definition after_file (progress : bool) (file : CodeFile.t) (symbols : list string)
    (relativePath : string) (st : state) : state :=
  let pushed := push_file file (index st) in
  match CodebaseIndex.summary (index st) with
  | Some sm =>
      mkState (with_summary (add_symbols symbols sm) pushed) (gitignorePatterns st)
              (S (draws st))
              (if progress then reported st ++ ["Indexed: " +:+ relativePath]
               else reported st)
  | None => mkState pushed (gitignorePatterns st) (S (draws st)) (reported st)
  end.

(** A property of the walk's state that appending a file keeps, when the
    file bears the id drawn for it and is within the size ceiling, and
    that loading ignore patterns keeps. *)
Definition walk_invariant (P : state -> Prop) : Prop :=
  (forall progress file symbols relativePath st,
     P st ->
     CodeFile.id file = drawn_id (draws st) ->
     (CodeFile.size file <= maxFileSize)%N ->
     P (after_file progress file symbols relativePath st)) /\
  (forall patterns st, P st -> P (set_patterns patterns st)).

End Host.

(** The sum of the values of a histogram. *)
Definition histogram_total (languages : gmap string nat) : nat :=
  map_fold (fun _ count acc => count + acc) 0 languages.

(** Every indexed file is within the ceiling. *)
Definition all_fit (st : state) : Prop :=
  List.Forall (fun f => (CodeFile.size f <= maxFileSize)%N)
              (CodebaseIndex.files (index st)).

(** The histogram adds up to the file count, which is the number of files. *)
Definition counted (st : state) : Prop :=
  histogram_total (CodebaseIndex.languages (index st))
  = CodebaseIndex.fileCount (index st) /\
  List.length (CodebaseIndex.files (index st)) = CodebaseIndex.fileCount (index st).

(** The ids of the indexed files are the ids of distinct earlier draws. *)
Definition ids_drawn (dateNow : nat -> N) (random36 : nat -> string) (st : state) : Prop :=
  exists draws_used : list nat,
    List.map CodeFile.id (CodebaseIndex.files (index st))
    = List.map (drawn_id dateNow random36) draws_used /\
    List.NoDup draws_used /\
    List.Forall (fun k => k < draws st) draws_used.

(** A regular file whose [stat] size is above the ceiling. *)
Definition oversize (n : Fs.node) : bool :=
  match n with
  | Fs.File _ (Some stats) _ => (maxFileSize <? Fs.size stats)%N
  | _ => false
  end.

(** Drop the oversize entries of a listing and apply [f] to the others. *)
Definition keep_fitting (f : Fs.node -> Fs.node) : list Fs.node -> list Fs.node :=
  fix keep (entries : list Fs.node) : list Fs.node :=
    match entries with
    | [] => []
    | entry :: rest => if oversize entry then keep rest else f entry :: keep rest
    end.

(** The tree without its oversize files. *)
Fixpoint prune (n : Fs.node) : Fs.node :=
  match n with
  | Fs.Dir name listable entries => Fs.Dir name listable (keep_fitting prune entries)
  | _ => n
  end.

(** *** The queries on an index *)

(** [String.prototype.toLowerCase] on code units below 256: the letters
    [A-Z] and the accented capitals.  (The extension lookup above compares
    with plain lower-case keys, for which [Str.toLowerCase] decides the
    same.) *)
Definition lower_unit (a : ascii) : ascii :=
  if Regex.cls_mem false [("A"%char, "Z"%char); ("192"%char, "214"%char);
                          ("216"%char, "222"%char)] a
  then ascii_of_nat (nat_of_ascii a + 32) else a.

Fixpoint toLowerCase (s : string) : string :=
  match s with
  | EmptyString => EmptyString
  | String a s' => String (lower_unit a) (toLowerCase s')
  end.

(** [s.includes(q)] *)
Fixpoint includes (s q : string) : bool :=
  String.prefix q s ||
  match s with
  | EmptyString => false
  | String _ s' => includes s' q
  end.

(** The filter of [searchFiles], for a query already in lower case. *)
Definition matches_query (lowerQuery : string) (file : CodeFile.t) : bool :=
  includes (toLowerCase (CodeFile.relativePath file)) lowerQuery
  || includes (toLowerCase (CodeFile.content file)) lowerQuery
  || match CodeFile.symbols file with
     | Some symbols => existsb (fun s => includes (toLowerCase s) lowerQuery) symbols
     | None => false
     end.

(** The filter of [searchFiles] on a file that carries no symbols. *)
Definition matches_text (lowerQuery : string) (file : CodeFile.t) : bool :=
  includes (toLowerCase (CodeFile.relativePath file)) lowerQuery
  || includes (toLowerCase (CodeFile.content file)) lowerQuery.

(** [searchFiles], for a limit that is a natural number. *)
Definition searchFiles (index : CodebaseIndex.t) (query : string) (limit : nat)
  : list CodeFile.t :=
  let lowerQuery := toLowerCase query in
  take limit (List.filter (matches_query lowerQuery) (CodebaseIndex.files index)).

Definition getFilesByLanguage (index : CodebaseIndex.t) (language : string)
  : list CodeFile.t :=
  List.filter (fun f => bool_decide (CodeFile.language f = language))
              (CodebaseIndex.files index).

Definition getFileContext (index : CodebaseIndex.t) (filePath : string) : string :=
  match List.find (fun f => bool_decide (CodeFile.relativePath f = filePath)
                            || bool_decide (CodeFile.path f = filePath))
                  (CodebaseIndex.files index) with
  | Some file => CodeFile.content file
  | None => ""
  end.

(** [getSymbols]: the object built by the [forEach], a later file with the
    same relative path replacing an earlier one. *)
Definition getSymbols (index : CodebaseIndex.t) : gmap string (list string) :=
  fold_left
    (fun result file =>
       match CodeFile.symbols file with
       | Some (s :: symbols) => <[CodeFile.relativePath file := s :: symbols]> result
       | _ => result
       end)
    (CodebaseIndex.files index) ∅.

(** *** What the walk lets into the index *)

(** The name or a segment of the path is on one of the two deny lists. *)
Definition denied (fileName relativePath : string) : bool :=
  Str.includes commonIgnoreFiles fileName
  || existsb (Str.includes commonIgnorePaths)
             (Str.split "/" (Str.replace_char "\" "/" relativePath)).

(** What [indexFile] has established of a file when it appends it, in the
    state [st] in which it was called for the path [relativePath]. *)
Definition admitted (regexp : string -> option (string -> bool))
    (dateNow : nat -> N) (random36 : nat -> string) (st : state)
    (file : CodeFile.t) (symbols : list string) (relativePath : string) : Prop :=
  CodeFile.id file = drawn_id dateNow random36 (draws st) /\
  CodeFile.relativePath file = relativePath /\
  (CodeFile.size file <= maxFileSize)%N /\
  getLanguageFromPath (CodeFile.path file) = Some (CodeFile.language file) /\
  Symbols.extractSymbols (CodeFile.content file) (CodeFile.language file) = Some symbols /\
  CodeFile.symbols file = Some symbols /\
  CodeFile.hash file = simpleHash (CodeFile.content file) /\
  is_Some (CodeFile.lastModified file) /\
  exists fileName isDir,
    shouldIgnore regexp (gitignorePatterns st) fileName relativePath isDir = false.

(** A property of the walk's state that every such append keeps. *)
Definition append_invariant (regexp : string -> option (string -> bool))
    (dateNow : nat -> N) (random36 : nat -> string) (progress : bool)
    (P : state -> Prop) : Prop :=
  forall file symbols relativePath st,
    P st -> admitted regexp dateNow random36 st file symbols relativePath ->
    P (after_file progress file symbols relativePath st).

Definition sum_sizes (files : list CodeFile.t) : N :=
  fold_right (fun f acc => (CodeFile.size f + acc)%N) 0%N files.

Definition symbols_of (file : CodeFile.t) : list string :=
  default [] (CodeFile.symbols file).

Definition is_function (s : string) : bool :=
  Str.startsWith s "fn:" || Str.startsWith s "method:".

Definition is_class (s : string) : bool :=
  Str.startsWith s "class:" || Str.startsWith s "struct:".

(** The number of symbols, over all files, that [p] accepts. *)
Definition count_symbols (p : string -> bool) (files : list CodeFile.t) : nat :=
  fold_right (fun f acc => List.length (List.filter p (symbols_of f)) + acc) 0 files.

(** A symbol carries one of the three tags that [extractSymbols] writes. *)
Definition tagged_symbol (s : string) : Prop :=
  Str.startsWith s "fn:" = true \/ Str.startsWith s "class:" = true
  \/ Str.startsWith s "method:" = true.

(** The base-31 polynomial of the code units of [str], started at [hash]. *)
Fixpoint horner (str : string) (hash : Z) : Z :=
  match str with
  | EmptyString => hash
  | String c str' => horner str' (31 * hash + Z.of_nat (nat_of_ascii c))%Z
  end.

End Indexer.

(** ** The index store: [IndexStorage] *)
Module Storage.

(** One per-file record of the metadata document. *)
Record FileMeta : Type := mkMeta {
  id : string;
  path : string;
  relativePath : string;
  language : string;
  size : N;
  hash : string
}.

(** The metadata document, [compactIndex].  [JSON.stringify] followed by
    [JSON.parse] gives back an object with the same fields, so the
    document is kept as this record rather than as its text. *)
Record CompactIndex : Type := mkCompact {
  rootPath : string;
  fileCount : nat;
  totalSize : N;
  lastIndexed : N;
  languages : gmap string nat;
  files : list FileMeta
}.

(** What the text of a file at a metadata path is to the two readers,
    [loadIndex] and [getIndexMetadata].  [Indexed c]: the text that
    [saveIndex] writes for [c].  [Headless]: a text that [JSON.parse]
    accepts and whose value has no array under [files], with the numbers
    found under the three keys that [getIndexMetadata] reads ([None]:
    undefined).  [Unparsable]: a text on which [JSON.parse] throws; the
    text [null], on which the first property read throws instead, is the
    same to both readers.  Texts of other shapes (an array under [files]
    whose elements are not such records, values of other types under the
    three keys) are not represented. *)
Inductive document : Type :=
| Unparsable
| Headless (fileCount : option nat) (totalSize lastIndexed : option N)
| Indexed (c : CompactIndex).

(** The storage directory.  A string written with the UTF-8 encoding and
    read back with it is the same string (contents come from a UTF-8
    decode, so they hold no lone surrogate).  Metadata documents sit at
    [<storage>/<name>.json] and content blobs at
    [<storage>/<name>/contents/<id>.txt]; no path is of both shapes
    (lemma [indexFile_not_blob] below), so the two kinds of file are kept
    in two maps, both keyed by the full path.  A path may refuse writes or
    reads. *)
Record disk : Type := mkDisk {
  docs : gmap string document;
  blobs : gmap string string;
  write_denied : string -> bool;
  read_denied : string -> bool
}.

Definition M : Type -> Type := Js.M disk.

Definition sanitize (a : ascii) : ascii :=
  if Regex.cls_mem false [("a"%char, "z"%char); ("A"%char, "Z"%char);
                          ("0"%char, "9"%char); ("-"%char, "-"%char)] a
  then a else "_"%char.

Fixpoint sanitize_all (s : string) : string :=
  match s with
  | EmptyString => EmptyString
  | String a s' => String (sanitize a) (sanitize_all s')
  end.

Definition getWorkspaceName (workspacePath : string) : string :=
  sanitize_all (Str.basename workspacePath).

Section Store.

(** [this.storagePath] *)
Variable storagePath : string.

Definition indexFile (workspaceName : string) : string :=
  Str.join storagePath (workspaceName +:+ ".json").

Definition contentsDir (workspaceName : string) : string :=
  Str.join_all [storagePath; workspaceName; "contents"].

Definition blobPath (workspaceName id : string) : string :=
  Str.join (contentsDir workspaceName) (id +:+ ".txt").

Definition writeDoc (p : string) (c : CompactIndex) : M unit :=
  fun d =>
    if write_denied d p then Js.Throws "EACCES" d
    else Js.Normal tt (mkDisk (<[p := Indexed c]> (docs d)) (blobs d)
                              (write_denied d) (read_denied d)).

Definition writeFile (p : string) (text : string) : M unit :=
  fun d =>
    if write_denied d p then Js.Throws "EACCES" d
    else Js.Normal tt (mkDisk (docs d) (<[p := text]> (blobs d))
                              (write_denied d) (read_denied d)).

Definition mkdirSync (p : string) : M unit :=
  fun d => if write_denied d p then Js.Throws "EACCES" d else Js.Normal tt d.

Definition readDoc (p : string) : M document :=
  fun d =>
    if read_denied d p then Js.Throws "EACCES" d
    else match docs d !! p with
         | Some content => Js.Normal content d
         | None => Js.Throws "ENOENT" d
         end.

(** [JSON.parse] *)
Definition JSON_parse (content : document) : M document :=
  match content with
  | Unparsable => Js.throw "SyntaxError"
  | _ => Js.ret content
  end.

Definition readFile (p : string) : M string :=
  fun d =>
    if read_denied d p then Js.Throws "EACCES" d
    else match blobs d !! p with
         | Some text => Js.Normal text d
         | None => Js.Throws "ENOENT" d
         end.

Definition existsSync (p : string) : M bool :=
  fun d => Js.Normal (bool_decide (is_Some (docs d !! p))) d.

Definition compact_file (f : CodeFile.t) : FileMeta :=
  mkMeta (CodeFile.id f) (CodeFile.path f) (CodeFile.relativePath f)
         (CodeFile.language f) (CodeFile.size f) (CodeFile.hash f).

Definition compact (index : CodebaseIndex.t) : CompactIndex :=
  mkCompact (CodebaseIndex.rootPath index) (CodebaseIndex.fileCount index)
            (CodebaseIndex.totalSize index) (CodebaseIndex.lastIndexed index)
            (CodebaseIndex.languages index)
            (List.map compact_file (CodebaseIndex.files index)).

Definition saveFileContents (workspaceName : string) (files : list CodeFile.t)
  : M unit :=
  (mkdirSync (contentsDir workspaceName) ;;;
   Js.for_of
     (fun file =>
        Js.try_catch
          (writeFile (blobPath workspaceName (CodeFile.id file)) (CodeFile.content file))
          (fun _ => Js.ret tt))
     files)%js.

Definition saveIndex (workspacePath : string) (index : CodebaseIndex.t) : M unit :=
  Js.try_catch
    (let workspaceName := getWorkspaceName workspacePath in
     writeDoc (indexFile workspaceName) (compact index) ;;;
     saveFileContents workspaceName (CodebaseIndex.files index))%js
    (fun error => Js.throw error).

(** [{ ...file, content }]: the record's six fields and the content; the
    object has no other field. *)
Definition with_content (file : FileMeta) (content : string) : CodeFile.t :=
  CodeFile.mk (id file) (path file) (relativePath file) (language file)
              content (size file) None (hash file) None.

Definition loadFileContents (workspaceName : string) (files : list FileMeta)
  : M (list CodeFile.t) :=
  fun d =>
    Js.Normal
      (List.map (fun file =>
         match readFile (blobPath workspaceName (id file)) d with
         | Js.Normal content _ => with_content file content
         | _ => with_content file ""
         end) files) d.

(** [{ ...compactIndex, files: filesWithContent }] *)
Definition expand (c : CompactIndex) (filesWithContent : list CodeFile.t)
  : CodebaseIndex.t :=
  CodebaseIndex.mk (rootPath c) filesWithContent (totalSize c) (fileCount c)
                   (lastIndexed c) (languages c) None.

Definition loadIndex (workspacePath : string) : M (option CodebaseIndex.t) :=
  Js.try_catch
    (let workspaceName := getWorkspaceName workspacePath in
     let* present := existsSync (indexFile workspaceName) in
     if negb present then Js.ret None
     else
       let* content := readDoc (indexFile workspaceName) in
       let* compactIndex := JSON_parse content in
       match compactIndex with
       | Indexed c =>
           let* filesWithContent := loadFileContents workspaceName (files c) in
           Js.ret (Some (expand c filesWithContent))
       | _ => Js.throw "TypeError"   (* [files.map] of a value that has none *)
       end)%js
    (fun _ => Js.ret None).

(** What the loop of [saveFileContents] does for one file, and for all. *)
Definition write_blob (workspaceName : string) (d : disk) (file : CodeFile.t) : disk :=
  if write_denied d (blobPath workspaceName (CodeFile.id file)) then d
  else mkDisk (docs d)
              (<[blobPath workspaceName (CodeFile.id file) := CodeFile.content file]>
                 (blobs d))
              (write_denied d) (read_denied d).

Definition write_blobs (workspaceName : string) (files : list CodeFile.t) (d : disk)
  : disk :=
  fold_left (write_blob workspaceName) files d.

Definition write_doc (p : string) (c : CompactIndex) (d : disk) : disk :=
  mkDisk (<[p := Indexed c]> (docs d)) (blobs d) (write_denied d) (read_denied d).

(** The paths of the content blobs of [files], in order. *)
Definition blobPaths (workspaceName : string) (files : list CodeFile.t) : list string :=
  List.map (fun file => blobPath workspaceName (CodeFile.id file)) files.

(** What [loadFileContents] reads at the path of a content blob: its
    text, or the empty string when it is absent or cannot be read. *)
Definition blob_text (d : disk) (p : string) : string :=
  if read_denied d p then "" else default "" (blobs d !! p).

(** What a loaded file keeps of the saved file [f], and what it lacks. *)
Definition persisted_file (f g : CodeFile.t) : Prop :=
  CodeFile.id g = CodeFile.id f /\
  CodeFile.path g = CodeFile.path f /\
  CodeFile.relativePath g = CodeFile.relativePath f /\
  CodeFile.language g = CodeFile.language f /\
  CodeFile.size g = CodeFile.size f /\
  CodeFile.hash g = CodeFile.hash f /\
  CodeFile.symbols g = None /\
  CodeFile.lastModified g = None.

(** What a loaded index keeps of the saved index, and what it lacks. *)
Definition persisted_index (index loaded : CodebaseIndex.t) : Prop :=
  CodebaseIndex.rootPath loaded = CodebaseIndex.rootPath index /\
  CodebaseIndex.fileCount loaded = CodebaseIndex.fileCount index /\
  CodebaseIndex.totalSize loaded = CodebaseIndex.totalSize index /\
  CodebaseIndex.lastIndexed loaded = CodebaseIndex.lastIndexed index /\
  CodebaseIndex.languages loaded = CodebaseIndex.languages index /\
  CodebaseIndex.summary loaded = None.

(** The fields that the claim of a round trip compares. *)
Definition same_file (f g : CodeFile.t) : Prop :=
  CodeFile.relativePath g = CodeFile.relativePath f /\
  CodeFile.language g = CodeFile.language f /\
  CodeFile.size g = CodeFile.size f /\
  CodeFile.hash g = CodeFile.hash f /\
  CodeFile.content g = CodeFile.content f.

End Store.

(** *** Deleting an index and reading its metadata *)
Section Operations.

Variable storagePath : string.

(** [path] lies inside the directory [dir], both as [path.join] returns
    them: [path] goes on after [dir] and a separator; inside the current
    directory lie the relative paths that do not climb out of it. *)
Definition inside (dir path : string) : bool :=
  if bool_decide (Str.stem dir = "")
  then negb (Str.startsWith path "/")
       && negb (bool_decide (head (Str.split "/" path) = Some ".."))
  else String.prefix (Str.stem dir) path.

(** [fs.promises.unlink] of a metadata document. *)
Definition unlink (p : string) : M unit :=
  fun d =>
    if write_denied d p then Js.Throws "EACCES" d
    else Js.Normal tt (mkDisk (delete p (docs d)) (blobs d)
                              (write_denied d) (read_denied d)).

(** [fs.existsSync] of a directory.  Directories are not kept apart from
    what they hold: one exists when a file lies inside it.  (An empty
    directory is then taken as absent; removing it or not leaves the same
    files.) *)
Definition existsDir (dir : string) : M bool :=
  fun d =>
    Js.Normal
      (negb (bool_decide (filter (fun kv => inside dir kv.1 = true) (blobs d) = ∅))
       || negb (bool_decide (filter (fun kv => inside dir kv.1 = true) (docs d) = ∅))) d.

(** [fs.promises.rm(dir, { recursive: true })] *)
Definition rm_recursive (dir : string) : M unit :=
  fun d =>
    if write_denied d dir then Js.Throws "EACCES" d
    else Js.Normal tt
           (mkDisk (filter (fun kv => inside dir kv.1 = false) (docs d))
                   (filter (fun kv => inside dir kv.1 = false) (blobs d))
                   (write_denied d) (read_denied d)).

(** [deleteIndex]; the directory it removes is the workspace's own, which
    holds the [contents] directory. *)
Definition deleteIndex (workspacePath : string) : M unit :=
  Js.try_catch
    (let workspaceName := getWorkspaceName workspacePath in
     let indexFile := indexFile storagePath workspaceName in
     let contentsDir := Str.join storagePath workspaceName in
     let* present := existsSync indexFile in
     (if present then unlink indexFile else Js.ret tt) ;;;
     let* present := existsDir contentsDir in
     if present then rm_recursive contentsDir else Js.ret tt)%js
    (fun _ => Js.ret tt).

(** The object that [getIndexMetadata] returns; a field is [None] when
    the document has nothing under its key. *)
Record Metadata : Type := mkMetadata {
  meta_fileCount : option nat;
  meta_totalSize : option N;
  meta_lastIndexed : option N
}.

(** [{ fileCount: index.fileCount, totalSize: index.totalSize,
       lastIndexed: index.lastIndexed }] *)
Definition metadata_of (index : document) : Metadata :=
  match index with
  | Indexed c => mkMetadata (Some (fileCount c)) (Some (totalSize c)) (Some (lastIndexed c))
  | Headless fileCount totalSize lastIndexed => mkMetadata fileCount totalSize lastIndexed
  | Unparsable => mkMetadata None None None
  end.

Definition getIndexMetadata (workspacePath : string) : M (option Metadata) :=
  Js.try_catch
    (let workspaceName := getWorkspaceName workspacePath in
     let indexFile := indexFile storagePath workspaceName in
     let* present := existsSync indexFile in
     if negb present then Js.ret None
     else
       let* content := readDoc indexFile in
       let* index := JSON_parse content in
       Js.ret (Some (metadata_of index)))%js
    (fun _ => Js.ret None).

(** The store once [deleteIndex] has removed the metadata document and
    the workspace's directory. *)
Definition deleted (workspacePath : string) (d : disk) : disk :=
  let workspaceName := getWorkspaceName workspacePath in
  let dir := Str.join storagePath workspaceName in
  mkDisk (filter (fun kv => inside dir kv.1 = false)
                 (delete (indexFile storagePath workspaceName) (docs d)))
         (filter (fun kv => inside dir kv.1 = false) (blobs d))
         (write_denied d) (read_denied d).

(** The content that [loadFileContents] gives a record. *)
Definition loaded_content (d : disk) (workspaceName : string) (m : FileMeta) : string :=
  if read_denied d (blobPath storagePath workspaceName (id m)) then ""
  else default "" (blobs d !! blobPath storagePath workspaceName (id m)).

(** What [loadIndex] makes of the text of a metadata document that it
    could read. *)
Definition loaded_from (d : disk) (workspaceName : string) (content : document)
  : option CodebaseIndex.t :=
  match content with
  | Indexed c =>
      Some (expand c (List.map (fun m => with_content m (loaded_content d workspaceName m))
                               (files c)))
  | _ => None
  end.

(** What [getIndexMetadata] makes of it. *)
Definition metadata_from (content : document) : option Metadata :=
  match content with
  | Unparsable => None
  | _ => Some (metadata_of content)
  end.

End Operations.

(** What [loadIndex] rebuilds of a file and of an index when every blob
    could be written and read: all but the symbols, the modification
    times and the summary. *)
Definition reloaded_file (f : CodeFile.t) : CodeFile.t :=
  with_content (compact_file f) (CodeFile.content f).

Definition reloaded (index : CodebaseIndex.t) : CodebaseIndex.t :=
  expand (compact index) (List.map reloaded_file (CodebaseIndex.files index)).

(** A name made of letters, digits, hyphens and underscores only. *)
Definition safe_name (name : string) : Prop := sanitize_all name = name.

(** A path segment that [path.normalize] keeps as it is: not empty,
    neither [.] nor [..], and without a separator. *)
Definition plain (segment : string) : bool :=
  Glob.lacks "/" segment
  && negb (bool_decide (segment = "") || bool_decide (segment = ".")
           || bool_decide (segment = "..")).

(** The shape of the segments that [Str.normalize_step] keeps: plain ones
    on top of a run of [..], which is empty for an absolute path. *)
Definition kept_shape (allow : bool) (kept : list string) : Prop :=
  exists (top : list string) (k : nat),
    kept = top ++ replicate k ".." /\
    List.Forall (fun seg => plain seg = true) top /\
    (allow = false -> k = 0).

End Storage.

(** ** The change watcher: [FileWatcherIndexer]

    The host runs one callback at a time.  A call of the asynchronous
    [reindexWorkspace] runs up to its first [await], stays suspended while
    the walk and the save are under way, and is resumed with their
    outcome.  Time is the host's clock in milliseconds. *)
Module Watcher.

(** The trace of a watcher: each call of [reindexWorkspace], what a run
    of it does to the world outside the watcher, and the one line
    [forceReindex] logs when it declines. *)
Inductive action : Type :=
| ReindexCalled
| WalkStarted
| Saved (index : CodebaseIndex.t)
| Notified (index : CodebaseIndex.t)
| LoggedAlreadyInProgress.

(** How the awaited walk and save end. *)
Inductive outcome : Type :=
| Completed (updatedIndex : CodebaseIndex.t)   (* both succeed *)
| WalkFailed                                    (* [indexWorkspace] rejects *)
| SaveFailed (updatedIndex : CodebaseIndex.t). (* [saveIndex] rejects *)

Record watcher : Type := mkWatcher {
  fileWatcher : bool;                    (* [this.fileWatcher !== null] *)
  debounceTimer : option N;              (* deadline of the pending timeout *)
  debounceDelay : N;
  isIndexing : bool;
  pendingChanges : bool;
  currentIndex : option CodebaseIndex.t;
  onIndexComplete : bool;                (* a subscriber is registered *)
  workspaceFolder : option string;       (* [workspaceFolders?.[0]] *)
  now : N;                               (* the host's clock *)
  suspended : nat;                       (* runs waiting at an [await] *)
  log : list action
}.

Definition M : Type -> Type := Js.M watcher.

Definition initial (folder : option string) : watcher :=
  mkWatcher false None 5000 false false None false folder 0 0 [].

Definition set_timer (t : option N) (w : watcher) : watcher :=
  mkWatcher (fileWatcher w) t (debounceDelay w) (isIndexing w) (pendingChanges w)
            (currentIndex w) (onIndexComplete w) (workspaceFolder w) (now w)
            (suspended w) (log w).

Definition set_pending (b : bool) (w : watcher) : watcher :=
  mkWatcher (fileWatcher w) (debounceTimer w) (debounceDelay w) (isIndexing w) b
            (currentIndex w) (onIndexComplete w) (workspaceFolder w) (now w)
            (suspended w) (log w).

Definition set_indexing (b : bool) (w : watcher) : watcher :=
  mkWatcher (fileWatcher w) (debounceTimer w) (debounceDelay w) b (pendingChanges w)
            (currentIndex w) (onIndexComplete w) (workspaceFolder w) (now w)
            (suspended w) (log w).

Definition set_current (ix : option CodebaseIndex.t) (w : watcher) : watcher :=
  mkWatcher (fileWatcher w) (debounceTimer w) (debounceDelay w) (isIndexing w)
            (pendingChanges w) ix (onIndexComplete w) (workspaceFolder w) (now w)
            (suspended w) (log w).

Definition set_suspended (n : nat) (w : watcher) : watcher :=
  mkWatcher (fileWatcher w) (debounceTimer w) (debounceDelay w) (isIndexing w)
            (pendingChanges w) (currentIndex w) (onIndexComplete w)
            (workspaceFolder w) (now w) n (log w).

Definition set_now (t : N) (w : watcher) : watcher :=
  mkWatcher (fileWatcher w) (debounceTimer w) (debounceDelay w) (isIndexing w)
            (pendingChanges w) (currentIndex w) (onIndexComplete w)
            (workspaceFolder w) t (suspended w) (log w).

Definition emit (a : action) (w : watcher) : watcher :=
  mkWatcher (fileWatcher w) (debounceTimer w) (debounceDelay w) (isIndexing w)
            (pendingChanges w) (currentIndex w) (onIndexComplete w)
            (workspaceFolder w) (now w) (suspended w) (log w ++ [a]).

(** [onFileChanged]: mark, [clearTimeout], [setTimeout(..., debounceDelay)]. *)
Definition onFileChanged (w : watcher) : watcher :=
  let w := set_pending true w in
  set_timer (Some (now w + debounceDelay w)%N) w.

(** [reindexWorkspace] up to its first [await]. *)
Definition reindexWorkspace_begin (w : watcher) : watcher :=
  let w := emit ReindexCalled w in
  match workspaceFolder w, currentIndex w with
  | Some _, Some _ =>
      let w := set_indexing true w in
      let w := set_pending false w in
      set_suspended (S (suspended w)) (emit WalkStarted w)
  | _, _ => w
  end.

(** The [finally] block. *)
Definition reindexWorkspace_finally (w : watcher) : watcher :=
  let w := set_indexing false w in
  if pendingChanges w then onFileChanged w else w.

(** [reindexWorkspace] from the point where the awaited walk and save are
    settled to its end. *)
Definition reindexWorkspace_resume (o : outcome) (w : watcher) : watcher :=
  let w := set_suspended (pred (suspended w)) w in
  let w :=
    match o with
    | Completed updatedIndex =>
        let w := emit (Saved updatedIndex) w in
        let w := set_current (Some updatedIndex) w in
        if onIndexComplete w then emit (Notified updatedIndex) w else w
    | WalkFailed => w
    | SaveFailed _ => w
    end in
  reindexWorkspace_finally w.

(** The callback given to [setTimeout]. *)
Definition timer_callback (w : watcher) : watcher :=
  if pendingChanges w && negb (isIndexing w) then reindexWorkspace_begin w else w.

(** [forceReindex] up to the first [await] of the run it starts. *)
Definition forceReindex : M unit :=
  fun w =>
    match workspaceFolder w with
    | None => Js.Throws "No workspace folder open" w
    | Some _ =>
        if isIndexing w then Js.Normal tt (emit LoggedAlreadyInProgress w)
        else Js.Normal tt (reindexWorkspace_begin (set_pending false w))
    end.

Definition setCurrentIndex (ix : option CodebaseIndex.t) (w : watcher) : watcher :=
  set_current ix w.

Definition stopWatching (w : watcher) : watcher :=
  let w := mkWatcher false (debounceTimer w) (debounceDelay w) (isIndexing w)
                     (pendingChanges w) (currentIndex w) (onIndexComplete w)
                     (workspaceFolder w) (now w) (suspended w) (log w) in
  set_timer None w.

Definition startWatching (subscriber : bool) (w : watcher) : watcher :=
  let w := mkWatcher (fileWatcher w) (debounceTimer w) (debounceDelay w) (isIndexing w)
                     (pendingChanges w) (currentIndex w) subscriber
                     (workspaceFolder w) (now w) (suspended w) (log w) in
  let w := if fileWatcher w then stopWatching w else w in
  mkWatcher true (debounceTimer w) (debounceDelay w) (isIndexing w)
            (pendingChanges w) (currentIndex w) (onIndexComplete w)
            (workspaceFolder w) (now w) (suspended w) (log w).

Definition setDebounceDelay (delayMs : N) (w : watcher) : watcher :=
  mkWatcher (fileWatcher w) (debounceTimer w) delayMs (isIndexing w)
            (pendingChanges w) (currentIndex w) (onIndexComplete w)
            (workspaceFolder w) (now w) (suspended w) (log w).

(** What the host and the extension do to a watcher. *)
Inductive event : Type :=
| Notification                       (* a create, change or delete *)
| Elapse (ms : N)                    (* time passes *)
| Settled (o : outcome)              (* an awaited walk and save end *)
| ForceReindex
| SetCurrentIndex (ix : option CodebaseIndex.t)
| StartWatching (subscriber : bool)
| StopWatching.

(** Time moves on by [ms]; a pending timeout whose deadline is reached
    runs its callback, once, at the deadline. *)
Definition elapse (ms : N) (w : watcher) : watcher :=
  let t := (now w + ms)%N in
  match debounceTimer w with
  | Some deadline =>
      if (deadline <=? t)%N
      then set_now t (timer_callback (set_timer None (set_now deadline w)))
      else set_now t w
  | None => set_now t w
  end.

Definition step (w : watcher) (e : event) : watcher :=
  match e with
  | Notification => if fileWatcher w then onFileChanged w else w
  | Elapse ms => elapse ms w
  | Settled o =>
      match suspended w with
      | O => w
      | S _ => reindexWorkspace_resume o w
      end
  | ForceReindex =>
      match forceReindex w with
      | Js.Normal _ w' => w'
      | Js.Throws _ w' => w'
      | Js.Diverges => w
      end
  | SetCurrentIndex ix => setCurrentIndex ix w
  | StartWatching subscriber => startWatching subscriber w
  | StopWatching => stopWatching w
  end.

Definition run (events : list event) (w : watcher) : watcher :=
  fold_left step events w.

(** A burst of notifications: one, then one more after each gap. *)
Definition burst (gaps : list N) : list event :=
  Notification :: flat_map (fun gap => [Elapse gap; Notification]) gaps.

Definition is_call (a : action) : bool :=
  match a with ReindexCalled => true | _ => false end.

Definition is_walk (a : action) : bool :=
  match a with WalkStarted => true | _ => false end.

(** The number of calls of [reindexWorkspace] so far. *)
Definition calls (w : watcher) : nat := List.length (List.filter is_call (log w)).

(** The number of walks started so far. *)
Definition walks (w : watcher) : nat := List.length (List.filter is_walk (log w)).

(** What reached the indexer, the store or the subscriber. *)
Definition is_effect (a : action) : bool :=
  match a with
  | WalkStarted | Saved _ | Notified _ => true
  | ReindexCalled | LoggedAlreadyInProgress => false
  end.

Definition effects (w : watcher) : list action := List.filter is_effect (log w).

(** The state a burst leaves behind: the flag set, the timeout re-armed
    at the time of the last notification, nothing else touched. *)
Definition armed (w : watcher) (t : N) : watcher :=
  mkWatcher (fileWatcher w) (Some (t + debounceDelay w)%N) (debounceDelay w)
            (isIndexing w) true (currentIndex w) (onIndexComplete w)
            (workspaceFolder w) t (suspended w) (log w).

(** The suspended runs and the [isIndexing] flag agree: none and unset,
    or one and set. *)
Definition exclusive (w : watcher) : Prop :=
  (isIndexing w = false /\ suspended w = 0) \/ (isIndexing w = true /\ suspended w = 1).

(** The event records a snapshot. *)
Definition records_index (e : event) : bool :=
  match e with
  | SetCurrentIndex (Some _) => true
  | _ => false
  end.

(** The event is a notification or the passing of time. *)
Definition passive (e : event) : bool :=
  match e with
  | Notification | Elapse _ => true
  | _ => false
  end.

(** The object that [getStatus] returns. *)
Record status : Type := mkStatus {
  isWatching : bool;
  status_isIndexing : bool;
  hasPendingChanges : bool;
  indexedFiles : nat;
  lastIndexed : option N
}.

Definition getStatus (w : watcher) : status :=
  mkStatus (fileWatcher w) (isIndexing w) (pendingChanges w)
           (match currentIndex w with
            | Some index => CodebaseIndex.fileCount index
            | None => 0
            end)
           (CodebaseIndex.lastIndexed <$> currentIndex w).

(** What a settled run appends to the trace. *)
Definition settle_trace (subscriber : bool) (o : outcome) : list action :=
  match o with
  | Completed updatedIndex =>
      Saved updatedIndex :: (if subscriber then [Notified updatedIndex] else [])
  | WalkFailed | SaveFailed _ => []
  end.

(** The snapshot held once a run has settled. *)
Definition settle_index (o : outcome) (held : option CodebaseIndex.t)
  : option CodebaseIndex.t :=
  match o with
  | Completed updatedIndex => Some updatedIndex
  | WalkFailed | SaveFailed _ => held
  end.

End Watcher.

(** ** The extension's commands: [activate] in [extension.ts]

    The two commands that tie the indexer, the store and the watcher
    together.  What they show to the user and send to the chat view is
    left out. *)
Module Extension.

Record world : Type := mkWorld {
  indexer : Indexer.state;
  store : Storage.disk;
  watcher : Watcher.watcher
}.

Section Commands.

Variable regexp : string -> option (string -> bool).
Variable dateNow : nat -> N.
Variable random36 : nat -> string.
Variable storagePath : string.

(** The [nextgenai.indexWorkspace] command on the file tree [root]: walk
    with a progress sink, save, hand the index to the watcher; an error
    is shown and the command ends. *)
Definition indexWorkspace_command (root : option Fs.node) : Js.M world unit :=
  fun x =>
    match Watcher.workspaceFolder (watcher x) with
    | None => Js.Normal tt x
    | Some fsPath =>
        match Indexer.indexWorkspace regexp dateNow random36 root fsPath true (indexer x) with
        | Js.Normal index st =>
            match Storage.saveIndex storagePath fsPath index (store x) with
            | Js.Normal _ d =>
                Js.Normal tt (mkWorld st d (Watcher.setCurrentIndex (Some index) (watcher x)))
            | Js.Throws _ d => Js.Normal tt (mkWorld st d (watcher x))
            | Js.Diverges => Js.Diverges
            end
        | Js.Throws _ st => Js.Normal tt (mkWorld st (store x) (watcher x))
        | Js.Diverges => Js.Diverges
        end
    end.

(** The [nextgenai.clearIndex] command: [await deleteIndex], then
    [setCurrentIndex(null)].  While the command waits for [deleteIndex],
    the host runs other callbacks: [during] are the events that reach the
    watcher in that time.  What a run of the watcher writes to the store
    is recorded in the watcher's trace ([Saved]), not applied to [store]. *)
Definition clearIndex_command (during : list Watcher.event) : Js.M world unit :=
  fun x =>
    match Watcher.workspaceFolder (watcher x) with
    | None => Js.Normal tt x
    | Some fsPath =>
        match Storage.deleteIndex storagePath fsPath (store x) with
        | Js.Normal _ d =>
            Js.Normal tt
              (mkWorld (indexer x) d
                 (Watcher.setCurrentIndex None (Watcher.run during (watcher x))))
        | Js.Throws e d =>
            Js.Throws e (mkWorld (indexer x) d (Watcher.run during (watcher x)))
        | Js.Diverges => Js.Diverges
        end
    end.

End Commands.

End Extension.

(** ** A small workspace, host and store, for the examples below *)
Module Examples.

Definition dateNow (k : nat) : N := 1000.
Definition random36 (k : nat) : string := pretty k.
Definition regexp : string -> option (string -> bool) := Glob.fragment_regexp.

Definition python_source : string := "def foo():" +:+ String "010" "    pass".

(** A root with a Python file, an ignored directory and a file of
    600 KiB. *)
Definition workspace : Fs.node :=
  Fs.Dir "ws" true
    [ Fs.File "a.py" (Some (Fs.mkStats 40 7)) (Some python_source);
      Fs.Dir "node_modules" true
        [ Fs.File "x.js" (Some (Fs.mkStats 14 7)) (Some "function f(){}") ];
      Fs.File "big.txt" (Some (Fs.mkStats 614400 7)) (Some "");
      Fs.Dir "src" true
        [ Fs.File "B.java" (Some (Fs.mkStats 10 7)) (Some "class B {}");
          Fs.File "huge.ts" (Some (Fs.mkStats 512001 7)) (Some "class H {}") ] ].

Definition fresh : Indexer.state :=
  Indexer.mkState (Indexer.emptyIndex "" 0) [] 0 [].

Definition walked : Js.result Indexer.state CodebaseIndex.t :=
  Eval vm_compute in
    Indexer.indexWorkspace regexp dateNow random36 (Some workspace) "/ws" false fresh.

Definition walked_index : CodebaseIndex.t :=
  match walked with
  | Js.Normal ix _ => ix
  | _ => Indexer.emptyIndex "" 0
  end.

Definition walked_state : Indexer.state :=
  match walked with
  | Js.Normal _ st => st
  | _ => fresh
  end.

(** A host whose random draw is always the same. *)
Definition stuck (k : nat) : string := "x".

(** A root with two Python files. *)
Definition twins : Fs.node :=
  Fs.Dir "ws" true
    [ Fs.File "a.py" (Some (Fs.mkStats 13 7)) (Some "def a(): pass");
      Fs.File "b.py" (Some (Fs.mkStats 13 7)) (Some "def b(): pass") ].

(** An empty store that refuses nothing. *)
Definition empty_disk : Storage.disk :=
  Storage.mkDisk ∅ ∅ (fun _ => false) (fun _ => false).

(** A store that takes the metadata document and the contents directory
    but refuses every content blob. *)
Definition blobs_refused : Storage.disk :=
  Storage.mkDisk ∅ ∅ (String.prefix "/store/ws/contents/") (fun _ => false).

(** A store that refuses every write. *)
Definition locked_disk : Storage.disk :=
  Storage.mkDisk ∅ ∅ (fun _ => true) (fun _ => false).

(** A store that holds a metadata document and a content blob of the
    workspace, and a blob of another one. *)
Definition stored_disk : Storage.disk :=
  Storage.mkDisk
    {[ "/store/ws.json" := Storage.Indexed (Storage.compact walked_index) ]}
    {[ "/store/ws/contents/file_1000_1.txt" := python_source;
       "/store/other/contents/7.txt" := "kept" ]}
    (fun _ => false) (fun _ => false).

(** A watcher that watches the workspace and holds its index. *)
Definition watching : Watcher.watcher :=
  Watcher.run [Watcher.StartWatching true; Watcher.SetCurrentIndex (Some walked_index)]
              (Watcher.initial (Some "/ws")).

(** The same watcher while a re-index is under way. *)
Definition indexing : Watcher.watcher :=
  Watcher.run [Watcher.Notification; Watcher.Elapse 5000] watching.

(** The extension once activated on the workspace, nothing indexed yet. *)
Definition started : Extension.world :=
  Extension.mkWorld fresh empty_disk
    (Watcher.step (Watcher.initial (Some "/ws")) (Watcher.StartWatching true)).

(** The extension with the index of the workspace stored and watched. *)
Definition indexed : Extension.world :=
  Extension.mkWorld walked_state stored_disk watching.

(** The same once a change has been notified: the timeout is pending. *)
Definition changed : Extension.world :=
  Extension.mkWorld walked_state stored_disk (Watcher.step watching Watcher.Notification).

End Examples.

(* ===================================================================== *)
(** * Part II: properties                                                 *)
(* ===================================================================== *)

(** ** The change watcher *)
Module WatcherFacts.
Import Watcher.

Lemma notification_arms (w : watcher) :
  fileWatcher w = true -> step w Notification = armed w (now w).
Proof. intros Hw. unfold step. rewrite Hw. reflexivity. Qed.

Lemma quiet_gaps (gaps : list N) : forall (w : watcher) (t : N),
  fileWatcher w = true ->
  Forall (fun gap => (gap < debounceDelay w)%N) gaps ->
  run (flat_map (fun gap => [Elapse gap; Notification]) gaps) (armed w t)
  = armed w (t + fold_right N.add 0%N gaps).
Proof.
  induction gaps as [|gap gaps IH]; intros w t Hw Hall.
  - simpl. f_equal. lia.
  - inversion Hall as [|? ? Hgap Hrest]; subst.
    change (run (flat_map (fun gap => [Elapse gap; Notification]) (gap :: gaps)) (armed w t))
      with (run (flat_map (fun gap => [Elapse gap; Notification]) gaps)
                (step (step (armed w t) (Elapse gap)) Notification)).
    assert (Hstep : step (step (armed w t) (Elapse gap)) Notification
                    = armed w (t + gap)).
    { unfold step, elapse, armed. simpl.
      destruct (N.leb_spec (t + debounceDelay w) (t + gap)) as [Hle|Hlt]; [lia|].
      simpl. rewrite Hw. reflexivity. }
    rewrite Hstep, IH by assumption.
    f_equal. simpl. lia.
Qed.

Lemma burst_arms (gaps : list N) (w : watcher) :
  fileWatcher w = true ->
  Forall (fun gap => (gap < debounceDelay w)%N) gaps ->
  run (burst gaps) w = armed w (now w + fold_right N.add 0%N gaps).
Proof.
  intros Hw Hall. unfold burst.
  change (run (Notification :: ?l) w) with (run l (step w Notification)).
  rewrite notification_arms by assumption. apply quiet_gaps; assumption.
Qed.

Lemma run_app (es1 es2 : list event) (w : watcher) :
  run (es1 ++ es2) w = run es2 (run es1 w).
Proof. unfold run. apply fold_left_app. Qed.

Lemma calls_emit (a : action) (w : watcher) :
  calls (emit a w) = calls w + (if is_call a then 1 else 0).
Proof.
  unfold calls, emit. simpl. rewrite List.filter_app, List.length_app. simpl.
  destruct (is_call a); reflexivity.
Qed.

Lemma walks_emit (a : action) (w : watcher) :
  walks (emit a w) = walks w + (if is_walk a then 1 else 0).
Proof.
  unfold walks, emit. simpl. rewrite List.filter_app, List.length_app. simpl.
  destruct (is_walk a); reflexivity.
Qed.

(** A timeout that expires on an armed, non-indexing watcher calls
    [reindexWorkspace]. *)
Lemma armed_fires (w : watcher) (t ms : N) :
  isIndexing w = false ->
  (debounceDelay w <= ms)%N ->
  step (armed w t) (Elapse ms)
  = set_now (t + ms)
      (reindexWorkspace_begin (set_timer None (armed w (t + debounceDelay w)))).
Proof.
  intros Hidle Hms. unfold step, elapse, armed. simpl.
  destruct (N.leb_spec (t + debounceDelay w) (t + ms)) as [_|Hlt]; [|lia].
  unfold timer_callback. simpl. rewrite Hidle. reflexivity.
Qed.


Lemma exclusive_step (w : watcher) (e : event) :
  exclusive w -> exclusive (step w e).
Proof.
  unfold exclusive. intros Hex.
  destruct w as [fw tm delay ixg pend cur sub folder nw susp lg]. simpl in Hex.
  destruct Hex as [[-> ->]|[-> ->]]; destruct e as [|ms|o| |ix|sb|]; simpl.
  all: unfold elapse, onFileChanged, timer_callback, reindexWorkspace_begin,
         reindexWorkspace_resume, reindexWorkspace_finally, forceReindex; simpl.
  all: repeat first
         [ progress (unfold reindexWorkspace_begin, set_pending; simpl)
         | match goal with
           | |- context [match ?x with _ => _ end] => is_var x; destruct x; simpl
           | |- context [N.leb ?a ?b] => destruct (N.leb a b); simpl
           | |- context [andb ?x _] => is_var x; destruct x; simpl
           end ].
  all: auto.
Qed.

Lemma exclusive_run (events : list event) : forall w : watcher,
  exclusive w -> exclusive (run events w).
Proof.
  induction events as [|e events IH]; intros w Hex; [exact Hex|].
  apply (IH (step w e)), exclusive_step, Hex.
Qed.

Lemma effects_emit (a : action) (w : watcher) :
  effects (emit a w) = effects w ++ (if is_effect a then [a] else []).
Proof.
  unfold effects, emit. simpl. rewrite List.filter_app. simpl.
  destruct (is_effect a); reflexivity.
Qed.

(** C6. In every state a watcher can reach, at most one run of
    [reindexWorkspace] is under way, and one is exactly when [isIndexing]
    is set.  While one is: [forceReindex] only logs a line and returns,
    and the run then settles as it would have without the request; a
    notification sets the pending flag and restarts the timeout without
    calling [reindexWorkspace], a timeout that expires meanwhile does
    nothing, and when the run settles the state is the one the flag alone
    would have led to, with the run over and the timeout armed afresh. *)
Theorem one_reindex_at_a_time :
  (forall (folder : option string) (events : list event),
     let w := run events (initial folder) in
     suspended w <= 1 /\ (isIndexing w = true <-> suspended w = 1)) /\
  (forall w : watcher,
     isIndexing w = true -> workspaceFolder w <> None ->
     forceReindex w = Js.Normal tt (emit LoggedAlreadyInProgress w) /\
     (forall o : outcome,
        let w' := reindexWorkspace_resume o (step w ForceReindex) in
        let w0 := reindexWorkspace_resume o w in
        currentIndex w' = currentIndex w0 /\ effects w' = effects w0 /\
        calls w' = calls w0 /\ isIndexing w' = isIndexing w0 /\
        pendingChanges w' = pendingChanges w0 /\
        debounceTimer w' = debounceTimer w0 /\ suspended w' = suspended w0)) /\
  (forall w : watcher,
     isIndexing w = true -> fileWatcher w = true ->
     let w' := step w Notification in
     w' = set_timer (Some (now w + debounceDelay w)%N) (set_pending true w) /\
     (forall ms : N, log (step w' (Elapse ms)) = log w /\
                     suspended (step w' (Elapse ms)) = suspended w /\
                     isIndexing (step w' (Elapse ms)) = true) /\
     (forall o : outcome,
        let w'' := reindexWorkspace_resume o w' in
        w'' = reindexWorkspace_resume o (set_pending true w) /\
        isIndexing w'' = false /\
        debounceTimer w'' = Some (now w + debounceDelay w)%N /\
        calls w'' = calls w)).
Proof.
  split; [|split].
  - intros folder events w.
    assert (Hex : exclusive w).
    { apply exclusive_run. left. split; reflexivity. }
    destruct Hex as [[Hi Hs]|[Hi Hs]]; rewrite Hi, Hs; split; try lia;
      split; intros; congruence.
  - intros w Hbusy Hfolder.
    destruct w as [fw tm delay ixg pend cur sub folder nw susp lg].
    simpl in *. subst ixg.
    destruct folder as [folder|]; [|congruence].
    split; [reflexivity|].
    intros o. unfold step, forceReindex. simpl.
    unfold calls, effects, reindexWorkspace_resume, reindexWorkspace_finally,
      onFileChanged, emit. simpl.
    destruct o as [ix| |ix]; simpl; destruct sub; simpl; destruct pend; simpl.
    all: rewrite ?List.filter_app; simpl; rewrite ?List.app_nil_r.
    all: repeat split; reflexivity.
  - intros w Hbusy Hwatch.
    destruct w as [fw tm delay ixg pend cur sub folder nw susp lg].
    simpl in *. subst ixg fw. simpl.
    split; [reflexivity|]. split.
    + intros ms. unfold elapse, onFileChanged. simpl.
      destruct (N.leb_spec (nw + delay) (nw + ms)); simpl; repeat split; reflexivity.
    + intros o. unfold calls, reindexWorkspace_resume, reindexWorkspace_finally,
        onFileChanged, emit. simpl.
      destruct o as [ix| |ix]; simpl; destruct sub; simpl.
      all: rewrite ?List.filter_app; simpl; rewrite ?List.app_nil_r.
      all: repeat split; reflexivity.
Qed.

Lemma no_snapshot_step (w : watcher) (e : event) :
  currentIndex w = None -> suspended w = 0 -> records_index e = false ->
  currentIndex (step w e) = None /\ suspended (step w e) = 0 /\
  effects (step w e) = effects w.
Proof.
  destruct w as [fw tm delay ixg pend cur sub folder nw susp lg].
  simpl. intros -> -> He.
  destruct e as [|ms|o| |[ix|]|sb|]; simpl in *; try discriminate.
  all: unfold elapse, onFileChanged, timer_callback, reindexWorkspace_begin,
         forceReindex, effects; simpl.
  all: repeat match goal with
         | |- context [match ?x with _ => _ end] => is_var x; destruct x; simpl
         | |- context [N.leb ?a ?b] => destruct (N.leb a b); simpl
         | |- context [andb ?x _] => is_var x; destruct x; simpl
         | |- context [negb ?x] => is_var x; destruct x; simpl
         end.
  all: rewrite ?List.filter_app; simpl; rewrite ?List.app_nil_r; auto.
Qed.

(** C9. While the watcher holds no snapshot, the expiry of the debounce
    timeout and a [forceReindex] request start no walk, save nothing and
    notify nobody, and leave no run under way; and from the initial
    state, as long as no snapshot is recorded with [setCurrentIndex],
    no sequence of events ever does. *)
Theorem no_snapshot_no_reindex :
  (forall (w : watcher) (e : event),
     currentIndex w = None ->
     e = ForceReindex \/ (exists ms, e = Elapse ms) ->
     effects (step w e) = effects w /\ suspended (step w e) = suspended w /\
     isIndexing (step w e) = isIndexing w /\ currentIndex (step w e) = None) /\
  (forall (folder : option string) (events : list event),
     forallb (fun e => negb (records_index e)) events = true ->
     effects (run events (initial folder)) = [] /\
     currentIndex (run events (initial folder)) = None).
Proof.
  split.
  - intros w e Hcur He.
    destruct w as [fw tm delay ixg pend cur sub folder nw susp lg].
    simpl in Hcur. subst cur.
    destruct He as [->|[ms ->]]; simpl.
    + unfold forceReindex, reindexWorkspace_begin, effects. simpl.
      destruct folder; simpl; [|auto].
      destruct ixg; simpl; rewrite ?List.filter_app; simpl;
        rewrite ?List.app_nil_r; auto.
    + unfold elapse, timer_callback, reindexWorkspace_begin, effects. simpl.
      destruct tm as [deadline|]; simpl; [|auto].
      destruct (N.leb deadline (nw + ms)); simpl; [|auto].
      destruct pend, ixg; simpl; auto.
      destruct folder; simpl; rewrite ?List.filter_app; simpl;
        rewrite ?List.app_nil_r; auto.
  - intros folder events.
    assert (Hgen : forall w : watcher,
               currentIndex w = None -> suspended w = 0 ->
               forallb (fun e => negb (records_index e)) events = true ->
               effects (run events w) = effects w /\ currentIndex (run events w) = None).
    { induction events as [|e events IH]; intros w Hcur Hsusp Hev; [auto|].
      simpl in Hev. apply andb_prop in Hev. destruct Hev as [He Hev].
      apply negb_true_iff in He.
      destruct (no_snapshot_step w e Hcur Hsusp He) as (Hcur' & Hsusp' & Heff).
      destruct (IH (step w e) Hcur' Hsusp' Hev) as [Heff' Hcur''].
      simpl. split; [congruence|exact Hcur'']. }
    intros Hev. apply (Hgen (initial folder)); auto.
Qed.


Lemma one_reindex_at_a_time_witness :
  isIndexing Examples.indexing = true /\
  forceReindex Examples.indexing
  = Js.Normal tt (emit LoggedAlreadyInProgress Examples.indexing) /\
  pendingChanges (step Examples.indexing Notification) = true /\
  calls (reindexWorkspace_resume WalkFailed (step Examples.indexing Notification))
  = calls Examples.indexing.
Proof.
  destruct one_reindex_at_a_time as (_ & Hforce & Hnotify).
  split; [reflexivity|]. split.
  - apply (Hforce Examples.indexing); [reflexivity|discriminate].
  - destruct (Hnotify Examples.indexing eq_refl eq_refl) as (Hw' & _ & Hsettle).
    split; [rewrite Hw'; reflexivity|]. apply (Hsettle WalkFailed).
Defined.

Lemma no_snapshot_no_reindex_witness :
  currentIndex (initial (Some "/ws")) = None /\
  effects (step (initial (Some "/ws")) ForceReindex) = effects (initial (Some "/ws")) /\
  effects (run [StartWatching true; Notification; Elapse 5000; ForceReindex]
               (initial (Some "/ws"))) = [].
Proof.
  destruct no_snapshot_no_reindex as [Hstep Htrace].
  split; [reflexivity|]. split.
  - apply (Hstep (initial (Some "/ws")) ForceReindex eq_refl). left. reflexivity.
  - apply (Htrace (Some "/ws")
             [StartWatching true; Notification; Elapse 5000; ForceReindex]).
    reflexivity.
Defined.

Lemma no_snapshot_run (events : list event) : forall w : watcher,
  currentIndex w = None -> suspended w = 0 ->
  forallb (fun e => negb (records_index e)) events = true ->
  effects (run events w) = effects w /\ currentIndex (run events w) = None.
Proof.
  induction events as [|e events IH]; intros w Hcur Hsusp Hev; [auto|].
  simpl in Hev. apply andb_prop in Hev. destruct Hev as [He Hev].
  apply negb_true_iff in He.
  destruct (no_snapshot_step w e Hcur Hsusp He) as (Hcur' & Hsusp' & Heff).
  destruct (IH (step w e) Hcur' Hsusp' Hev) as [Heff' Hcur''].
  simpl. split; [congruence|exact Hcur''].
Qed.

(** Without a watcher and without a timeout, a notification or the
    passing of time moves the clock only. *)
Lemma passive_step (w : watcher) (e : event) :
  fileWatcher w = false -> debounceTimer w = None -> passive e = true ->
  exists t, step w e = set_now t w.
Proof.
  intros Hw Ht He. destruct e; try discriminate; simpl.
  - exists (now w). rewrite Hw. now destruct w.
  - exists (now w + ms)%N. unfold elapse. rewrite Ht. reflexivity.
Qed.

Lemma passive_run (events : list event) : forall w : watcher,
  fileWatcher w = false -> debounceTimer w = None ->
  forallb passive events = true ->
  exists t, run events w = set_now t w.
Proof.
  induction events as [|e events IH]; intros w Hw Ht Hall.
  - exists (now w). now destruct w.
  - simpl in Hall. apply andb_prop in Hall. destruct Hall as [He Hall].
    destruct (passive_step w e Hw Ht He) as (t & Hstep).
    change (run (e :: events) w) with (run events (step w e)). rewrite Hstep.
    destruct (IH (set_now t w) Hw Ht Hall) as (t' & ->).
    exists t'. reflexivity.
Qed.

(** X20. After [stopWatching], notifications and the passing of time
    change nothing of the watcher but the clock: the cancelled timeout
    never fires, so no re-index is called, whatever changes were pending. *)
Theorem stopWatching_silences (w : watcher) (events : list event) :
  forallb passive events = true ->
  exists t, run events (stopWatching w) = set_now t (stopWatching w).
Proof. intros Hall. apply passive_run; [reflexivity|reflexivity|exact Hall]. Qed.

Lemma stopWatching_silences_witness :
  exists t,
    run [Notification; Elapse 5000; Notification; Elapse 9000]
        (stopWatching (step Examples.watching Notification))
    = set_now t (stopWatching (step Examples.watching Notification)).
Proof.
  apply (stopWatching_silences (step Examples.watching Notification)
           [Notification; Elapse 5000; Notification; Elapse 9000]).
  reflexivity.
Defined.

(** X21. [stopWatching] while a run is under way does not end the
    watching of changes already notified: when the run settles with
    changes pending, its [finally] block arms a new timeout, and the
    expiry of that timeout calls [reindexWorkspace] once more (and starts
    a walk when a folder is open and a snapshot is held). *)
Theorem stop_during_reindex_rearms (w : watcher) (o : outcome) (ms : N) :
  suspended w = 1 ->
  pendingChanges w = true ->
  (debounceDelay w <= ms)%N ->
  let w1 := run [StopWatching; Settled o] w in
  let w2 := step w1 (Elapse ms) in
  fileWatcher w1 = false /\
  debounceTimer w1 = Some (now w + debounceDelay w)%N /\
  calls w1 = calls w /\
  calls w2 = S (calls w) /\
  (workspaceFolder w <> None -> currentIndex w <> None -> walks w2 = S (walks w)).
Proof.
  intros Hsusp Hpending Hms w1 w2. subst w1 w2.
  destruct w as [fw timer delay indexing pending current subscriber folder t susp l].
  simpl in Hsusp, Hpending, Hms. subst susp pending.
  unfold run, calls, walks. cbn [fold_left step stopWatching set_timer suspended].
  unfold reindexWorkspace_resume, reindexWorkspace_finally, onFileChanged, elapse.
  destruct o as [ix| |ix]; cbn; destruct subscriber; cbn;
    (destruct (N.leb_spec (t + delay) (t + ms)) as [_|Hlt]; [|lia]);
    unfold timer_callback, reindexWorkspace_begin; cbn;
    repeat split; try reflexivity;
    try (rewrite ?List.filter_app, ?List.length_app; cbn; lia);
    try (destruct folder, current; cbn;
         rewrite ?List.filter_app, ?List.length_app; cbn; lia).
  all: intros Hfolder Hcurrent; destruct folder; [|congruence];
    try (destruct current; [|congruence]); cbn;
    rewrite ?List.filter_app, ?List.length_app; cbn; lia.
Qed.

Lemma stop_during_reindex_rearms_witness :
  let w := step Examples.indexing Notification in
  let w1 := run [StopWatching; Settled WalkFailed] w in
  let w2 := step w1 (Elapse 5000) in
  fileWatcher w1 = false /\
  debounceTimer w1 = Some (now w + debounceDelay w)%N /\
  calls w1 = calls w /\
  calls w2 = S (calls w) /\
  (workspaceFolder w <> None -> currentIndex w <> None -> walks w2 = S (walks w)).
Proof.
  apply (stop_during_reindex_rearms (step Examples.indexing Notification) WalkFailed 5000).
  - reflexivity.
  - reflexivity.
  - vm_compute. discriminate.
Defined.

(** X22. When the awaited walk and save of a run settle, the watcher is
    idle again whatever the outcome.  A run that completed makes its
    index the snapshot that [getStatus] reports, records the save and
    notifies the subscriber when there is one; a run whose walk or save
    failed keeps the snapshot held before and notifies nobody.  Changes
    notified meanwhile arm a new timeout, otherwise the timeout is left
    as it was. *)
Theorem reindex_settles (w : watcher) (o : outcome) :
  suspended w <> 0 ->
  let w' := step w (Settled o) in
  isIndexing w' = false /\
  suspended w' = pred (suspended w) /\
  currentIndex w' = settle_index o (currentIndex w) /\
  log w' = log w ++ settle_trace (onIndexComplete w) o /\
  indexedFiles (getStatus w')
  = (match settle_index o (currentIndex w) with
     | Some index => CodebaseIndex.fileCount index
     | None => 0
     end) /\
  pendingChanges w' = pendingChanges w /\
  debounceTimer w'
  = (if pendingChanges w then Some (now w + debounceDelay w)%N else debounceTimer w).
Proof.
  intros Hsusp w'. subst w'.
  destruct w as [fw timer delay indexing pending current subscriber folder t susp l].
  simpl in Hsusp. destruct susp as [|susp]; [congruence|].
  unfold step, reindexWorkspace_resume, reindexWorkspace_finally, onFileChanged, getStatus.
  destruct o as [ix| |ix], subscriber, pending; cbn;
    rewrite ?app_nil_r, <- ?app_assoc; repeat split; reflexivity.
Qed.

Lemma reindex_settles_witness :
  let w := Examples.indexing in
  let o := SaveFailed Examples.walked_index in
  let w' := step w (Settled o) in
  isIndexing w' = false /\
  suspended w' = pred (suspended w) /\
  currentIndex w' = settle_index o (currentIndex w) /\
  log w' = log w ++ settle_trace (onIndexComplete w) o /\
  indexedFiles (getStatus w')
  = (match settle_index o (currentIndex w) with
     | Some index => CodebaseIndex.fileCount index
     | None => 0
     end) /\
  pendingChanges w' = pendingChanges w /\
  debounceTimer w'
  = (if pendingChanges w then Some (now w + debounceDelay w)%N else debounceTimer w).
Proof.
  apply (reindex_settles Examples.indexing (SaveFailed Examples.walked_index)).
  vm_compute. discriminate.
Defined.

(** X23. [setDebounceDelay] does not reschedule: a timeout that is
    pending keeps its deadline, so the passing of time acts as it would
    have without the call; the new delay is the one that the next
    notification arms. *)
Theorem setDebounceDelay_keeps_deadline (w : watcher) (delayMs ms : N) :
  elapse ms (setDebounceDelay delayMs w) = setDebounceDelay delayMs (elapse ms w) /\
  debounceTimer (onFileChanged (setDebounceDelay delayMs w)) = Some (now w + delayMs)%N.
Proof.
  split; [|reflexivity].
  destruct w as [fw timer delay indexing pending current subscriber folder t susp l].
  unfold elapse, setDebounceDelay. cbn.
  destruct timer as [deadline|]; [|reflexivity].
  destruct (deadline <=? t + ms)%N; [|reflexivity].
  unfold timer_callback, reindexWorkspace_begin. cbn.
  destruct pending, indexing, folder, current; reflexivity.
Qed.

(** X24. [forceReindex] on an idle watcher with a folder open calls
    [reindexWorkspace] once and clears the pending flag, so that a
    timeout armed by earlier notifications calls nothing when it expires
    afterwards.  Without a snapshot that one call starts no walk: the
    changes notified before are dropped. *)
Theorem forceReindex_absorbs_pending (w : watcher) (ms : N) :
  workspaceFolder w <> None ->
  isIndexing w = false ->
  let w1 := step w ForceReindex in
  let w2 := step w1 (Elapse ms) in
  calls w1 = S (calls w) /\
  pendingChanges w1 = false /\
  log w2 = log w1 /\
  (currentIndex w = None ->
   walks w1 = walks w /\ isIndexing w1 = false /\ pendingChanges w2 = false).
Proof.
  intros Hfolder Hidle w1 w2. subst w1 w2.
  destruct w as [fw timer delay indexing pending current subscriber folder t susp l].
  simpl in Hfolder, Hidle. subst indexing.
  destruct folder as [folder|]; [clear Hfolder|congruence].
  unfold step, forceReindex, reindexWorkspace_begin, elapse, timer_callback, calls, walks.
  destruct current as [ix|], timer as [deadline|]; cbn;
    try destruct (deadline <=? t + ms)%N; cbn;
    rewrite ?List.filter_app, ?List.length_app; cbn;
    repeat split; try reflexivity; try lia; try discriminate.
Qed.

Lemma forceReindex_absorbs_pending_witness :
  let w := step Examples.watching Notification in
  let w1 := step w ForceReindex in
  let w2 := step w1 (Elapse 5000) in
  calls w1 = S (calls w) /\
  pendingChanges w1 = false /\
  log w2 = log w1 /\
  (currentIndex w = None ->
   walks w1 = walks w /\ isIndexing w1 = false /\ pendingChanges w2 = false).
Proof.
  apply (forceReindex_absorbs_pending (step Examples.watching Notification) 5000).
  - vm_compute. discriminate.
  - reflexivity.
Defined.

(** X29. [startWatching] leaves the watcher watching with the subscriber
    it was given, none when none was given.  On a watcher that was
    already watching it cancels the pending timeout and keeps the pending
    flag: changes notified before the call are not re-indexed when time
    passes, only once a later notification arms a timeout again.  On a
    watcher that was not watching, a timeout still pending is kept. *)
Theorem startWatching_restarts (w : watcher) (subscriber : bool) (ms : N) :
  let w1 := step w (StartWatching subscriber) in
  fileWatcher w1 = true /\
  onIndexComplete w1 = subscriber /\
  debounceTimer w1 = (if fileWatcher w then None else debounceTimer w) /\
  pendingChanges w1 = pendingChanges w /\
  (fileWatcher w = true -> step w1 (Elapse ms) = set_now (now w + ms)%N w1) /\
  debounceTimer (step w1 Notification) = Some (now w + debounceDelay w)%N.
Proof.
  destruct w as [fw timer delay indexing pending current sub folder t susp l].
  cbn. destruct fw; cbn; repeat split; try reflexivity; discriminate.
Qed.

End WatcherFacts.

(** ** Regular expressions: matches consume, loops end *)
Module RegexFacts.
Import Regex.

Lemma length_prefix (n : nat) : forall s : string,
  String.length (substring 0 n s) = Nat.min n (String.length s).
Proof.
  induction n as [|n IH]; intros [|a s]; simpl; try reflexivity.
  now rewrite IH.
Qed.

Lemma length_consumed (s rest : string) :
  String.length rest <= String.length s ->
  String.length (consumed s rest) + String.length rest = String.length s.
Proof. intros Hle. unfold consumed. rewrite length_prefix. lia. Qed.

Lemma progress_lt (s : string) (res : string * option string) :
  progress s res = true -> String.length (fst res) < String.length s.
Proof. unfold progress. apply Nat.ltb_lt. Qed.

Lemma run_shrinks (r : regex) : shrinks r.
Proof.
  induction r as [|neg ranges|r1 IH1 r2 IH2|r1 IH1 r2 IH2|r1 IH1|r1 IH1|r1 IH1];
    intros s cap res Hin; simpl in Hin.
  - destruct Hin as [<-|[]]. simpl. split; [lia|discriminate].
  - destruct s as [|c s']; [destruct Hin|].
    destruct (cls_mem neg ranges c); [|destruct Hin].
    destruct Hin as [<-|[]]. simpl. split; [lia|intros _; lia].
  - apply in_flat_map in Hin. destruct Hin as (mid & Hmid & Hres).
    destruct (IH1 _ _ _ Hmid) as [Hle1 Hlt1].
    destruct (IH2 _ _ _ Hres) as [Hle2 Hlt2].
    split; [lia|]. simpl. intros Hc. apply orb_prop in Hc.
    destruct Hc as [Hc|Hc]; [specialize (Hlt1 Hc)|specialize (Hlt2 Hc)]; lia.
  - apply in_app_or in Hin.
    destruct Hin as [Hin|Hin];
      [destruct (IH1 _ _ _ Hin) as [Hle Hlt]|destruct (IH2 _ _ _ Hin) as [Hle Hlt]].
    all: split; [exact Hle|]; simpl; intros Hc; apply andb_prop in Hc;
      destruct Hc as [Hc1 Hc2]; auto.
  - split; [|discriminate]. apply in_app_or in Hin. destruct Hin as [Hin|[<-|[]]].
    + apply filter_In in Hin. destruct Hin as [_ Hp]. apply progress_lt in Hp. lia.
    + simpl. lia.
  - split; [|discriminate].
    revert Hin. generalize (String.length s) at 1 as fuel. intros fuel.
    revert s cap res.
    induction fuel as [|fuel IHf]; intros s cap res Hin.
    + destruct Hin as [<-|[]]. simpl. lia.
    + apply in_app_or in Hin. destruct Hin as [Hin|[<-|[]]]; [|simpl; lia].
      apply in_flat_map in Hin. destruct Hin as (mid & Hmid & Hres).
      apply filter_In in Hmid. destruct Hmid as [_ Hp]. apply progress_lt in Hp.
      specialize (IHf _ _ _ Hres). lia.
  - apply in_map_iff in Hin. destruct Hin as (res0 & <- & Hin0). simpl.
    apply (IH1 _ _ _ Hin0).
Qed.

Lemma match_here_shrinks (r : regex) (s rest : string) (cap : option string) :
  match_here r s = Some (rest, cap) ->
  String.length rest <= String.length s /\
  (consuming r = true -> String.length rest < String.length s).
Proof.
  unfold match_here. intros Hhd.
  destruct (run r s None) as [|res l] eqn:Hrun; [discriminate|].
  simpl in Hhd. injection Hhd as ->.
  apply (run_shrinks r s None (rest, cap)). rewrite Hrun. now left.
Qed.

(** A hit found from offset [pos] starts at or after [pos], and it, what
    precedes it and what is left make up the input. *)
Lemma search_spec (r : regex) : forall (s : string) (pos : nat) (h : hit) (rest : string),
  search r s pos = Some (h, rest) ->
  pos <= index h /\
  index h + String.length (matched h) + String.length rest = pos + String.length s /\
  (consuming r = true -> 0 < String.length (matched h)).
Proof.
  induction s as [|a s IH]; intros pos h rest Hs; simpl in Hs.
  - destruct (match_here r "") as [[rest0 cap]|] eqn:Hm; [|discriminate].
    injection Hs as <- <-. simpl.
    destruct (match_here_shrinks _ _ _ _ Hm) as [Hle Hlt].
    pose proof (length_consumed "" rest0 Hle) as Hc. simpl in *.
    repeat split; try lia. intros Hcons. specialize (Hlt Hcons). lia.
  - destruct (match_here r (String a s)) as [[rest0 cap]|] eqn:Hm.
    + injection Hs as <- <-. simpl.
      destruct (match_here_shrinks _ _ _ _ Hm) as [Hle Hlt].
      pose proof (length_consumed (String a s) rest0 Hle) as Hc. simpl in *.
      repeat split; try lia. intros Hcons. specialize (Hlt Hcons). lia.
    + destruct (IH _ _ _ Hs) as (Hpos & Hlen & Hne). simpl.
      repeat split; try lia. exact Hne.
Qed.

Lemma increasing_cons (p : nat) (ps : list nat) :
  Forall (fun q => p < q) ps -> increasing ps -> increasing (p :: ps).
Proof.
  intros Hall Hinc [|i] [|j] a b Ha Hb Hij; simpl in *; try lia.
  - injection Ha as <-. rewrite List.Forall_forall in Hall. apply Hall.
    apply list_elem_of_In. eapply list_elem_of_lookup_2. exact Hb.
  - apply (Hinc i j); auto. lia.
Qed.

Lemma exec_loop_increasing (r : regex) (Hr : consuming r = true) :
  forall (fuel : nat) (s : string) (pos : nat) (hits : list hit),
    exec_loop fuel r s pos = Some hits ->
    Forall (fun h => pos <= index h) hits /\ increasing (List.map index hits).
Proof.
  induction fuel as [|fuel IH]; intros s pos hits Hex; simpl in Hex; [discriminate|].
  destruct (search r s pos) as [[h rest]|] eqn:Hs.
  - destruct (exec_loop fuel r rest _) as [hits'|] eqn:Hrec; [|discriminate].
    injection Hex as <-.
    destruct (search_spec _ _ _ _ _ Hs) as (Hpos & _ & Hne). specialize (Hne Hr).
    destruct (IH _ _ _ Hrec) as [Hall Hinc].
    split.
    + constructor; [exact Hpos|].
      eapply Forall_impl; [exact Hall|]. simpl. intros; lia.
    + simpl. apply increasing_cons; [|exact Hinc].
      apply List.Forall_forall. intros q Hq. apply in_map_iff in Hq.
      destruct Hq as (h' & <- & Hh'). rewrite List.Forall_forall in Hall.
      specialize (Hall h' Hh'). simpl in Hall. lia.
  - injection Hex as <-. split; [constructor|].
    intros i j p q Hi. destruct i; discriminate.
Qed.

(** With fuel beyond the length of the input, the loop of a [consuming]
    expression ends. *)
Lemma exec_loop_total (r : regex) (Hr : consuming r = true) :
  forall (fuel : nat) (s : string) (pos : nat),
    String.length s < fuel -> is_Some (exec_loop fuel r s pos).
Proof.
  induction fuel as [|fuel IH]; intros s pos Hlt; [lia|]. simpl.
  destruct (search r s pos) as [[h rest]|] eqn:Hs; [|eexists; reflexivity].
  destruct (search_spec _ _ _ _ _ Hs) as (Hpos & Hlen & Hne). specialize (Hne Hr).
  destruct (IH rest (index h + String.length (matched h))) as [hits Hhits]; [lia|].
  rewrite Hhits. eexists; reflexivity.
Qed.

Lemma exec_all_total (r : regex) (content : string) :
  consuming r = true -> is_Some (exec_all r content).
Proof. intros Hr. apply exec_loop_total; [exact Hr|lia]. Qed.

End RegexFacts.

(** ** Symbol extraction *)
Module SymbolsFacts.
Import Regex RegexFacts Symbols.

Lemma prefix_append (p s : string) : String.prefix p (p +:+ s) = true.
Proof.
  induction p as [|a p IH]; simpl; [now destruct s|].
  destruct (ascii_dec a a); [exact IH|congruence].
Qed.

Lemma increasing_first_occurrence (l : list (nat * string)) :
  increasing (List.map fst l) -> first_occurrence_order l.
Proof.
  intros Hinc i j p q Hi Hj Hlt.
  destruct (Nat.lt_trichotomy i j) as [Hij|[->|Hji]]; [exact Hij| |].
  - rewrite Hi in Hj. injection Hj as <-. lia.
  - assert (fst q < fst p); [|lia].
    apply (Hinc j i); [| |exact Hji].
    + change (List.map fst l) with (fst <$> l). now rewrite list_lookup_fmap, Hj.
    + change (List.map fst l) with (fst <$> l). now rewrite list_lookup_fmap, Hi.
Qed.

(** One loop ends, lists its hits by growing position, and tags each. *)
Lemma collect_spec (tag : string) (re : regex) (content : string) :
  consuming re = true ->
  exists l, collect tag re content = Some l /\
            first_occurrence_order l /\
            Forall (fun p => Str.startsWith (snd p) tag = true) l.
Proof.
  intros Hre. unfold collect.
  destruct (exec_all_total re content Hre) as [hits Hhits].
  rewrite Hhits. simpl. eexists. split; [reflexivity|]. split.
  - apply increasing_first_occurrence. rewrite List.map_map. simpl.
    apply (exec_loop_increasing re Hre _ _ _ _ Hhits).
  - apply List.Forall_forall. intros p Hp. apply in_map_iff in Hp.
    destruct Hp as (h & <- & _). simpl. apply prefix_append.
Qed.

(** Every call of [extractSymbols] returns. *)
Lemma extractSymbols_total (content language : string) :
  is_Some (extractSymbols content language).
Proof.
  assert (Hpair : forall tag1 tag2 re1 re2,
             consuming re1 = true -> consuming re2 = true ->
             is_Some (fns ← collect tag1 re1 content;
                      cls ← collect tag2 re2 content; Some (fns ++ cls))).
  { intros tag1 tag2 re1 re2 H1 H2.
    destruct (collect_spec tag1 re1 content H1) as (l1 & -> & _).
    destruct (collect_spec tag2 re2 content H2) as (l2 & -> & _).
    eexists; reflexivity. }
  unfold extractSymbols, extractSymbolsAt.
  repeat match goal with
         | |- context [if ?b then _ else _] => destruct b
         end.
  all: try (apply fmap_is_Some, Hpair; reflexivity).
  eexists; reflexivity.
Qed.

(** C4, as the claim states it, fails: a class declared before a function
    is listed after it. *)
Lemma extractSymbols_not_first_occurrence :
  ~ (forall (content language : string) (l : list (nat * string)),
       extractSymbolsAt content language = Some l -> first_occurrence_order l).
Proof.
  intros Hclaim.
  specialize (Hclaim "class A{} function f(){}" "javascript"
                     [(10, "fn:f"); (0, "class:A")] eq_refl).
  specialize (Hclaim 1 0 (0, "class:A") (10, "fn:f") eq_refl eq_refl).
  simpl in Hclaim. lia.
Qed.

(** C4, amended.  [extractSymbols] always returns; its result is two
    groups, one after the other, each holding the symbols of one kind in
    the order in which their defining matches start in the content: all
    [fn:] symbols and then all [class:] symbols for typescript, javascript
    and python, all [class:] symbols and then all [method:] symbols for
    java and csharp, and nothing for any other language. *)
Theorem extractSymbols_grouped_by_kind (content language : string) :
  exists first second : list (nat * string),
    extractSymbolsAt content language = Some (first ++ second) /\
    extractSymbols content language = Some (List.map snd (first ++ second)) /\
    first_occurrence_order first /\ first_occurrence_order second /\
    match kinds language with
    | Some (kind1, kind2) =>
        Forall (fun p => Str.startsWith (snd p) kind1 = true) first /\
        Forall (fun p => Str.startsWith (snd p) kind2 = true) second
    | None => first = [] /\ second = []
    end.
Proof.
  assert (Hpair : forall tag1 tag2 re1 re2,
             consuming re1 = true -> consuming re2 = true ->
             exists first second,
               (fns ← collect tag1 re1 content;
                cls ← collect tag2 re2 content; Some (fns ++ cls))
               = Some (first ++ second) /\
               first_occurrence_order first /\ first_occurrence_order second /\
               Forall (fun p => Str.startsWith (snd p) tag1 = true) first /\
               Forall (fun p => Str.startsWith (snd p) tag2 = true) second).
  { intros tag1 tag2 re1 re2 H1 H2.
    destruct (collect_spec tag1 re1 content H1) as (l1 & -> & Ho1 & Ht1).
    destruct (collect_spec tag2 re2 content H2) as (l2 & -> & Ho2 & Ht2).
    exists l1, l2. simpl. auto. }
  unfold extractSymbols, extractSymbolsAt, kinds.
  destruct (bool_decide (language = "typescript") || bool_decide (language = "javascript"))
    eqn:Hjs; simpl.
  { destruct (Hpair "fn:" "class:" js_funcRegex js_classRegex eq_refl eq_refl)
      as (l1 & l2 & -> & H). exists l1, l2. simpl. tauto. }
  destruct (bool_decide (language = "python")) eqn:Hpy; simpl.
  { destruct (Hpair "fn:" "class:" py_funcRegex py_classRegex eq_refl eq_refl)
      as (l1 & l2 & -> & H). exists l1, l2. simpl. tauto. }
  destruct (bool_decide (language = "java") || bool_decide (language = "csharp"))
    eqn:Hjava; simpl.
  { destruct (Hpair "class:" "method:" java_classRegex java_methodRegex eq_refl eq_refl)
      as (l1 & l2 & -> & H). exists l1, l2. simpl. tauto. }
  exists [], []. simpl. repeat split; intros i j p q Hi; destruct i; discriminate.
Qed.

Lemma collect_tags (tag : string) (re : regex) (content : string)
    (l : list (nat * string)) :
  collect tag re content = Some l ->
  List.Forall (fun p => Str.startsWith (snd p) tag = true) l.
Proof.
  unfold collect. destruct (exec_all re content) as [hits|]; [|discriminate].
  simpl. intros [= <-]. apply List.Forall_forall. intros p Hp.
  apply in_map_iff in Hp. destruct Hp as (h & <- & _). apply prefix_append.
Qed.

(** Every symbol that [extractSymbols] returns starts with [fn:], [class:]
    or [method:]. *)
Lemma extractSymbols_tagged (content language : string) (symbols : list string) :
  extractSymbols content language = Some symbols ->
  List.Forall Indexer.tagged_symbol symbols.
Proof.
  assert (Hpair : forall tag1 tag2 re1 re2 l,
             (tag1 = "fn:" \/ tag1 = "class:" \/ tag1 = "method:") ->
             (tag2 = "fn:" \/ tag2 = "class:" \/ tag2 = "method:") ->
             (fns ← collect tag1 re1 content;
              cls ← collect tag2 re2 content; Some (fns ++ cls)) = Some l ->
             List.Forall Indexer.tagged_symbol (List.map snd l)).
  { intros tag1 tag2 re1 re2 l H1 H2.
    destruct (collect tag1 re1 content) as [l1|] eqn:E1; [|discriminate].
    destruct (collect tag2 re2 content) as [l2|] eqn:E2; [|discriminate].
    simpl. intros [= <-]. rewrite List.map_app. apply List.Forall_app. split.
    - apply collect_tags in E1. apply List.Forall_forall. intros x Hx.
      apply in_map_iff in Hx. destruct Hx as (q & <- & Hq).
      rewrite List.Forall_forall in E1. specialize (E1 q Hq).
      unfold Indexer.tagged_symbol. destruct H1 as [-> | [-> | ->]]; auto.
    - apply collect_tags in E2. apply List.Forall_forall. intros x Hx.
      apply in_map_iff in Hx. destruct Hx as (q & <- & Hq).
      rewrite List.Forall_forall in E2. specialize (E2 q Hq).
      unfold Indexer.tagged_symbol. destruct H2 as [-> | [-> | ->]]; auto. }
  unfold extractSymbols, extractSymbolsAt.
  repeat match goal with
         | |- context [if ?b then _ else _] => destruct b
         end.
  all: intros Hsome; apply fmap_Some in Hsome; destruct Hsome as (l & Hl & ->).
  all: try (eapply Hpair; [| |exact Hl]; auto).
  injection Hl as <-. constructor.
Qed.

End SymbolsFacts.

(** ** Ignore-file patterns *)
Module GlobFacts.
Import Glob.

(** The third [replace] rewrites the star that the second one produced. *)
Lemma double_star_source : regexPattern "**" = ".[^/]*".
Proof. reflexivity. Qed.

(** C2, on the code: [**] is compiled to one character followed by a run
    without a separator, so the pattern [**/foo] does not match the path
    [a/b/foo], which the translation of the specification matches. *)
Theorem matchesPattern_double_star :
  regexPattern "**/foo" = ".[^/]*/foo" /\
  matchesPattern fragment_regexp "a/b/foo" "**/foo" = false /\
  glob_matches "a/b/foo" "**/foo" = true /\
  matchesPattern fragment_regexp "a/foo" "**/foo" = true /\
  matchesPattern fragment_regexp "docs" "docs**" = false /\
  glob_matches "docs" "docs**" = true.
Proof. repeat split; vm_compute; reflexivity. Qed.

Import Regex.

Lemma replace_char_lacks (c : ascii) (rep s : string) :
  lacks c s = true -> Str.replace_char c rep s = s.
Proof.
  induction s as [|a s IH]; intros Hs; [reflexivity|].
  simpl in Hs. apply andb_prop in Hs. destruct Hs as [Ha Hs].
  simpl. apply negb_true_iff in Ha. rewrite Ha, IH by assumption. reflexivity.
Qed.

Lemma replace_star_star_lacks (rep s : string) :
  lacks "*" s = true -> Str.replace_star_star rep s = s.
Proof.
  induction s as [|a s IH]; intros Hs; [reflexivity|].
  simpl in Hs. apply andb_prop in Hs. destruct Hs as [Ha Hs].
  apply negb_true_iff in Ha. specialize (IH Hs).
  destruct s as [|b s]; [reflexivity|].
  change (Str.replace_star_star rep (String a (String b s)))
    with (if Str.eqb_ascii a "*" && Str.eqb_ascii b "*"
          then rep +:+ Str.replace_star_star rep s
          else String a (Str.replace_star_star rep (String b s))).
  rewrite Ha, IH. reflexivity.
Qed.

(** What is left of a literal character that is not the dot. *)
Lemma literal_char_plain (a : ascii) :
  literal_char a = true -> Str.eqb_ascii a "." = false ->
  syntax_char a = false.
Proof.
  unfold literal_char. intros Hlit Hdot. rewrite Hdot, orb_false_r in Hlit.
  now apply negb_true_iff in Hlit.
Qed.

Lemma syntax_char_not (a c : ascii) :
  syntax_char a = false -> syntax_char c = true -> Str.eqb_ascii a c = false.
Proof.
  intros Ha Hc. destruct (Str.eqb_ascii a c) eqn:Heq; [|reflexivity].
  apply Ascii.eqb_eq in Heq. congruence.
Qed.

Lemma lacks_cons (c a : ascii) (s : string) :
  lacks c (String a s) = negb (Str.eqb_ascii a c) && lacks c s.
Proof. reflexivity. Qed.

Lemma escape_dots_lacks (c : ascii) (pattern : string) :
  syntax_char c = true -> Str.eqb_ascii "." c = false -> Str.eqb_ascii "\" c = false ->
  literal pattern = true -> lacks c (escape_dots pattern) = true.
Proof.
  intros Hc Hdot Hback. induction pattern as [|a pattern IH]; intros Hlit; [reflexivity|].
  simpl in Hlit. apply andb_prop in Hlit. destruct Hlit as [Ha Hlit].
  specialize (IH Hlit). unfold escape_dots in *.
  change (Str.replace_char "." "\." (String a pattern))
    with (if Str.eqb_ascii a "." then "\." +:+ Str.replace_char "." "\." pattern
          else String a (Str.replace_char "." "\." pattern)).
  destruct (Str.eqb_ascii a ".") eqn:Ha_dot.
  - change ("\." +:+ ?s) with (String "\" (String "." s)).
    rewrite !lacks_cons, Hback, Hdot, IH. reflexivity.
  - rewrite lacks_cons, (syntax_char_not a c (literal_char_plain a Ha Ha_dot) Hc), IH.
    reflexivity.
Qed.

(** On a literal pattern the last three replacements find nothing. *)
Lemma regexPattern_literal (pattern : string) :
  literal pattern = true -> regexPattern pattern = escape_dots pattern.
Proof.
  intros Hlit. unfold regexPattern. fold (escape_dots pattern).
  rewrite replace_star_star_lacks, (replace_char_lacks "*"), (replace_char_lacks "?");
    try reflexivity; apply escape_dots_lacks; try reflexivity; exact Hlit.
Qed.

Lemma strip_dollar_append (s : string) : strip_dollar (s +:+ "$") = Some s.
Proof.
  induction s as [|a s IH]; [reflexivity|].
  change (String a s +:+ "$") with (String a (s +:+ "$")).
  change (strip_dollar (String a (s +:+ "$")))
    with (match s +:+ "$" with
          | EmptyString => if Str.eqb_ascii a "$" then Some EmptyString else None
          | _ => String a <$> strip_dollar (s +:+ "$")
          end).
  rewrite IH. destruct s; reflexivity.
Qed.

Lemma parse_escape_dots (pattern : string) :
  literal pattern = true -> parse (escape_dots pattern) = Some (lit pattern).
Proof.
  induction pattern as [|a pattern IH]; intros Hlit; [reflexivity|].
  simpl in Hlit. apply andb_prop in Hlit. destruct Hlit as [Ha Hlit].
  specialize (IH Hlit). unfold escape_dots in *. simpl Str.replace_char.
  destruct (Str.eqb_ascii a ".") eqn:Ha_dot.
  - apply Ascii.eqb_eq in Ha_dot. subst a.
    change ("\." +:+ ?s) with (String "\" (String "." s)).
    change (parse (String "\" (String "." ?s))) with (Cat (chr ".") <$> parse s).
    rewrite IH. reflexivity.
  - pose proof (literal_char_plain a Ha Ha_dot) as Hplain.
    change (parse (String a ?s))
      with (if Str.eqb_ascii a "\" then
              match s with
              | String "."%char rest' => Cat (chr ".") <$> parse rest'
              | _ => None
              end
            else if Str.eqb_ascii a "." then Cat dot <$> parse s
            else if Str.eqb_ascii a "[" then
              match s with
              | String "^"%char (String "/"%char (String "]"%char (String "*"%char rest'))) =>
                  Cat (Star not_slash) <$> parse rest'
              | _ => None
              end
            else if syntax_char a then None
            else Cat (chr a) <$> parse s).
    rewrite (syntax_char_not a "\" Hplain eq_refl), Ha_dot,
      (syntax_char_not a "[" Hplain eq_refl), Hplain, IH.
    reflexivity.
Qed.

Lemma chr_mem (c a : ascii) : cls_mem false [(c, c)] a = Ascii.eqb a c.
Proof.
  unfold cls_mem, in_range. simpl. rewrite orb_false_r.
  destruct (Ascii.eqb a c) eqn:Heq.
  - apply Ascii.eqb_eq in Heq. subst a. rewrite Nat.leb_refl. reflexivity.
  - apply andb_false_iff.
    destruct (Nat.leb_spec (nat_of_ascii c) (nat_of_ascii a)) as [Hle|Hlt]; [right|now left].
    apply Nat.leb_gt. apply Ascii.eqb_neq in Heq.
    assert (nat_of_ascii a <> nat_of_ascii c); [|lia].
    intros Hn. apply Heq. rewrite <- (ascii_nat_embedding a), Hn.
    apply ascii_nat_embedding.
Qed.

(** A chain of single characters matches the whole of one input: itself. *)
Lemma run_lit (p : string) : forall (s : string) (cap : option string),
  existsb (fun res => bool_decide (fst res = "")) (run (lit p) s cap)
  = bool_decide (s = p).
Proof.
  induction p as [|c p IH]; intros s cap.
  - simpl. rewrite orb_false_r. reflexivity.
  - change (run (lit (String c p)) s cap)
      with (flat_map (fun res => run (lit p) (fst res) (snd res)) (run (chr c) s cap)).
    destruct s as [|a s].
    + reflexivity.
    + change (run (chr c) (String a s) cap)
        with (if cls_mem false [(c, c)] a then [(s, cap)] else []).
      rewrite chr_mem. destruct (Ascii.eqb a c) eqn:Heq.
      * apply Ascii.eqb_eq in Heq. subst a. simpl. rewrite app_nil_r, IH.
        apply bool_decide_ext. split; [intros ->; reflexivity|intros [= ->]; reflexivity].
      * simpl. symmetry. apply bool_decide_eq_false_2. intros [= -> _].
        rewrite Ascii.eqb_refl in Heq. discriminate.
Qed.

(** [matchesPattern] on a literal pattern. *)
Lemma literal_pattern_matches_itself (path pattern : string) :
  literal pattern = true ->
  matchesPattern fragment_regexp path pattern = bool_decide (path = pattern).
Proof.
  intros Hlit. unfold matchesPattern. rewrite regexPattern_literal by exact Hlit.
  change ("^" +:+ escape_dots pattern +:+ "$")
    with (String "^" (escape_dots pattern +:+ "$")).
  unfold fragment_regexp. rewrite strip_dollar_append. simpl.
  rewrite parse_escape_dots by exact Hlit. simpl.
  apply run_lit.
Qed.

(** X25. A pattern made of characters that are neither wildcards nor
    other regular-expression syntax, dots allowed, is translated by
    escaping its dots only, and it matches one path: the pattern itself.
    A dot in it stands for a dot, not for any character. *)
Theorem matchesPattern_literal (path pattern : string) :
  literal pattern = true ->
  regexPattern pattern = Str.replace_char "." "\." pattern /\
  (matchesPattern fragment_regexp path pattern = true <-> path = pattern).
Proof.
  intros Hlit. split; [apply regexPattern_literal, Hlit|].
  rewrite literal_pattern_matches_itself by exact Hlit. apply bool_decide_eq_true.
Qed.

Lemma matchesPattern_literal_witness :
  regexPattern "dist/app.min.js" = Str.replace_char "." "\." "dist/app.min.js" /\
  (matchesPattern fragment_regexp "dist/app-min.js" "dist/app.min.js" = true
   <-> "dist/app-min.js" = "dist/app.min.js").
Proof.
  apply (matchesPattern_literal "dist/app-min.js" "dist/app.min.js"). reflexivity.
Defined.

End GlobFacts.

(** ** Computations *)
Module JsFacts.
Import Js.

Lemma for_of_invariant {S A} (P : S -> Prop) (body : A -> M S unit) (xs : list A) :
  List.Forall (fun x => forall s, P s -> exists s', body x s = Normal tt s' /\ P s') xs ->
  forall s, P s -> exists s', for_of body xs s = Normal tt s' /\ P s'.
Proof.
  induction 1 as [|x xs Hx _ IH]; intros s Hs; simpl.
  - exists s. split; [reflexivity|exact Hs].
  - unfold bind. destruct (Hx s Hs) as (s1 & -> & Hs1). apply IH, Hs1.
Qed.

End JsFacts.

(** ** The indexer core *)
Module IndexerFacts.
Import Indexer.

(** Induction over a tree, with the hypothesis for every entry of a
    directory. *)
Lemma node_induction (P : Fs.node -> Prop) :
  (forall name stats data, P (Fs.File name stats data)) ->
  (forall name listable entries, List.Forall P entries -> P (Fs.Dir name listable entries)) ->
  (forall name, P (Fs.Other name)) ->
  forall n, P n.
Proof.
  intros HF HD HO. fix IH 1. intros [name stats data|name listable entries|name].
  - apply HF.
  - apply HD. induction entries as [|entry rest IHrest]; constructor.
    + apply IH.
    + exact IHrest.
  - apply HO.
Qed.

Section Host.

Variable regexp : string -> option (string -> bool).
Variable dateNow : nat -> N.
Variable random36 : nat -> string.

Local Abbreviation state := Indexer.state.
Local Abbreviation indexFile := (Indexer.indexFile dateNow random36).
Local Abbreviation scanDirectory := (Indexer.scanDirectory regexp dateNow random36).
Local Abbreviation scanPath := (Indexer.scanPath regexp dateNow random36).
Local Abbreviation indexWorkspace := (Indexer.indexWorkspace regexp dateNow random36).
Local Abbreviation drawn_id := (Indexer.drawn_id dateNow random36).
Local Abbreviation walk_invariant := (Indexer.walk_invariant dateNow random36).
Local Abbreviation started := (Indexer.started dateNow).

(** A file above the ceiling leaves the whole state as it was. *)
Lemma indexFile_oversize (progress : bool) (name : string) (stats : Fs.Stats)
    (data : option string) (fullPath relativePath : string) (st : state) :
  (maxFileSize < Fs.size stats)%N ->
  indexFile progress (Fs.File name (Some stats) data) fullPath relativePath st
  = Js.Normal tt st.
Proof.
  intros Hbig. unfold Indexer.indexFile, Js.try_catch, Js.bind. simpl.
  apply N.ltb_lt in Hbig. rewrite Hbig. reflexivity.
Qed.

(** [indexFile], with its handlers resolved. *)
Lemma indexFile_unfold (progress : bool) (file : Fs.node)
    (fullPath relativePath : string) (st : state) :
  indexFile progress file fullPath relativePath st =
  match Fs.stat (Some file) with
  | inl _ => Js.Normal tt st
  | inr stats =>
      if (maxFileSize <? Fs.size stats)%N then Js.Normal tt st
      else
        match getLanguageFromPath fullPath with
        | None => Js.Normal tt st
        | Some language =>
            let content :=
              match Fs.readFile (Some file) with inl _ => "" | inr text => text end in
            match Symbols.extractSymbols content language with
            | None => Js.Diverges
            | Some symbols =>
                Js.Normal tt
                  (after_file progress
                     (CodeFile.mk (drawn_id (draws st)) fullPath relativePath language
                                  content (Fs.size stats) (Some (Fs.mtimeMs stats))
                                  (simpleHash content) (Some symbols))
                     symbols relativePath st)
            end
        end
  end.
Proof.
  unfold Indexer.indexFile, Js.try_catch, Js.bind, Js.lift.
  generalize (Fs.readFile (Some file)) as read.
  generalize (Fs.stat (Some file)) as stat.
  intros [e|stats] read; simpl; [reflexivity|].
  destruct (maxFileSize <? Fs.size stats)%N; [reflexivity|].
  destruct (getLanguageFromPath fullPath) as [language|]; [|reflexivity].
  destruct read as [e|text]; simpl.
  all: destruct (Symbols.extractSymbols _ language) as [symbols|]; simpl; [|reflexivity].
  all: unfold after_file, update_summary, report, Js.bind, Js.get, Js.modify, Js.throw,
         Js.ret; simpl.
  all: destruct st as [ix pats d rep]; simpl.
  all: destruct ix as [rp fs ts fc li lg [sm|]]; simpl; [destruct progress|]; reflexivity.
Qed.

(** [indexFile] returns, and either changes nothing or appends one file
    that is within the ceiling and bears the id just drawn. *)
Lemma indexFile_cases (progress : bool) (file : Fs.node)
    (fullPath relativePath : string) (st : state) :
  indexFile progress file fullPath relativePath st = Js.Normal tt st \/
  exists (cf : CodeFile.t) (symbols : list string),
    CodeFile.id cf = drawn_id (draws st) /\
    (CodeFile.size cf <= maxFileSize)%N /\
    CodeFile.path cf = fullPath /\
    indexFile progress file fullPath relativePath st
    = Js.Normal tt (after_file progress cf symbols relativePath st).
Proof.
  rewrite indexFile_unfold.
  destruct (Fs.stat (Some file)) as [e|stats]; [now left|].
  destruct (N.ltb_spec maxFileSize (Fs.size stats)) as [Hbig|Hfit]; [now left|].
  destruct (getLanguageFromPath fullPath) as [language|]; [|now left].
  right. cbv zeta.
  destruct (SymbolsFacts.extractSymbols_total
              match Fs.readFile (Some file) with inl _ => "" | inr text => text end
              language) as [symbols ->].
  eexists (CodeFile.mk _ _ _ _ _ _ _ _ _), symbols.
  split; [|split; [|split]]; [| |reflexivity|]; [reflexivity|exact Hfit|reflexivity].
Qed.

Lemma indexFile_invariant (P : state -> Prop) (HP : walk_invariant P)
    (progress : bool) (file : Fs.node) (fullPath relativePath : string) (st : state) :
  P st ->
  exists st', indexFile progress file fullPath relativePath st = Js.Normal tt st' /\ P st'.
Proof.
  intros Hst.
  destruct (indexFile_cases progress file fullPath relativePath st)
    as [->|(cf & symbols & Hid & Hsize & _ & ->)]; eexists; split; try reflexivity.
  - exact Hst.
  - apply HP; assumption.
Qed.

Lemma scanDirectory_invariant (P : state -> Prop) (HP : walk_invariant P)
    (progress : bool) (dir : Fs.node) :
  forall (dirPath dirRelative : string) (st : state),
    P st ->
    exists st', scanDirectory progress dir dirPath dirRelative st = Js.Normal tt st' /\ P st'.
Proof.
  induction dir as [name stats data|name listable entries IH|name] using node_induction;
    intros dirPath dirRelative st Hst.
  - exists st. split; [reflexivity|exact Hst].
  - destruct listable; [|exists st; split; [reflexivity|exact Hst]].
    simpl. unfold Js.try_catch.
    match goal with
    | |- context [Js.for_of ?body entries st] =>
        destruct (JsFacts.for_of_invariant P body entries) with (s := st)
        as (st' & -> & Hst')
    end; [|exact Hst|exists st'; split; [reflexivity|exact Hst']].
    eapply List.Forall_impl; [|exact IH].
    intros entry Hentry s Hs. unfold Js.bind, Js.get.
    destruct (shouldIgnore _ _ _ _ _); [exists s; split; [reflexivity|exact Hs]|].
    destruct entry as [nm stats data|nm listable entries'|nm].
    + apply indexFile_invariant; assumption.
    + apply Hentry, Hs.
    + exists s. split; [reflexivity|exact Hs].
  - exists st. split; [reflexivity|exact Hst].
Qed.

Lemma scanPath_invariant (P : state -> Prop) (HP : walk_invariant P)
    (progress : bool) (root : option Fs.node) (dirPath : string) (st : state) :
  P st ->
  exists st', scanPath progress root dirPath st = Js.Normal tt st' /\ P st'.
Proof.
  intros Hst. destruct root as [dir|]; simpl.
  - apply scanDirectory_invariant; assumption.
  - exists st. split; [reflexivity|exact Hst].
Qed.

Lemma loadGitignore_invariant (P : state -> Prop) (HP : walk_invariant P)
    (root : option Fs.node) (st : state) :
  P st -> exists st', loadGitignore root st = Js.Normal tt st' /\ P st'.
Proof.
  intros Hst. unfold loadGitignore, Js.try_catch.
  destruct (Fs.existsSync _); [|exists st; split; [reflexivity|exact Hst]].
  unfold Js.bind, Js.lift.
  destruct (Fs.readFile _) as [e|content]; simpl.
  - exists st. split; [reflexivity|exact Hst].
  - eexists. split; [reflexivity|]. apply HP, Hst.
Qed.

(** [indexWorkspace] returns the index it built, and what the walk keeps
    true of the state is true at its end. *)
Lemma indexWorkspace_invariant (P : state -> Prop) (HP : walk_invariant P)
    (root : option Fs.node) (workspacePath : string) (progress : bool) (st : state) :
  P (started workspacePath st) ->
  exists st', indexWorkspace root workspacePath progress st = Js.Normal (index st') st' /\ P st'.
Proof.
  intros Hst. unfold Indexer.indexWorkspace.
  unfold Js.bind at 1. unfold draw at 1. unfold Js.bind at 1. unfold Js.modify at 1.
  change (set_index _ _) with (started workspacePath st).
  unfold Js.try_catch, Js.bind.
  destruct (loadGitignore_invariant P HP root _ Hst) as (st1 & -> & Hst1).
  destruct (scanPath_invariant P HP progress root workspacePath _ Hst1) as (st2 & -> & Hst2).
  exists st2. split; [reflexivity|exact Hst2].
Qed.

Lemma loadGitignore_patterns (root : option Fs.node) (st : state) :
  exists patterns, loadGitignore root st = Js.Normal tt (set_patterns patterns st).
Proof.
  unfold loadGitignore, Js.try_catch.
  destruct (Fs.existsSync _); [|exists (gitignorePatterns st); now destruct st].
  unfold Js.bind, Js.lift.
  destruct (Fs.readFile _) as [e|content]; simpl.
  - exists (gitignorePatterns st). now destruct st.
  - eexists. reflexivity.
Qed.

Lemma scanPath_unlistable (progress : bool) (root : option Fs.node)
    (dirPath e : string) (st : state) :
  Fs.readdir root = inl e -> scanPath progress root dirPath st = Js.Normal tt st.
Proof.
  destruct root as [[name stats data|name [|] entries|name]|]; simpl;
    intros Hread; try discriminate; reflexivity.
Qed.

(** C1, on the code: when the listing of the root fails, [indexWorkspace]
    does not throw; it returns the index it started from, with no file
    and a file count of zero. *)
Theorem indexWorkspace_unlistable_root
    (root : option Fs.node) (workspacePath e : string) (progress : bool) (st : state) :
  Fs.readdir root = inl e ->
  exists st',
    indexWorkspace root workspacePath progress st
    = Js.Normal (emptyIndex workspacePath (dateNow (draws st))) st' /\
    CodebaseIndex.files (index st') = [] /\
    CodebaseIndex.fileCount (index st') = 0.
Proof.
  intros Hread. unfold Indexer.indexWorkspace.
  unfold Js.bind at 1. unfold draw at 1. unfold Js.bind at 1. unfold Js.modify at 1.
  change (set_index _ _) with (started workspacePath st).
  unfold Js.try_catch, Js.bind.
  destruct (loadGitignore_patterns root (started workspacePath st)) as [patterns ->].
  rewrite (scanPath_unlistable progress root workspacePath e _ Hread).
  eexists. split; [reflexivity|]. split; reflexivity.
Qed.

End Host.

Lemma histogram_total_empty : histogram_total ∅ = 0.
Proof. apply map_fold_empty. Qed.

Lemma histogram_total_increment (languages : gmap string nat) (language : string) :
  histogram_total (<[language := default 0 (languages !! language) + 1]> languages)
  = S (histogram_total languages).
Proof.
  unfold histogram_total.
  destruct (languages !! language) as [count|] eqn:Hlookup; simpl.
  - rewrite <- insert_delete_eq.
    rewrite map_fold_insert_L; [|intros; lia|apply lookup_delete_eq].
    rewrite (map_fold_delete_L _ _ language count languages); [lia|intros; lia|exact Hlookup].
  - rewrite map_fold_insert_L; [lia|intros; lia|exact Hlookup].
Qed.

Section Claims.

Variable regexp : string -> option (string -> bool).
Variable dateNow : nat -> N.
Variable random36 : nat -> string.

Local Abbreviation state := Indexer.state.
Local Abbreviation indexFile := (Indexer.indexFile dateNow random36).
Local Abbreviation scanDirectory := (Indexer.scanDirectory regexp dateNow random36).
Local Abbreviation scanPath := (Indexer.scanPath regexp dateNow random36).
Local Abbreviation indexWorkspace := (Indexer.indexWorkspace regexp dateNow random36).
Local Abbreviation after_file := (Indexer.after_file).
Local Abbreviation walk_invariant := (Indexer.walk_invariant dateNow random36).

Lemma prune_name (n : Fs.node) : Fs.name (prune n) = Fs.name n.
Proof. destruct n; reflexivity. Qed.

Lemma prune_isDirectory (n : Fs.node) : Fs.isDirectory (prune n) = Fs.isDirectory n.
Proof. destruct n; reflexivity. Qed.

(** Walking the pruned tree is walking the tree. *)
Lemma scanDirectory_prune (progress : bool) (dir : Fs.node) :
  forall (dirPath dirRelative : string) (st : state),
    scanDirectory progress (prune dir) dirPath dirRelative st
    = scanDirectory progress dir dirPath dirRelative st.
Proof.
  induction dir as [name stats data|name listable entries IH|name] using node_induction;
    intros dirPath dirRelative st; try reflexivity.
  destruct listable; [|reflexivity].
  simpl. unfold Js.try_catch.
  match goal with
  | |- context [Js.for_of ?b entries st] => set (body := b)
  end.
  assert (Hloop : forall s, Js.for_of body (keep_fitting prune entries) s
                            = Js.for_of body entries s).
  { induction IH as [|entry rest Hentry _ IHrest]; intros s; [reflexivity|].
    simpl. destruct (oversize entry) eqn:Hover.
    - assert (Hskip : body entry s = Js.Normal tt s).
      { subst body. cbv beta. unfold Js.bind, Js.get.
        destruct (shouldIgnore _ _ _ _ _); [reflexivity|].
        destruct entry as [nm [stats|] data|nm listable entries'|nm]; try discriminate.
        simpl in Hover. apply N.ltb_lt in Hover.
        apply indexFile_oversize, Hover. }
      rewrite IHrest. unfold Js.bind. rewrite Hskip. reflexivity.
    - assert (Hsame : body (prune entry) s = body entry s).
      { subst body. cbv beta. unfold Js.bind, Js.get.
        rewrite prune_name, prune_isDirectory.
        destruct (shouldIgnore _ _ _ _ _); [reflexivity|].
        destruct entry as [nm stats data|nm listable entries'|nm]; try reflexivity.
        apply Hentry. }
      simpl. unfold Js.bind. rewrite Hsame.
      destruct (body entry s); try reflexivity. apply IHrest. }
  rewrite Hloop. reflexivity.
Qed.

Lemma after_file_index (progress : bool) (file : CodeFile.t) (symbols : list string)
    (relativePath : string) (st : state) :
  CodebaseIndex.files (index (after_file progress file symbols relativePath st))
  = CodebaseIndex.files (index st) ++ [file] /\
  CodebaseIndex.fileCount (index (after_file progress file symbols relativePath st))
  = S (CodebaseIndex.fileCount (index st)) /\
  CodebaseIndex.totalSize (index (after_file progress file symbols relativePath st))
  = (CodebaseIndex.totalSize (index st) + CodeFile.size file)%N /\
  CodebaseIndex.languages (index (after_file progress file symbols relativePath st))
  = <[CodeFile.language file :=
        default 0 (CodebaseIndex.languages (index st) !! CodeFile.language file) + 1]>
      (CodebaseIndex.languages (index st)) /\
  draws (after_file progress file symbols relativePath st) = S (draws st).
Proof.
  unfold Indexer.after_file.
  destruct (CodebaseIndex.summary (index st)); simpl; repeat split; reflexivity.
Qed.

Lemma all_fit_invariant : walk_invariant all_fit.
Proof.
  split.
  - intros progress file symbols relativePath st Hst _ Hsize. unfold all_fit.
    destruct (after_file_index progress file symbols relativePath st) as (-> & _).
    apply List.Forall_app. split; [exact Hst|]. constructor; [exact Hsize|constructor].
  - intros patterns st Hst. exact Hst.
Qed.

Lemma counted_invariant : walk_invariant counted.
Proof.
  split.
  - intros progress file symbols relativePath st [Hsum Hlen] _ _. unfold counted.
    destruct (after_file_index progress file symbols relativePath st)
      as (-> & -> & _ & -> & _).
    rewrite histogram_total_increment, List.length_app. simpl. lia.
  - intros patterns st Hst. exact Hst.
Qed.

(** C7. A file whose [stat] size is above 500 KiB, 512000 bytes, is
    skipped by [indexFile] with the state left untouched (so nothing is
    added to the files, the total size, the file count, the histogram or
    the summary); walking a tree gives the same result as walking it with
    every such file deleted; and every file of the index that
    [indexWorkspace] returns has a size within the ceiling. *)
Theorem oversize_files_excluded
    (root : option Fs.node) (workspacePath : string) (progress : bool) (st : state) :
  maxFileSize = 512000%N /\
  (forall name stats data fullPath relativePath st0,
     (maxFileSize < Fs.size stats)%N ->
     indexFile progress (Fs.File name (Some stats) data) fullPath relativePath st0
     = Js.Normal tt st0) /\
  (forall st0, scanPath progress (prune <$> root) workspacePath st0
               = scanPath progress root workspacePath st0) /\
  (exists st',
     indexWorkspace root workspacePath progress st = Js.Normal (index st') st' /\
     List.Forall (fun f => (CodeFile.size f <= 512000)%N)
                 (CodebaseIndex.files (index st'))).
Proof.
  split; [reflexivity|]. split; [|split].
  - intros name stats data fullPath relativePath st0 Hbig.
    apply indexFile_oversize, Hbig.
  - intros st0. destruct root as [dir|]; [|reflexivity].
    simpl. apply scanDirectory_prune.
  - apply (indexWorkspace_invariant regexp dateNow random36 all_fit all_fit_invariant).
    constructor.
Qed.

(** C8. [indexWorkspace] returns an index whose histogram values add up
    to its file count (which is also the number of its files); appending
    a file raises the file count by one and the count of the file's
    language by one, leaving every other language's count as it was, and
    so keeps the sum equal to the file count at each step of the walk. *)
Theorem languages_sum_to_fileCount
    (root : option Fs.node) (workspacePath : string) (progress : bool) (st : state) :
  (exists st',
     indexWorkspace root workspacePath progress st = Js.Normal (index st') st' /\
     histogram_total (CodebaseIndex.languages (index st'))
     = CodebaseIndex.fileCount (index st') /\
     List.length (CodebaseIndex.files (index st')) = CodebaseIndex.fileCount (index st')) /\
  (forall (file : CodeFile.t) (ix : CodebaseIndex.t),
     CodebaseIndex.fileCount (push_file file ix) = S (CodebaseIndex.fileCount ix) /\
     CodebaseIndex.languages (push_file file ix) !! CodeFile.language file
     = Some (default 0 (CodebaseIndex.languages ix !! CodeFile.language file) + 1) /\
     (forall other, other <> CodeFile.language file ->
        CodebaseIndex.languages (push_file file ix) !! other
        = CodebaseIndex.languages ix !! other) /\
     histogram_total (CodebaseIndex.languages (push_file file ix))
     = S (histogram_total (CodebaseIndex.languages ix))) /\
  (forall progress0 file symbols relativePath st0,
     histogram_total (CodebaseIndex.languages (index st0))
     = CodebaseIndex.fileCount (index st0) ->
     histogram_total
       (CodebaseIndex.languages (index (after_file progress0 file symbols relativePath st0)))
     = CodebaseIndex.fileCount (index (after_file progress0 file symbols relativePath st0))).
Proof.
  split; [|split].
  - apply (indexWorkspace_invariant regexp dateNow random36 counted counted_invariant).
    split; [apply histogram_total_empty|reflexivity].
  - intros file ix. simpl. split; [reflexivity|]. split; [apply lookup_insert_eq|].
    split; [|apply histogram_total_increment].
    intros other Hother. apply lookup_insert_ne. congruence.
  - intros progress0 file symbols relativePath st0 Hsum.
    destruct (after_file_index progress0 file symbols relativePath st0)
      as (_ & -> & _ & -> & _).
    rewrite histogram_total_increment, Hsum. reflexivity.
Qed.

Lemma ids_drawn_invariant : walk_invariant (ids_drawn dateNow random36).
Proof.
  split.
  - intros progress file symbols relativePath st (ks & Hids & Hnodup & Hlt) Hid _.
    destruct (after_file_index progress file symbols relativePath st)
      as (Hfiles & _ & _ & _ & Hdraws).
    exists (ks ++ [draws st]). unfold ids_drawn. rewrite Hfiles, Hdraws.
    rewrite !List.map_app, Hids. simpl. rewrite Hid. split; [reflexivity|]. split.
    + apply NoDup_ListNoDup, NoDup_app. split; [apply NoDup_ListNoDup, Hnodup|].
      split; [|apply NoDup_singleton].
      intros k Hk Hk'. apply list_elem_of_singleton in Hk'. subst k.
      rewrite List.Forall_forall in Hlt. apply list_elem_of_In, Hlt in Hk. lia.
    + apply List.Forall_app. split.
      * eapply List.Forall_impl; [|exact Hlt]. simpl. intros; lia.
      * constructor; [lia|constructor].
  - intros patterns st Hst. exact Hst.
Qed.

(** When the host never hands out the same id twice, the files of the
    index that [indexWorkspace] returns have distinct ids. *)
Lemma indexWorkspace_ids_distinct
    (root : option Fs.node) (workspacePath : string) (progress : bool)
    (st st' : state) (ix : CodebaseIndex.t) :
  (forall i j, Indexer.drawn_id dateNow random36 i = Indexer.drawn_id dateNow random36 j
               -> i = j) ->
  indexWorkspace root workspacePath progress st = Js.Normal ix st' ->
  List.NoDup (List.map CodeFile.id (CodebaseIndex.files ix)).
Proof.
  intros Hinj Hrun.
  destruct (indexWorkspace_invariant regexp dateNow random36 _ ids_drawn_invariant
              root workspacePath progress st) as (st1 & Hrun1 & ks & Hids & Hnodup & _).
  { exists []. repeat split; constructor. }
  rewrite Hrun in Hrun1. injection Hrun1 as -> ->.
  rewrite Hids. apply NoDup_ListNoDup.
  assert (Hinj' : Inj (=) (=) (Indexer.drawn_id dateNow random36))
    by (intros i j; apply Hinj).
  apply (NoDup_fmap_2 _), NoDup_ListNoDup, Hnodup.
Qed.

End Claims.

Lemma indexWorkspace_unlistable_root_witness :
  Fs.readdir None = inl "ENOENT" /\
  exists st',
    Indexer.indexWorkspace Examples.regexp Examples.dateNow Examples.random36
                           None "/missing" false Examples.fresh
    = Js.Normal (emptyIndex "/missing" 1000) st' /\
    CodebaseIndex.files (index st') = [] /\
    CodebaseIndex.fileCount (index st') = 0.
Proof.
  split; [reflexivity|].
  apply (indexWorkspace_unlistable_root Examples.regexp Examples.dateNow
           Examples.random36 None "/missing" "ENOENT" false Examples.fresh).
  reflexivity.
Defined.

Lemma oversize_files_excluded_witness :
  (maxFileSize < Fs.size (Fs.mkStats 614400 7))%N /\
  Indexer.indexFile Examples.dateNow Examples.random36 false
    (Fs.File "big.txt" (Some (Fs.mkStats 614400 7)) (Some "")) "/ws/big.txt" "big.txt"
    Examples.fresh
  = Js.Normal tt Examples.fresh.
Proof.
  split; [reflexivity|].
  destruct (oversize_files_excluded Examples.regexp Examples.dateNow Examples.random36
              (Some Examples.workspace) "/ws" false Examples.fresh) as (_ & Hskip & _).
  apply Hskip. reflexivity.
Defined.

Lemma languages_sum_to_fileCount_witness :
  histogram_total (CodebaseIndex.languages (index Examples.fresh))
  = CodebaseIndex.fileCount (index Examples.fresh) /\
  forall file : CodeFile.t,
    histogram_total
      (CodebaseIndex.languages
         (index (Indexer.after_file false file [] "a.py" Examples.fresh)))
    = CodebaseIndex.fileCount
        (index (Indexer.after_file false file [] "a.py" Examples.fresh)).
Proof.
  split; [reflexivity|]. intros file.
  destruct (languages_sum_to_fileCount Examples.regexp Examples.dateNow
              Examples.random36 (Some Examples.workspace) "/ws" false Examples.fresh)
    as (_ & _ & Hstep).
  apply Hstep. reflexivity.
Defined.

(** *** More on the walk: what every indexed file satisfies *)
Section Walk.

Variable regexp : string -> option (string -> bool).
Variable dateNow : nat -> N.
Variable random36 : nat -> string.

Local Abbreviation state := Indexer.state.
Local Abbreviation indexFile := (Indexer.indexFile dateNow random36).
Local Abbreviation scanDirectory := (Indexer.scanDirectory regexp dateNow random36).
Local Abbreviation scanPath := (Indexer.scanPath regexp dateNow random36).
Local Abbreviation indexWorkspace := (Indexer.indexWorkspace regexp dateNow random36).
Local Abbreviation admitted := (Indexer.admitted regexp dateNow random36).
Local Abbreviation append_invariant := (Indexer.append_invariant regexp dateNow random36).
Local Abbreviation started := (Indexer.started dateNow).

Lemma after_file_patterns (progress : bool) (file : CodeFile.t) (symbols : list string)
    (relativePath : string) (st : state) :
  gitignorePatterns (after_file progress file symbols relativePath st)
  = gitignorePatterns st.
Proof.
  unfold after_file. destruct (CodebaseIndex.summary (index st)); reflexivity.
Qed.

(** [indexFile] called for a path that [shouldIgnore] let through either
    changes nothing or appends a file with all that [admitted] lists. *)
Lemma indexFile_appends (progress : bool) (file : Fs.node)
    (fullPath relativePath fileName : string) (isDir : bool) (st : state) :
  shouldIgnore regexp (gitignorePatterns st) fileName relativePath isDir = false ->
  indexFile progress file fullPath relativePath st = Js.Normal tt st \/
  exists (cf : CodeFile.t) (symbols : list string),
    admitted st cf symbols relativePath /\
    indexFile progress file fullPath relativePath st
    = Js.Normal tt (after_file progress cf symbols relativePath st).
Proof.
  intros Hlet. rewrite indexFile_unfold.
  destruct (Fs.stat (Some file)) as [e|stats]; [now left|].
  destruct (N.ltb_spec maxFileSize (Fs.size stats)) as [Hbig|Hfit]; [now left|].
  destruct (getLanguageFromPath fullPath) as [language|] eqn:Hlang; [|now left].
  right. cbv zeta.
  destruct (SymbolsFacts.extractSymbols_total
              match Fs.readFile (Some file) with inl _ => "" | inr text => text end
              language) as [symbols Hsym].
  rewrite Hsym.
  eexists (CodeFile.mk _ _ _ _ _ _ _ _ _), symbols.
  split; [|reflexivity].
  unfold Indexer.admitted. simpl.
  repeat split; try reflexivity; try assumption.
  - eexists; reflexivity.
  - exists fileName, isDir. exact Hlet.
Qed.

Lemma scanDirectory_appends (P : state -> Prop) (progress : bool)
    (HP : append_invariant progress P) (dir : Fs.node) :
  forall (dirPath dirRelative : string) (st : state),
    P st ->
    exists st', scanDirectory progress dir dirPath dirRelative st = Js.Normal tt st' /\
                P st' /\ gitignorePatterns st' = gitignorePatterns st.
Proof.
  induction dir as [name stats data|name listable entries IH|name] using node_induction;
    intros dirPath dirRelative st Hst.
  - exists st. repeat split; try reflexivity; exact Hst.
  - destruct listable; [|exists st; repeat split; try reflexivity; exact Hst].
    simpl. unfold Js.try_catch.
    match goal with
    | |- context [Js.for_of ?body entries st] =>
        destruct (JsFacts.for_of_invariant
                    (fun s => P s /\ gitignorePatterns s = gitignorePatterns st)
                    body entries) with (s := st) as (st' & -> & Hst' & Hpat)
    end; [|split; [exact Hst|reflexivity]
          |exists st'; repeat split; [exact Hst'|exact Hpat]].
    eapply List.Forall_impl; [|exact IH].
    intros entry Hentry s [Hs Hpat]. unfold Js.bind, Js.get.
    destruct (shouldIgnore _ _ _ _ _) eqn:Hlet;
      [exists s; split; [reflexivity|split; [exact Hs|exact Hpat]]|].
    destruct entry as [nm stats data|nm listable entries'|nm];
      cbn [Fs.isDirectory Fs.isFile Fs.name].
    + destruct (indexFile_appends progress (Fs.File nm stats data)
                  (Str.join dirPath nm) (relative dirRelative nm) nm false s Hlet)
        as [->|(cf & symbols & Hadm & ->)]; eexists; (split; [reflexivity|]).
      * split; [exact Hs|exact Hpat].
      * split; [apply HP; assumption|]. now rewrite after_file_patterns.
    + destruct (Hentry (Str.join dirPath nm) (relative dirRelative nm) s Hs)
        as (s' & -> & Hs' & Hpat').
      exists s'. split; [reflexivity|]. split; [exact Hs'|congruence].
    + exists s. split; [reflexivity|]. split; [exact Hs|exact Hpat].
  - exists st. repeat split; try reflexivity; exact Hst.
Qed.

Lemma scanPath_appends (P : state -> Prop) (progress : bool)
    (HP : append_invariant progress P) (root : option Fs.node)
    (dirPath : string) (st : state) :
  P st ->
  exists st', scanPath progress root dirPath st = Js.Normal tt st' /\
              P st' /\ gitignorePatterns st' = gitignorePatterns st.
Proof.
  intros Hst. destruct root as [dir|]; simpl.
  - apply scanDirectory_appends; assumption.
  - exists st. repeat split; try reflexivity; exact Hst.
Qed.

(** [indexWorkspace], split into its three stages. *)
Lemma indexWorkspace_stages (P : state -> Prop) (progress : bool)
    (HP : append_invariant progress P)
    (root : option Fs.node) (workspacePath : string) (st : state) :
  (forall patterns, P (set_patterns patterns (started workspacePath st))) ->
  exists patterns st',
    loadGitignore root (started workspacePath st)
    = Js.Normal tt (set_patterns patterns (started workspacePath st)) /\
    indexWorkspace root workspacePath progress st = Js.Normal (index st') st' /\
    P st' /\ gitignorePatterns st' = patterns.
Proof.
  intros Hstart. unfold Indexer.indexWorkspace.
  unfold Js.bind at 1. unfold draw at 1. unfold Js.bind at 1. unfold Js.modify at 1.
  change (set_index _ _) with (started workspacePath st).
  unfold Js.try_catch, Js.bind.
  destruct (loadGitignore_patterns root (started workspacePath st)) as [patterns Hload].
  rewrite Hload.
  destruct (scanPath_appends P progress HP root workspacePath _ (Hstart patterns))
    as (st' & -> & Hst' & Hpat).
  exists patterns, st'. repeat split; [exact Hst'|exact Hpat].
Qed.

Lemma shouldIgnore_false (patterns : list string) (fileName relativePath : string)
    (isDir : bool) :
  shouldIgnore regexp patterns fileName relativePath isDir = false ->
  denied fileName relativePath = false /\
  existsb (Glob.matchesPattern regexp (Str.replace_char "\" "/" relativePath)) patterns
  = false.
Proof.
  unfold shouldIgnore, denied.
  destruct (Str.includes commonIgnoreFiles fileName); [discriminate|].
  destruct (existsb (Str.includes commonIgnorePaths) _); [discriminate|].
  simpl. auto.
Qed.

(** X1. In the index that [indexWorkspace] returns, no file has a path
    segment on the deny list of directory and artifact names, at any
    depth, and none matches a pattern of the ignore file loaded for the
    walk. *)
Theorem denied_paths_never_indexed
    (root : option Fs.node) (workspacePath : string) (progress : bool) (st : state) :
  exists st',
    indexWorkspace root workspacePath progress st = Js.Normal (index st') st' /\
    List.Forall
      (fun f =>
         existsb (Str.includes commonIgnorePaths)
                 (Str.split "/" (Str.replace_char "\" "/" (CodeFile.relativePath f)))
         = false /\
         existsb (Glob.matchesPattern regexp
                    (Str.replace_char "\" "/" (CodeFile.relativePath f)))
                 (gitignorePatterns st') = false)
      (CodebaseIndex.files (index st')).
Proof.
  set (P := fun s : state =>
         List.Forall
           (fun f =>
              existsb (Str.includes commonIgnorePaths)
                      (Str.split "/" (Str.replace_char "\" "/" (CodeFile.relativePath f)))
              = false /\
              existsb (Glob.matchesPattern regexp
                         (Str.replace_char "\" "/" (CodeFile.relativePath f)))
                      (gitignorePatterns s) = false)
           (CodebaseIndex.files (index s))).
  destruct (indexWorkspace_stages P progress) with
    (root := root) (workspacePath := workspacePath) (st := st)
    as (patterns & st' & _ & Hrun & Hst' & _).
  - intros file symbols relativePath s Hs Hadm. unfold P.
    rewrite after_file_patterns.
    destruct (after_file_index progress file symbols relativePath s) as (-> & _).
    apply List.Forall_app. split; [exact Hs|]. constructor; [|constructor].
    destruct Hadm as (_ & -> & _ & _ & _ & _ & _ & _ & fileName & isDir & Hlet).
    apply shouldIgnore_false in Hlet. destruct Hlet as [Hden Hpat].
    split; [|exact Hpat]. unfold denied in Hden.
    apply orb_false_iff in Hden. apply Hden.
  - intros patterns. constructor.
  - exists st'. split; [exact Hrun|exact Hst'].
Qed.

Lemma sum_sizes_app (l : list CodeFile.t) (f : CodeFile.t) :
  sum_sizes (l ++ [f]) = (sum_sizes l + CodeFile.size f)%N.
Proof.
  unfold sum_sizes. induction l as [|g l IH]; simpl; [lia|]. rewrite IH. lia.
Qed.

(** X2. The total size of the index that [indexWorkspace] returns is the
    sum of the sizes of its files. *)
Theorem totalSize_is_sum_of_sizes
    (root : option Fs.node) (workspacePath : string) (progress : bool) (st : state) :
  exists st',
    indexWorkspace root workspacePath progress st = Js.Normal (index st') st' /\
    CodebaseIndex.totalSize (index st') = sum_sizes (CodebaseIndex.files (index st')).
Proof.
  destruct (indexWorkspace_stages
              (fun s => CodebaseIndex.totalSize (index s)
                        = sum_sizes (CodebaseIndex.files (index s))) progress)
    with (root := root) (workspacePath := workspacePath) (st := st)
    as (patterns & st' & _ & Hrun & Hst' & _).
  - intros file symbols relativePath s Hs _.
    destruct (after_file_index progress file symbols relativePath s)
      as (-> & _ & -> & _).
    rewrite sum_sizes_app, Hs. reflexivity.
  - intros patterns. reflexivity.
  - exists st'. split; [exact Hrun|exact Hst'].
Qed.

(** X3. In the index that [indexWorkspace] returns, the histogram has an
    entry for a language exactly when some file has that language, and the
    entry is the number of files that [getFilesByLanguage] returns. *)
Theorem histogram_counts_files_by_language
    (root : option Fs.node) (workspacePath : string) (progress : bool) (st : state) :
  exists st',
    indexWorkspace root workspacePath progress st = Js.Normal (index st') st' /\
    forall language : string,
      CodebaseIndex.languages (index st') !! language
      = match List.length (getFilesByLanguage (index st') language) with
        | O => None
        | S n => Some (S n)
        end.
Proof.
  destruct (indexWorkspace_stages
              (fun s => forall language : string,
                 CodebaseIndex.languages (index s) !! language
                 = match List.length (getFilesByLanguage (index s) language) with
                   | O => None
                   | S n => Some (S n)
                   end) progress)
    with (root := root) (workspacePath := workspacePath) (st := st)
    as (patterns & st' & _ & Hrun & Hst' & _).
  - intros file symbols relativePath s Hs _ language.
    unfold getFilesByLanguage in *.
    destruct (after_file_index progress file symbols relativePath s)
      as (-> & _ & _ & -> & _).
    rewrite List.filter_app, List.length_app. simpl.
    destruct (decide (CodeFile.language file = language)) as [->|Hne].
    + rewrite lookup_insert_eq, Hs, bool_decide_eq_true_2 by reflexivity. simpl.
      destruct (List.length _); simpl; f_equal; lia.
    + rewrite lookup_insert_ne, Hs, bool_decide_eq_false_2 by assumption. simpl.
      rewrite Nat.add_0_r. reflexivity.
  - intros patterns language. reflexivity.
  - exists st'. split; [exact Hrun|exact Hst'].
Qed.

(** X9. With a progress sink, [indexWorkspace] sends it one message per
    indexed file, in the order of the files of the index; without one it
    sends nothing. *)
Theorem progress_reports_each_file
    (root : option Fs.node) (workspacePath : string) (progress : bool) (st : state) :
  exists st',
    indexWorkspace root workspacePath progress st = Js.Normal (index st') st' /\
    reported st'
    = reported st
      ++ (if progress
          then List.map (fun f => "Indexed: " +:+ CodeFile.relativePath f)
                        (CodebaseIndex.files (index st'))
          else []).
Proof.
  destruct (indexWorkspace_stages
              (fun s => is_Some (CodebaseIndex.summary (index s)) /\
                 reported s
                 = reported st
                   ++ (if progress
                       then List.map (fun f => "Indexed: " +:+ CodeFile.relativePath f)
                                     (CodebaseIndex.files (index s))
                       else [])) progress)
    with (root := root) (workspacePath := workspacePath) (st := st)
    as (patterns & st' & _ & Hrun & [_ Hst'] & _).
  - intros file symbols relativePath s [[sm Hsm] Hs] Hadm.
    destruct Hadm as (_ & Hrel & _).
    unfold after_file. rewrite Hsm. simpl. split; [eexists; reflexivity|].
    destruct progress; [|exact Hs].
    rewrite Hs, List.map_app, <- List.app_assoc. simpl. now rewrite Hrel.
  - intros patterns. simpl. split; [eexists; reflexivity|].
    destruct progress; simpl; now rewrite List.app_nil_r.
  - exists st'. split; [exact Hrun|exact Hst'].
Qed.

Lemma prefix_cons (a b : ascii) (p s : string) :
  String.prefix (String a p) (String b s)
  = if ascii_dec a b then String.prefix p s else false.
Proof. reflexivity. Qed.

(** A tagged symbol counts as a function or as a class, never as both. *)
Lemma tagged_symbol_kind (s : string) :
  tagged_symbol s ->
  (is_function s = true /\ is_class s = false) \/
  (is_function s = false /\ is_class s = true).
Proof.
  unfold tagged_symbol, is_function, is_class, Str.startsWith.
  destruct s as [|a s]; [intros [H|[H|H]]; discriminate H|].
  intros [H|[H|H]]; rewrite prefix_cons in H.
  all: match type of H with
       | (if ascii_dec ?c ?x then _ else _) = true =>
           destruct (ascii_dec c x) as [<-|]; [|discriminate H]
       end.
  all: rewrite !prefix_cons.
  all: repeat match goal with
         | |- context [ascii_dec ?x ?y] =>
             destruct (ascii_dec x y) as [Heq|Hne];
             [try discriminate Heq|try (exfalso; apply Hne; reflexivity)]
         end.
  all: rewrite ?H; simpl; auto.
Qed.

Lemma tagged_symbols_split (symbols : list string) :
  List.Forall tagged_symbol symbols ->
  List.length (List.filter is_function symbols)
  + List.length (List.filter is_class symbols)
  = List.length symbols.
Proof.
  induction 1 as [|s symbols Hs _ IH]; simpl; [reflexivity|].
  destruct (tagged_symbol_kind s Hs) as [[-> ->]|[-> ->]]; simpl; lia.
Qed.

Lemma count_symbols_app (p : string -> bool) (l : list CodeFile.t) (f : CodeFile.t) :
  count_symbols p (l ++ [f])
  = count_symbols p l + List.length (List.filter p (symbols_of f)).
Proof.
  unfold count_symbols. induction l as [|g l IH]; simpl; [lia|]. rewrite IH. lia.
Qed.

(** X4. The summary of the index that [indexWorkspace] returns counts the
    symbols of its files: [total] is their number, [functions] the number
    of those tagged [fn:] or [method:], [classes] the number of those
    tagged [class:], and the two add up to [total]. *)
Theorem summary_counts_symbols
    (root : option Fs.node) (workspacePath : string) (progress : bool) (st : state) :
  exists (st' : state) (sm : Summary.t),
    indexWorkspace root workspacePath progress st = Js.Normal (index st') st' /\
    CodebaseIndex.summary (index st') = Some sm /\
    Summary.total sm = count_symbols (fun _ => true) (CodebaseIndex.files (index st')) /\
    Summary.functions sm = count_symbols is_function (CodebaseIndex.files (index st')) /\
    Summary.classes sm = count_symbols is_class (CodebaseIndex.files (index st')) /\
    Summary.functions sm + Summary.classes sm = Summary.total sm.
Proof.
  destruct (indexWorkspace_stages
              (fun s => exists sm,
                 CodebaseIndex.summary (index s) = Some sm /\
                 Summary.total sm
                 = count_symbols (fun _ => true) (CodebaseIndex.files (index s)) /\
                 Summary.functions sm
                 = count_symbols is_function (CodebaseIndex.files (index s)) /\
                 Summary.classes sm
                 = count_symbols is_class (CodebaseIndex.files (index s)) /\
                 Summary.functions sm + Summary.classes sm = Summary.total sm) progress)
    with (root := root) (workspacePath := workspacePath) (st := st)
    as (patterns & st' & _ & Hrun & (sm & Hsm) & _).
  - intros file symbols relativePath s (sm & Hsm & Htot & Hfun & Hcls & Hsum) Hadm.
    destruct Hadm as (_ & _ & _ & _ & Hext & Hsyms & _).
    apply SymbolsFacts.extractSymbols_tagged, tagged_symbols_split in Hext.
    unfold after_file. rewrite Hsm. simpl.
    eexists. split; [reflexivity|]. simpl.
    rewrite !count_symbols_app. unfold symbols_of. rewrite Hsyms. simpl.
    unfold count_if. rewrite <- Htot, <- Hfun, <- Hcls.
    assert (Hall : List.filter (fun _ : string => true) symbols = symbols).
    { clear. induction symbols as [|x l IH]; simpl; [reflexivity|now rewrite IH]. }
    rewrite Hall. fold is_function is_class in *.
    repeat split; try reflexivity.
    unfold is_function, is_class in *. lia.
  - intros patterns. exists (Summary.mk 0 0 0). repeat split.
  - exists st', sm. split; [exact Hrun|exact Hsm].
Qed.

(** X5. Every file of the index that [indexWorkspace] returns has the
    language of its path's extension, one of the supported languages, the
    hash and the symbols of its content, a size within the ceiling and a
    modification time. *)
Theorem indexed_files_are_consistent
    (root : option Fs.node) (workspacePath : string) (progress : bool) (st : state) :
  exists st',
    indexWorkspace root workspacePath progress st = Js.Normal (index st') st' /\
    List.Forall
      (fun f =>
         getLanguageFromPath (CodeFile.path f) = Some (CodeFile.language f) /\
         CodeFile.language f ∈ supportedLanguages /\
         CodeFile.hash f = simpleHash (CodeFile.content f) /\
         CodeFile.symbols f
         = Symbols.extractSymbols (CodeFile.content f) (CodeFile.language f) /\
         (CodeFile.size f <= maxFileSize)%N /\
         is_Some (CodeFile.lastModified f))
      (CodebaseIndex.files (index st')).
Proof.
  destruct (indexWorkspace_stages
              (fun s =>
                 List.Forall
                   (fun f =>
                      getLanguageFromPath (CodeFile.path f) = Some (CodeFile.language f) /\
                      CodeFile.language f ∈ supportedLanguages /\
                      CodeFile.hash f = simpleHash (CodeFile.content f) /\
                      CodeFile.symbols f
                      = Symbols.extractSymbols (CodeFile.content f) (CodeFile.language f) /\
                      (CodeFile.size f <= maxFileSize)%N /\
                      is_Some (CodeFile.lastModified f))
                   (CodebaseIndex.files (index s))) progress)
    with (root := root) (workspacePath := workspacePath) (st := st)
    as (patterns & st' & _ & Hrun & Hst' & _).
  - intros file symbols relativePath s Hs Hadm.
    destruct (after_file_index progress file symbols relativePath s) as (-> & _).
    apply List.Forall_app. split; [exact Hs|]. constructor; [|constructor].
    destruct Hadm as (_ & _ & Hsize & Hlang & Hext & Hsyms & Hhash & Hmod & _).
    repeat split; try assumption; [|congruence].
    unfold getLanguageFromPath in Hlang.
    destruct (List.find _ extensionMap) as [[ext lang]|]; [|discriminate].
    destruct (Str.includes supportedLanguages lang) eqn:Hin; [|discriminate].
    injection Hlang as <-. unfold Str.includes in Hin.
    apply bool_decide_eq_true in Hin. exact Hin.
  - intros patterns. constructor.
  - exists st'. split; [exact Hrun|exact Hst'].
Qed.

(** X6. The ignore patterns of an indexer outlive a walk: when the root
    has no [.gitignore], [indexWorkspace] walks with the patterns loaded
    by an earlier call and leaves them in place; when it has a readable
    one, the patterns are exactly those of its content. *)
Theorem gitignore_patterns_persist
    (root : option Fs.node) (workspacePath : string) (progress : bool) (st : state) :
  (Fs.child root ".gitignore" = None ->
   exists st',
     indexWorkspace root workspacePath progress st = Js.Normal (index st') st' /\
     gitignorePatterns st' = gitignorePatterns st) /\
  (forall name stats content,
     Fs.child root ".gitignore" = Some (Fs.File name stats (Some content)) ->
     exists st',
       indexWorkspace root workspacePath progress st = Js.Normal (index st') st' /\
       gitignorePatterns st' = parse_gitignore content).
Proof.
  destruct (indexWorkspace_stages (fun _ => True) progress)
    with (root := root) (workspacePath := workspacePath) (st := st)
    as (patterns & st' & Hload & Hrun & _ & Hpat); [intros ? ? ? ? ? ?; exact I|auto|].
  split.
  - intros Hnone. exists st'. split; [exact Hrun|].
    unfold loadGitignore, Js.try_catch in Hload. rewrite Hnone in Hload.
    simpl in Hload. injection Hload as Hload. simpl in Hload. congruence.
  - intros name stats content Hsome. exists st'. split; [exact Hrun|].
    unfold loadGitignore, Js.try_catch, Js.bind in Hload. rewrite Hsome in Hload.
    simpl in Hload. injection Hload as Hload. simpl in Hload. congruence.
Qed.

End Walk.

Lemma trim_end_cons (a : ascii) (s : string) :
  Str.trim_end (String a s)
  = match Str.trim_end s with
    | EmptyString => if Str.is_space a then EmptyString else String a EmptyString
    | t => String a t
    end.
Proof. reflexivity. Qed.

Lemma trim_end_idempotent (s : string) : Str.trim_end (Str.trim_end s) = Str.trim_end s.
Proof.
  induction s as [|a s IH]; [reflexivity|]. rewrite trim_end_cons.
  destruct (Str.trim_end s) as [|b t] eqn:Ht.
  - destruct (Str.is_space a) eqn:Ha; [reflexivity|].
    rewrite trim_end_cons. simpl. now rewrite Ha.
  - rewrite trim_end_cons, IH. reflexivity.
Qed.

(** What [trim_start] returns is empty or starts with a character that is
    not white space. *)
Lemma trim_start_head (s : string) :
  match Str.trim_start s with
  | EmptyString => True
  | String a _ => Str.is_space a = false
  end.
Proof.
  induction s as [|a s IH]; simpl; [exact I|].
  destruct (Str.is_space a) eqn:Ha; [exact IH|exact Ha].
Qed.

Lemma trim_idempotent (s : string) : Str.trim (Str.trim s) = Str.trim s.
Proof.
  unfold Str.trim. pose proof (trim_start_head s) as Hhead.
  destruct (Str.trim_start s) as [|a u]; [reflexivity|].
  assert (Hkeep : exists t, Str.trim_end (String a u) = String a t).
  { rewrite trim_end_cons. destruct (Str.trim_end u); rewrite ?Hhead; eexists; reflexivity. }
  destruct Hkeep as [t Ht]. rewrite Ht.
  assert (Hstart : Str.trim_start (String a t) = String a t) by (simpl; now rewrite Hhead).
  rewrite Hstart, <- Ht. apply trim_end_idempotent.
Qed.

(** X7. No pattern read from an ignore file is empty, a comment, or
    carries white space at either end. *)
Theorem parse_gitignore_patterns (content : string) :
  List.Forall (fun pattern => pattern <> "" /\ Str.startsWith pattern "#" = false /\
                              Str.trim pattern = pattern)
              (parse_gitignore content).
Proof.
  apply List.Forall_forall. intros pattern Hin. unfold parse_gitignore in Hin.
  apply filter_In in Hin. destruct Hin as [Hin Hkeep].
  apply andb_prop in Hkeep. destruct Hkeep as [Hne Hhash].
  apply negb_true_iff in Hne, Hhash. apply bool_decide_eq_false in Hne.
  apply in_map_iff in Hin. destruct Hin as (line & <- & _).
  split; [exact Hne|]. split; [exact Hhash|]. apply trim_idempotent.
Qed.

Lemma toInt32_range (z : Z) : (- 2 ^ 31 <= toInt32 z < 2 ^ 31)%Z.
Proof.
  unfold toInt32. pose proof (Z.mod_pos_bound (z + 2 ^ 31) (2 ^ 32)) as Hb. lia.
Qed.

Lemma toInt32_small (z : Z) : (- 2 ^ 31 <= z < 2 ^ 31)%Z -> toInt32 z = z.
Proof. intros Hz. unfold toInt32. rewrite Z.mod_small by lia. lia. Qed.

(** Two integers that differ by a multiple of [2 ^ 32] wrap to the same. *)
Lemma toInt32_congruent (a b k : Z) : (a = b + k * 2 ^ 32)%Z -> toInt32 a = toInt32 b.
Proof.
  intros ->. unfold toInt32.
  replace (b + k * 2 ^ 32 + 2 ^ 31)%Z with (b + 2 ^ 31 + k * 2 ^ 32)%Z by lia.
  now rewrite Z.mod_add by lia.
Qed.

Lemma toInt32_multiple (z : Z) : exists k, (toInt32 z = z + k * 2 ^ 32)%Z.
Proof.
  exists (- ((z + 2 ^ 31) / 2 ^ 32))%Z. unfold toInt32.
  pose proof (Z.div_mod (z + 2 ^ 31) (2 ^ 32)) as Hd. lia.
Qed.

Lemma simpleHash_loop_horner (str : string) : forall (hash hash' k : Z),
  (hash = hash' + k * 2 ^ 32)%Z ->
  toInt32 (simpleHash_loop str hash) = toInt32 (horner str hash').
Proof.
  induction str as [|c str IH]; intros hash hash' k Hk; simpl.
  - apply (toInt32_congruent _ _ k), Hk.
  - destruct (toInt32_multiple (Z.shiftl hash 5)) as [k1 Hk1].
    destruct (toInt32_multiple (toInt32 (Z.shiftl hash 5) - hash + Z.of_nat (nat_of_ascii c)))
      as [k2 Hk2].
    apply (IH _ _ (k2 + k1 + 31 * k)%Z).
    rewrite Hk2, Hk1, Z.shiftl_mul_pow2 by lia. subst hash. lia.
Qed.

Lemma simpleHash_loop_range (str : string) (hash : Z) :
  (- 2 ^ 31 <= hash < 2 ^ 31)%Z ->
  (- 2 ^ 31 <= simpleHash_loop str hash < 2 ^ 31)%Z.
Proof.
  revert hash. induction str as [|c str IH]; intros hash Hh; simpl; [exact Hh|].
  apply IH, toInt32_range.
Qed.

(** X8. The number that [simpleHash] renders is the base-31 polynomial of
    the code units of the string, wrapped to a signed 32-bit integer. *)
Theorem simpleHash_is_polynomial (str : string) :
  simpleHash_loop str 0 = toInt32 (horner str 0) /\
  (- 2 ^ 31 <= simpleHash_loop str 0 < 2 ^ 31)%Z /\
  simpleHash str = toString16 (toInt32 (horner str 0)).
Proof.
  assert (Hrange : (- 2 ^ 31 <= simpleHash_loop str 0 < 2 ^ 31)%Z)
    by (apply simpleHash_loop_range; lia).
  assert (Heq : simpleHash_loop str 0 = toInt32 (horner str 0)).
  { rewrite <- (toInt32_small _ Hrange). apply (simpleHash_loop_horner str 0 0 0)%Z. lia. }
  split; [exact Heq|]. split; [exact Hrange|]. unfold simpleHash. now rewrite Heq.
Qed.

Lemma existsb_literal (path : string) (patterns : list string) :
  forallb Glob.literal patterns = true ->
  existsb (Glob.matchesPattern Glob.fragment_regexp path) patterns
  = Str.includes patterns path.
Proof.
  unfold Str.includes.
  induction patterns as [|pattern patterns IH]; intros Hall.
  - reflexivity.
  - simpl in Hall. apply andb_prop in Hall. destruct Hall as [Hlit Hall].
    cbn [existsb]. rewrite GlobFacts.literal_pattern_matches_itself, IH by assumption.
    rewrite <- bool_decide_or. apply bool_decide_ext. rewrite elem_of_cons. reflexivity.
Qed.

(** X26. With ignore patterns that are all literal, [shouldIgnore]
    answers true exactly for a name or a path segment on the deny lists
    and for a relative path that, with its separators normalised, is one
    of the patterns: a literal pattern ignores the one path equal to it,
    not an entry of that name elsewhere in the tree. *)
Theorem literal_patterns_ignore_exact_paths
    (patterns : list string) (fileName relativePath : string) (isDir : bool) :
  forallb Glob.literal patterns = true ->
  shouldIgnore Glob.fragment_regexp patterns fileName relativePath isDir
  = denied fileName relativePath
    || Str.includes patterns (Str.replace_char "\" "/" relativePath).
Proof.
  intros Hall. unfold shouldIgnore, denied.
  destruct (Str.includes commonIgnoreFiles fileName); [reflexivity|].
  destruct (existsb (Str.includes commonIgnorePaths) _); [reflexivity|].
  apply existsb_literal, Hall.
Qed.

Lemma literal_patterns_ignore_exact_paths_witness :
  shouldIgnore Glob.fragment_regexp ["notes.txt"; "tmp"] "notes.txt" "src\notes.txt" false
  = denied "notes.txt" "src\notes.txt"
    || Str.includes ["notes.txt"; "tmp"] (Str.replace_char "\" "/" "src\notes.txt").
Proof.
  apply (literal_patterns_ignore_exact_paths ["notes.txt"; "tmp"] "notes.txt"
           "src\notes.txt" false).
  reflexivity.
Defined.

End IndexerFacts.

(** ** The queries on an index *)
Module QueryFacts.
Import Indexer.

Lemma lower_unit_idempotent (a : ascii) : lower_unit (lower_unit a) = lower_unit a.
Proof. destruct a as [[] [] [] [] [] [] [] []]; reflexivity. Qed.

Lemma toLowerCase_idempotent (s : string) : toLowerCase (toLowerCase s) = toLowerCase s.
Proof.
  induction s as [|a s IH]; simpl; [reflexivity|].
  now rewrite lower_unit_idempotent, IH.
Qed.

Lemma includes_empty (s : string) : includes s "" = true.
Proof. destruct s; reflexivity. Qed.

Lemma sublist_list_filter {A} (p : A -> bool) (l : list A) :
  sublist (List.filter p l) l.
Proof.
  induction l as [|x l IH]; simpl; [constructor|].
  destruct (p x); [now apply sublist_skip|now apply sublist_cons].
Qed.

(** X10. [searchFiles] returns at most [limit] files, in the order of the
    index; each of them matches the query in its relative path, its
    content or one of its symbols, letter case apart; when it returns
    fewer than [limit] files it returns every match; and putting the
    query in lower case does not change the result. *)
Theorem searchFiles_result (index : CodebaseIndex.t) (query : string) (limit : nat) :
  List.length (searchFiles index query limit) <= limit /\
  sublist (searchFiles index query limit) (CodebaseIndex.files index) /\
  List.Forall (fun f => matches_query (toLowerCase query) f = true)
              (searchFiles index query limit) /\
  (List.length (searchFiles index query limit) < limit ->
   forall f, In f (CodebaseIndex.files index) ->
             matches_query (toLowerCase query) f = true ->
             In f (searchFiles index query limit)) /\
  searchFiles index (toLowerCase query) limit = searchFiles index query limit.
Proof.
  unfold searchFiles. cbv zeta.
  set (found := List.filter (matches_query (toLowerCase query)) (CodebaseIndex.files index)).
  split; [rewrite length_take; lia|]. split; [|split; [|split]].
  - transitivity found; [apply sublist_take|apply sublist_list_filter].
  - apply List.Forall_forall. intros f Hf. apply list_elem_of_In in Hf.
    apply (subseteq_take limit found) in Hf. apply list_elem_of_In in Hf.
    apply filter_In in Hf. apply Hf.
  - intros Hshort f Hf Hmatch. rewrite length_take in Hshort.
    rewrite take_ge by lia. apply filter_In. split; assumption.
  - fold found. now rewrite toLowerCase_idempotent.
Qed.

(** X11. The empty query matches every file: [searchFiles] then returns
    the first [limit] files of the index. *)
Theorem searchFiles_empty_query (index : CodebaseIndex.t) (limit : nat) :
  searchFiles index "" limit = take limit (CodebaseIndex.files index).
Proof.
  unfold searchFiles. simpl. f_equal.
  induction (CodebaseIndex.files index) as [|f files IH]; simpl; [reflexivity|].
  unfold matches_query at 1. rewrite includes_empty. simpl. now rewrite IH.
Qed.

Lemma getSymbols_fold (files : list CodeFile.t) :
  forall (result : gmap string (list string)) (path : string) (symbols : list string),
    fold_left
      (fun result file =>
         match CodeFile.symbols file with
         | Some (s :: symbols) => <[CodeFile.relativePath file := s :: symbols]> result
         | _ => result
         end) files result !! path = Some symbols ->
    result !! path = Some symbols \/
    (symbols <> [] /\
     exists f, In f files /\ CodeFile.relativePath f = path /\
               CodeFile.symbols f = Some symbols).
Proof.
  induction files as [|file files IH]; intros result path symbols Hlook; simpl in Hlook;
    [now left|].
  apply IH in Hlook. destruct Hlook as [Hlook|(Hne & f & Hf & Hrel & Hsym)].
  - destruct (CodeFile.symbols file) as [[|s l]|] eqn:Hs; try (now left).
    destruct (decide (CodeFile.relativePath file = path)) as [Heq|Hne].
    + subst path. rewrite lookup_insert_eq in Hlook. injection Hlook as <-.
      right. split; [discriminate|]. exists file. split; [now left|]. split; [reflexivity|exact Hs].
    + rewrite lookup_insert_ne in Hlook by exact Hne. now left.
  - right. split; [exact Hne|]. exists f. split; [now right|]. split; assumption.
Qed.

Lemma getSymbols_fold_last (files : list CodeFile.t) :
  forall (result : gmap string (list string)) (path : string),
    (is_Some (result !! path) \/
     exists f s l, In f files /\ CodeFile.relativePath f = path /\
                   CodeFile.symbols f = Some (s :: l)) ->
    is_Some (fold_left
      (fun result file =>
         match CodeFile.symbols file with
         | Some (s :: symbols) => <[CodeFile.relativePath file := s :: symbols]> result
         | _ => result
         end) files result !! path).
Proof.
  induction files as [|file files IH]; intros result path Hsrc; simpl.
  - destruct Hsrc as [Hsome|(f & _ & _ & [] & _)]. exact Hsome.
  - apply IH. destruct Hsrc as [Hsome|(f & s & l & [<-|Hf] & Hrel & Hsym)].
    + left. destruct (CodeFile.symbols file) as [[|s l]|]; try exact Hsome.
      destruct (decide (CodeFile.relativePath file = path)) as [->|Hne].
      * rewrite lookup_insert_eq. eexists; reflexivity.
      * now rewrite lookup_insert_ne.
    + left. rewrite Hsym, Hrel, lookup_insert_eq. eexists; reflexivity.
    + right. exists f, s, l. auto.
Qed.

(** X13. [getSymbols] has an entry for a relative path exactly when some
    file with that path has at least one symbol; the entry is never an
    empty list, and it is the symbol list of a file with that path. *)
Theorem getSymbols_entries (index : CodebaseIndex.t) (path : string) :
  (forall symbols, getSymbols index !! path = Some symbols ->
     symbols <> [] /\
     exists f, In f (CodebaseIndex.files index) /\ CodeFile.relativePath f = path /\
               CodeFile.symbols f = Some symbols) /\
  (is_Some (getSymbols index !! path) <->
   exists f s l, In f (CodebaseIndex.files index) /\ CodeFile.relativePath f = path /\
                 CodeFile.symbols f = Some (s :: l)).
Proof.
  assert (Hentry : forall symbols, getSymbols index !! path = Some symbols ->
     symbols <> [] /\
     exists f, In f (CodebaseIndex.files index) /\ CodeFile.relativePath f = path /\
               CodeFile.symbols f = Some symbols).
  { intros symbols Hlook. apply getSymbols_fold in Hlook.
    destruct Hlook as [Hlook|H]; [|exact H]. rewrite lookup_empty in Hlook. discriminate. }
  split; [exact Hentry|]. split.
  - intros [symbols Hlook]. destruct (Hentry symbols Hlook) as (Hne & f & Hf & Hrel & Hsym).
    destruct symbols as [|s l]; [congruence|]. exists f, s, l. auto.
  - intros Hsrc. apply getSymbols_fold_last. now right.
Qed.

End QueryFacts.

(** ** The index store *)
Module StorageFacts.
Import Storage.

Lemma append_cons (x : ascii) (a b : string) : String x a +:+ b = String x (a +:+ b).
Proof. reflexivity. Qed.

Lemma append_assoc (a b c : string) : (a +:+ b) +:+ c = a +:+ (b +:+ c).
Proof.
  induction a as [|x a IH]; [reflexivity|]. now rewrite !append_cons, IH.
Qed.

Lemma append_length (a b : string) :
  String.length (a +:+ b) = String.length a + String.length b.
Proof.
  induction a as [|x a IH]; [reflexivity|]. rewrite append_cons. simpl. now rewrite IH.
Qed.

Lemma append_inv_tail (t : string) : forall a b : string, a +:+ t = b +:+ t -> a = b.
Proof.
  induction a as [|x a IH]; intros [|y b] Heq.
  - reflexivity.
  - apply (f_equal String.length) in Heq. rewrite !append_length in Heq.
    simpl in Heq. lia.
  - apply (f_equal String.length) in Heq. rewrite !append_length in Heq.
    simpl in Heq. lia.
  - rewrite !append_cons in Heq. injection Heq as -> Heq. f_equal. apply IH, Heq.
Qed.

Lemma get_append (a b : string) (n : nat) :
  String.get (String.length a + n) (a +:+ b) = String.get n b.
Proof. induction a as [|x a IH]; [reflexivity|exact IH]. Qed.

Lemma json_not_txt (a b : string) : a +:+ ".json" <> b +:+ ".txt".
Proof.
  intros Heq.
  assert (Hlen : String.length a + 4 = String.length b + 3).
  { apply (f_equal String.length) in Heq. rewrite !append_length in Heq. simpl in Heq. lia. }
  pose proof (get_append a ".json" 4) as Ha.
  pose proof (get_append b ".txt" 3) as Hb.
  rewrite Heq, Hlen, Hb in Ha. discriminate.
Qed.

(** *** Paths: [path.join] *)

Lemma append_nil_r (a : string) : a +:+ "" = a.
Proof. induction a as [|x a IH]; [reflexivity|]. now rewrite append_cons, IH. Qed.

Lemma split_cons (sep a : ascii) (s : string) :
  Str.split sep (String a s)
  = if Str.eqb_ascii a sep then "" :: Str.split sep s
    else match Str.split sep s with
         | [] => [String a ""]
         | seg :: segs => String a seg :: segs
         end.
Proof. reflexivity. Qed.

Lemma split_not_nil (sep : ascii) (s : string) : Str.split sep s <> [].
Proof.
  induction s as [|a s IH]; [discriminate|]. rewrite split_cons.
  destruct (Str.eqb_ascii a sep); [discriminate|].
  destruct (Str.split sep s); [congruence|discriminate].
Qed.

(** Splitting at the separators distributes over a separator. *)
Lemma split_app_sep (a b : string) :
  Str.split "/" (a +:+ String "/" b) = Str.split "/" a ++ Str.split "/" b.
Proof.
  induction a as [|x a IH].
  - reflexivity.
  - rewrite append_cons, !split_cons, IH.
    destruct (Str.eqb_ascii x "/"); [reflexivity|].
    pose proof (split_not_nil "/" a) as Hne.
    destruct (Str.split "/" a) as [|seg segs]; [congruence|reflexivity].
Qed.

Lemma split_lacks (s : string) : Glob.lacks "/" s = true -> Str.split "/" s = [s].
Proof.
  induction s as [|a s IH]; intros Hs; [reflexivity|].
  rewrite GlobFacts.lacks_cons in Hs. apply andb_prop in Hs. destruct Hs as [Ha Hs].
  apply negb_true_iff in Ha. rewrite split_cons, Ha, (IH Hs). reflexivity.
Qed.

Lemma split_segments_lack (s : string) :
  List.Forall (fun seg => Glob.lacks "/" seg = true) (Str.split "/" s).
Proof.
  induction s as [|a s IH]; [repeat constructor|].
  rewrite split_cons. destruct (Str.eqb_ascii a "/") eqn:Ha.
  - constructor; [reflexivity|exact IH].
  - destruct (Str.split "/" s) as [|seg segs]; [repeat constructor; now rewrite GlobFacts.lacks_cons, Ha|].
    inversion IH as [|? ? Hseg Hsegs]; subst. constructor; [|exact Hsegs].
    now rewrite GlobFacts.lacks_cons, Ha, Hseg.
Qed.

Lemma intercalate_cons (sep x y : string) (rest : list string) :
  Str.intercalate sep (x :: y :: rest) = x +:+ sep +:+ Str.intercalate sep (y :: rest).
Proof. reflexivity. Qed.

Lemma intercalate_snoc (sep x : string) (l : list string) :
  l <> [] -> Str.intercalate sep (l ++ [x]) = Str.intercalate sep l +:+ sep +:+ x.
Proof.
  induction l as [|y l IH]; intros Hne; [congruence|].
  destruct l as [|z l]; [reflexivity|].
  change ((y :: z :: l) ++ [x]) with (y :: (z :: l) ++ [x]).
  change ((z :: l) ++ [x]) with (z :: l ++ [x]) at 1.
  rewrite !intercalate_cons. change (z :: l ++ [x]) with ((z :: l) ++ [x]).
  rewrite IH by discriminate. now rewrite !append_assoc.
Qed.

Lemma split_intercalate (l : list string) :
  l <> [] -> List.Forall (fun seg => Glob.lacks "/" seg = true) l ->
  Str.split "/" (Str.intercalate "/" l) = l.
Proof.
  induction l as [|x l IH]; intros Hne Hall; [congruence|].
  inversion Hall as [|? ? Hx Hl]; subst.
  destruct l as [|y l]; [now apply split_lacks|].
  rewrite intercalate_cons.
  change ("/" +:+ ?s) with (String "/" s).
  rewrite split_app_sep, (split_lacks x Hx), IH by (discriminate || assumption).
  reflexivity.
Qed.

Lemma plain_spec (seg : string) :
  plain seg = true <->
  Glob.lacks "/" seg = true /\ seg <> "" /\ seg <> "." /\ seg <> "..".
Proof.
  unfold plain. rewrite andb_true_iff, negb_true_iff, !orb_false_iff.
  rewrite !bool_decide_eq_false. tauto.
Qed.

Lemma normalize_step_skip (allow : bool) (kept : list string) (seg : string) :
  seg = "" \/ seg = "." -> Str.normalize_step allow kept seg = kept.
Proof. intros [->| ->]; reflexivity. Qed.

Lemma normalize_step_plain (allow : bool) (kept : list string) (seg : string) :
  plain seg = true -> Str.normalize_step allow kept seg = seg :: kept.
Proof.
  intros Hseg. apply plain_spec in Hseg. destruct Hseg as (_ & H0 & H1 & H2).
  unfold Str.normalize_step.
  rewrite !bool_decide_eq_false_2 by assumption. reflexivity.
Qed.

Lemma normalize_fold_plain (allow : bool) (segs : list string) :
  List.Forall (fun seg => plain seg = true) segs ->
  forall kept, fold_left (Str.normalize_step allow) segs kept = rev segs ++ kept.
Proof.
  induction 1 as [|seg segs Hseg _ IH]; intros kept; [reflexivity|].
  simpl. rewrite normalize_step_plain, IH by exact Hseg.
  now rewrite <- app_assoc.
Qed.

Lemma normalize_fold_dots (k : nat) : forall j : nat,
  fold_left (Str.normalize_step true) (replicate k "..") (replicate j "..")
  = replicate (k + j) "..".
Proof.
  induction k as [|k IH]; intros j; [reflexivity|].
  change (fold_left (Str.normalize_step true) (replicate (S k) "..") (replicate j ".."))
    with (fold_left (Str.normalize_step true) (replicate k "..")
            (Str.normalize_step true (replicate j "..") "..")).
  assert (Hstep : Str.normalize_step true (replicate j "..") ".." = replicate (S j) "..")
    by (destruct j; reflexivity).
  rewrite Hstep, IH. f_equal. lia.
Qed.

Lemma normalize_step_shape (allow : bool) (kept : list string) (seg : string) :
  Glob.lacks "/" seg = true -> kept_shape allow kept ->
  kept_shape allow (Str.normalize_step allow kept seg).
Proof.
  intros Hseg (top & k & -> & Htop & Hk). unfold Str.normalize_step.
  destruct (bool_decide (seg = "") || bool_decide (seg = ".")) eqn:Hskip;
    [exists top, k; auto|].
  destruct (bool_decide (seg = "..")) eqn:Hdots.
  - destruct top as [|t top].
    + destruct k as [|k]; simpl.
      * destruct allow; [exists [], 1|exists [], 0]; repeat split; auto; discriminate.
      * destruct allow; [|specialize (Hk eq_refl); discriminate].
        exists [], (S (S k)). repeat split; auto; discriminate.
    + inversion Htop as [|? ? Ht Htop']; subst. simpl.
      apply plain_spec in Ht. destruct Ht as (_ & _ & _ & Ht).
      rewrite bool_decide_eq_false_2 by exact Ht.
      exists top, k. auto.
  - exists (seg :: top), k. repeat split; [|exact Hk].
    constructor; [|exact Htop].
    apply orb_false_iff in Hskip. destruct Hskip as [H0 H1].
    unfold plain. rewrite Hseg, H0, H1, Hdots. reflexivity.
Qed.

Lemma normalize_fold_shape (allow : bool) (segs : list string) :
  List.Forall (fun seg => Glob.lacks "/" seg = true) segs ->
  forall kept, kept_shape allow kept ->
    kept_shape allow (fold_left (Str.normalize_step allow) segs kept).
Proof.
  induction 1 as [|seg segs Hseg _ IH]; intros kept Hkept; [exact Hkept|].
  simpl. apply IH, normalize_step_shape; assumption.
Qed.

Lemma normalize_refold (allow : bool) (kept : list string) :
  kept_shape allow kept ->
  fold_left (Str.normalize_step allow) (rev kept) [] = kept.
Proof.
  intros (top & k & -> & Htop & Hk).
  rewrite rev_app_distr, fold_left_app.
  assert (Hrev : rev (replicate k "..") = replicate k "..").
  { clear. induction k as [|k IH]; [reflexivity|].
    simpl. rewrite IH. clear IH. induction k as [|k IH]; [reflexivity|].
    simpl. now rewrite IH. }
  rewrite Hrev.
  assert (Hdots : fold_left (Str.normalize_step allow) (replicate k "..") []
                  = replicate k "..").
  { destruct allow.
    - change (@nil string) with (replicate 0 "..") at 1.
      rewrite (normalize_fold_dots k 0). f_equal. lia.
    - rewrite (Hk eq_refl). reflexivity. }
  rewrite Hdots, normalize_fold_plain, rev_involutive; [reflexivity|].
  apply List.Forall_rev, Htop.
Qed.

Lemma normalize_segments_shape (allow : bool) (segs : list string) :
  List.Forall (fun seg => Glob.lacks "/" seg = true) segs ->
  kept_shape allow (rev (Str.normalize_segments allow segs)).
Proof.
  intros Hsegs. unfold Str.normalize_segments. rewrite rev_involutive.
  apply normalize_fold_shape; [exact Hsegs|].
  exists [], 0. repeat split; auto.
Qed.

(** Normalising normalised segments changes nothing. *)
Lemma normalize_segments_idempotent (allow : bool) (segs : list string) :
  List.Forall (fun seg => Glob.lacks "/" seg = true) segs ->
  Str.normalize_segments allow (Str.normalize_segments allow segs)
  = Str.normalize_segments allow segs.
Proof.
  intros Hsegs.
  pose proof (normalize_segments_shape allow segs Hsegs) as Hshape.
  unfold Str.normalize_segments at 1.
  rewrite <- (rev_involutive (Str.normalize_segments allow segs)) at 1.
  rewrite normalize_refold by exact Hshape. apply rev_involutive.
Qed.

Lemma normalize_segments_kept (allow : bool) (segs : list string) :
  List.Forall (fun seg => Glob.lacks "/" seg = true) segs ->
  List.Forall (fun seg => Glob.lacks "/" seg = true /\ seg <> "")
              (Str.normalize_segments allow segs).
Proof.
  intros Hsegs.
  destruct (normalize_segments_shape allow segs Hsegs) as (top & k & Heq & Htop & _).
  rewrite <- (rev_involutive (Str.normalize_segments allow segs)), Heq.
  apply List.Forall_rev, List.Forall_app. split.
  - eapply List.Forall_impl; [|exact Htop]. intros seg Hseg.
    apply plain_spec in Hseg. tauto.
  - clear. induction k as [|k IH]; constructor; [split; [reflexivity|discriminate]|exact IH].
Qed.

Lemma normalize_segments_snoc (allow : bool) (segs : list string) (seg : string) :
  plain seg = true ->
  Str.normalize_segments allow (segs ++ [seg]) = Str.normalize_segments allow segs ++ [seg].
Proof.
  intros Hseg. unfold Str.normalize_segments.
  rewrite fold_left_app. simpl. now rewrite normalize_step_plain.
Qed.

Lemma normalize_segments_skip_first (allow : bool) (segs : list string) :
  Str.normalize_segments allow ("" :: segs) = Str.normalize_segments allow segs.
Proof. reflexivity. Qed.

Lemma normalize_segments_skip_last (allow : bool) (segs : list string) :
  Str.normalize_segments allow (segs ++ [""]) = Str.normalize_segments allow segs.
Proof. unfold Str.normalize_segments. now rewrite fold_left_app. Qed.

Lemma startsWith_slash_cons (a : ascii) (s : string) :
  Str.startsWith (String a s) "/" = Str.eqb_ascii a "/".
Proof.
  unfold Str.startsWith, Str.eqb_ascii.
  change "/" with (String "/" "") at 1. rewrite IndexerFacts.prefix_cons.
  destruct (ascii_dec "/" a) as [<-|Hne]; [now destruct s|].
  symmetry. apply Ascii.eqb_neq. congruence.
Qed.

Lemma startsWith_slash_app (q r : string) :
  q <> "" -> Str.startsWith (q +:+ r) "/" = Str.startsWith q "/".
Proof.
  destruct q as [|a q]; [congruence|]. intros _.
  now rewrite append_cons, !startsWith_slash_cons.
Qed.

Lemma endsWith_slash_cons (a b : ascii) (s : string) :
  Str.endsWith_slash (String a (String b s)) = Str.endsWith_slash (String b s).
Proof. reflexivity. Qed.

Lemma endsWith_slash_app (a b : string) :
  b <> "" -> Str.endsWith_slash (a +:+ b) = Str.endsWith_slash b.
Proof.
  intros Hb. induction a as [|x a IH]; [reflexivity|].
  rewrite append_cons. destruct (a +:+ b) as [|y s] eqn:Hab.
  - destruct a; [|rewrite append_cons in Hab; discriminate].
    change ("" +:+ b) with b in Hab. congruence.
  - rewrite endsWith_slash_cons. exact IH.
Qed.

Lemma endsWith_slash_lacks (s : string) :
  Glob.lacks "/" s = true -> Str.endsWith_slash s = false.
Proof.
  induction s as [|a s IH]; intros Hs; [reflexivity|].
  rewrite GlobFacts.lacks_cons in Hs. apply andb_prop in Hs. destruct Hs as [Ha Hs].
  destruct s as [|b s]; [simpl; now apply negb_true_iff|].
  rewrite endsWith_slash_cons. apply IH, Hs.
Qed.

Lemma intercalate_head (sep : string) (a : ascii) (s : string) (rest : list string) :
  exists tail, Str.intercalate sep (String a s :: rest) = String a tail.
Proof.
  destruct rest as [|y rest]; [exists s; reflexivity|].
  exists (s +:+ sep +:+ Str.intercalate sep (y :: rest)).
  now rewrite intercalate_cons, append_cons.
Qed.

(** The normalised segments of what [path.normalize] returns are those
    of what it was given. *)
Lemma stem_normalize (q : string) : Str.stem (Str.normalize q) = Str.stem q.
Proof.
  destruct q as [|a0 q0] eqn:Hq; [reflexivity|]. rewrite <- Hq.
  assert (Hne : q <> "") by (rewrite Hq; discriminate). clear Hq a0 q0.
  unfold Str.normalize. rewrite bool_decide_eq_false_2 by exact Hne.
  cbv zeta. unfold Str.stem at 2.
  set (abs := Str.startsWith q "/").
  pose proof (normalize_segments_kept (negb abs) (Str.split "/" q)
                (split_segments_lack q)) as Hkept.
  pose proof (normalize_segments_idempotent (negb abs) (Str.split "/" q)
                (split_segments_lack q)) as Hidem.
  destruct (Str.normalize_segments (negb abs) (Str.split "/" q)) as [|s1 rest] eqn:HS.
  - simpl. destruct abs, (Str.endsWith_slash q); reflexivity.
  - inversion Hkept as [|? ? [Hs1 Hs1ne] Hrest]; subst.
    destruct s1 as [|c s1]; [congruence|]. clear Hs1ne.
    destruct (intercalate_head "/" c s1 rest) as (tail & Hbody).
    set (body := Str.intercalate "/" (String c s1 :: rest)) in *.
    rewrite bool_decide_eq_false_2 by (rewrite Hbody; discriminate).
    assert (Hc : Str.eqb_ascii c "/" = false).
    { rewrite GlobFacts.lacks_cons in Hs1. apply andb_prop in Hs1.
      destruct Hs1 as [Hc _]. now apply negb_true_iff in Hc. }
    assert (Hsplit : Str.split "/" body = String c s1 :: rest).
    { apply split_intercalate; [discriminate|].
      eapply List.Forall_impl; [|exact Hkept]. intros seg [Hseg _]. exact Hseg. }
    assert (Hall : forall suffix : list string,
              suffix = [] \/ suffix = [""] ->
              Str.normalize_segments (negb abs) ((String c s1 :: rest) ++ suffix)
              = String c s1 :: rest).
    { intros suffix [->| ->]; [rewrite app_nil_r|rewrite normalize_segments_skip_last];
        exact Hidem. }
    assert (Hstarts : forall r, Str.startsWith (body +:+ r) "/" = false)
      by (intros r; now rewrite Hbody, append_cons, startsWith_slash_cons).
    unfold Str.stem.
    destruct abs, (Str.endsWith_slash q).
    + change ("/" +:+ body +:+ "/") with (String "/" (body +:+ String "/" "")).
      rewrite startsWith_slash_cons. cbn [Str.eqb_ascii Ascii.eqb Bool.eqb negb].
      rewrite split_cons. cbn [Str.eqb_ascii Ascii.eqb Bool.eqb].
      rewrite split_app_sep, Hsplit, normalize_segments_skip_first.
      change (Str.split "/" "") with [""]. rewrite Hall by auto. reflexivity.
    + change ("/" +:+ body +:+ "") with (String "/" (body +:+ "")).
      rewrite append_nil_r.
      rewrite startsWith_slash_cons. cbn [Str.eqb_ascii Ascii.eqb Bool.eqb negb].
      rewrite split_cons. cbn [Str.eqb_ascii Ascii.eqb Bool.eqb].
      rewrite Hsplit, normalize_segments_skip_first.
      rewrite <- (app_nil_r (String c s1 :: rest)) at 1. rewrite Hall by auto. reflexivity.
    + change ("" +:+ body +:+ "/") with (body +:+ String "/" "").
      rewrite !Hstarts. cbn [negb]. rewrite split_app_sep, Hsplit.
      change (Str.split "/" "") with [""]. rewrite Hall by auto. reflexivity.
    + change ("" +:+ body +:+ "") with (body +:+ "").
      rewrite !Hstarts. cbn [negb]. rewrite append_nil_r, Hsplit.
      rewrite <- (app_nil_r (String c s1 :: rest)) at 1. rewrite Hall by auto. reflexivity.
Qed.

Lemma plain_lacks (seg : string) : plain seg = true -> Glob.lacks "/" seg = true.
Proof. intros Hseg. now apply plain_spec in Hseg. Qed.

Lemma plain_not_empty (seg : string) : plain seg = true -> seg <> "".
Proof. intros Hseg. apply plain_spec in Hseg. tauto. Qed.

(** The normalised segments of [q/seg] for a plain segment. *)
Lemma segments_snoc (q seg : string) :
  q <> "" -> plain seg = true ->
  Str.startsWith (q +:+ String "/" seg) "/" = Str.startsWith q "/" /\
  Str.endsWith_slash (q +:+ String "/" seg) = false /\
  Str.normalize_segments (negb (Str.startsWith q "/"))
    (Str.split "/" (q +:+ String "/" seg))
  = Str.normalize_segments (negb (Str.startsWith q "/")) (Str.split "/" q) ++ [seg].
Proof.
  intros Hq Hseg. split; [now apply startsWith_slash_app|]. split.
  - rewrite endsWith_slash_app by discriminate.
    pose proof (plain_not_empty seg Hseg) as Hne.
    destruct seg as [|c seg]; [congruence|]. rewrite endsWith_slash_cons.
    apply endsWith_slash_lacks, plain_lacks, Hseg.
  - rewrite split_app_sep, (split_lacks seg) by (apply plain_lacks, Hseg).
    apply normalize_segments_snoc, Hseg.
Qed.

Lemma intercalate_not_empty (l : list string) (seg : string) :
  seg <> "" -> Str.intercalate "/" (l ++ [seg]) <> "".
Proof.
  intros Hseg. destruct l as [|x l]; [exact Hseg|].
  rewrite intercalate_snoc by discriminate.
  intros Heq. apply (f_equal String.length) in Heq.
  rewrite !append_length in Heq. simpl in Heq. lia.
Qed.

(** [path.normalize] of [q/seg] for a plain segment: the stem of [q],
    then the segment. *)
Lemma normalize_snoc (q seg : string) :
  q <> "" -> plain seg = true ->
  Str.normalize (q +:+ String "/" seg) = Str.stem q +:+ seg.
Proof.
  intros Hq Hseg. destruct (segments_snoc q seg Hq Hseg) as (Habs & Htr & Hsegs).
  unfold Str.normalize, Str.stem.
  rewrite bool_decide_eq_false_2
    by (destruct q; [congruence|rewrite append_cons; discriminate]).
  cbv zeta. rewrite Habs, Htr, Hsegs.
  rewrite bool_decide_eq_false_2
    by (apply intercalate_not_empty, plain_not_empty, Hseg).
  rewrite append_nil_r.
  destruct (Str.normalize_segments _ (Str.split "/" q)) as [|s1 rest].
  - destruct (Str.startsWith q "/"); reflexivity.
  - rewrite intercalate_snoc by discriminate.
    now rewrite !append_assoc.
Qed.

Lemma stem_snoc (q seg : string) :
  q <> "" -> plain seg = true ->
  Str.stem (q +:+ String "/" seg) = Str.stem q +:+ seg +:+ "/".
Proof.
  intros Hq Hseg. destruct (segments_snoc q seg Hq Hseg) as (Habs & _ & Hsegs).
  unfold Str.stem. rewrite Habs, Hsegs.
  destruct (Str.normalize_segments _ (Str.split "/" q)) as [|s1 rest].
  - simpl. destruct (Str.startsWith q "/"); reflexivity.
  - change ((s1 :: rest) ++ [seg]) with (s1 :: rest ++ [seg]).
    destruct (rest ++ [seg]) as [|y l] eqn:Hrest;
      [destruct rest; discriminate|].
    rewrite <- Hrest. change (s1 :: rest ++ [seg]) with ((s1 :: rest) ++ [seg]).
    rewrite intercalate_snoc by discriminate.
    now rewrite !append_assoc.
Qed.

Lemma normalize_plain (seg : string) :
  plain seg = true -> Str.normalize seg = seg /\ Str.stem seg = seg +:+ "/".
Proof.
  intros Hseg. pose proof (plain_not_empty seg Hseg) as Hne.
  pose proof (plain_lacks seg Hseg) as Hlacks.
  assert (Habs : Str.startsWith seg "/" = false).
  { destruct seg as [|c seg]; [congruence|]. rewrite startsWith_slash_cons.
    rewrite GlobFacts.lacks_cons in Hlacks. apply andb_prop in Hlacks.
    destruct Hlacks as [Hc _]. now apply negb_true_iff in Hc. }
  assert (Hsegs : Str.normalize_segments true (Str.split "/" seg) = [seg]).
  { rewrite split_lacks by exact Hlacks.
    apply (normalize_segments_snoc true [] seg Hseg). }
  unfold Str.normalize, Str.stem.
  rewrite bool_decide_eq_false_2 by exact Hne. cbv zeta.
  rewrite Habs. cbn [negb]. rewrite Hsegs.
  rewrite (endsWith_slash_lacks seg Hlacks).
  change (Str.intercalate "/" [seg]) with seg.
  rewrite bool_decide_eq_false_2 by exact Hne.
  split; [now rewrite append_nil_r|reflexivity].
Qed.

(** [path.join(q, seg)] for a plain segment. *)
Lemma join_plain (q seg : string) :
  plain seg = true ->
  Str.join q seg = Str.stem q +:+ seg /\
  Str.stem (Str.join q seg) = Str.stem q +:+ seg +:+ "/".
Proof.
  intros Hseg. pose proof (plain_not_empty seg Hseg) as Hne.
  unfold Str.join, Str.join_all. cbn [List.filter].
  rewrite (bool_decide_eq_false_2 (seg = "")) by exact Hne. cbn [negb].
  destruct (bool_decide (q = "")) eqn:Hq; cbn [negb].
  - apply bool_decide_eq_true_1 in Hq. subst q.
    change (Str.intercalate "/" [seg]) with seg.
    destruct (normalize_plain seg Hseg) as [Hn Hs].
    rewrite stem_normalize. split; [exact Hn|exact Hs].
  - apply bool_decide_eq_false_1 in Hq.
    change (Str.intercalate "/" [q; seg]) with (q +:+ String "/" seg).
    rewrite stem_normalize. split; [now apply normalize_snoc|now apply stem_snoc].
Qed.

(** [path.join(q, "")] *)
Lemma join_nothing (q : string) : Str.stem (Str.join q "") = Str.stem q.
Proof.
  unfold Str.join, Str.join_all. cbn [List.filter bool_decide negb].
  destruct (bool_decide (q = "")) eqn:Hq; cbn [negb].
  - apply bool_decide_eq_true_1 in Hq. subst q. reflexivity.
  - change (Str.intercalate "/" [q]) with q. apply stem_normalize.
Qed.

Lemma join_all_plain (q seg1 seg2 : string) :
  plain seg1 = true -> plain seg2 = true ->
  Str.stem (Str.join_all [q; seg1; seg2]) = Str.stem (Str.join q seg1) +:+ seg2 +:+ "/".
Proof.
  intros H1 H2. pose proof (plain_not_empty seg1 H1) as Hne1.
  pose proof (plain_not_empty seg2 H2) as Hne2.
  destruct (join_plain q seg1 H1) as [_ ->].
  unfold Str.join_all. cbn [List.filter].
  rewrite (bool_decide_eq_false_2 (seg1 = "")), (bool_decide_eq_false_2 (seg2 = ""))
    by assumption.
  cbn [negb].
  destruct (bool_decide (q = "")) eqn:Hq; cbn [negb].
  - apply bool_decide_eq_true_1 in Hq. subst q.
    change (Str.intercalate "/" [seg1; seg2]) with (seg1 +:+ String "/" seg2).
    rewrite stem_normalize, stem_snoc by assumption.
    destruct (normalize_plain seg1 H1) as [_ ->]. reflexivity.
  - apply bool_decide_eq_false_1 in Hq.
    change (Str.intercalate "/" [q; seg1; seg2])
      with (q +:+ String "/" (seg1 +:+ String "/" seg2)).
    rewrite stem_normalize.
    replace (q +:+ String "/" (seg1 +:+ String "/" seg2))
      with ((q +:+ String "/" seg1) +:+ String "/" seg2)
      by (rewrite append_assoc; reflexivity).
    rewrite stem_snoc; [|destruct q; [congruence|rewrite append_cons; discriminate]|exact H2].
    rewrite stem_snoc by assumption. reflexivity.
Qed.

Lemma join_all_nothing (q seg : string) :
  Str.join_all [q; ""; seg] = Str.join q seg.
Proof. unfold Str.join, Str.join_all. cbn [List.filter bool_decide negb]. reflexivity. Qed.

(** A workspace name holds no separator and no dot. *)
Lemma sanitize_all_lacks (c : ascii) (s : string) :
  sanitize c <> c -> Glob.lacks c (sanitize_all s) = true.
Proof.
  intros Hc. induction s as [|a s IH]; [reflexivity|].
  change (sanitize_all (String a s)) with (String (sanitize a) (sanitize_all s)).
  rewrite GlobFacts.lacks_cons, IH, andb_true_r. apply negb_true_iff.
  unfold Str.eqb_ascii. apply Ascii.eqb_neq. intros Heq. apply Hc.
  unfold sanitize in *.
  destruct (Regex.cls_mem false _ a) eqn:Hmem; [subst a; now rewrite Hmem|].
  subst c. reflexivity.
Qed.

Lemma lacks_dot_plain (name : string) :
  Glob.lacks "/" name = true -> Glob.lacks "." name = true ->
  name = "" \/ plain name = true.
Proof.
  intros Hsep Hdot. destruct name as [|a name]; [now left|right].
  apply plain_spec. split; [exact Hsep|]. split; [discriminate|].
  rewrite GlobFacts.lacks_cons in Hdot. apply andb_prop in Hdot.
  destruct Hdot as [Ha _]. apply negb_true_iff in Ha.
  split; intros [= -> _]; discriminate.
Qed.

Lemma getWorkspaceName_plain (workspacePath : string) :
  getWorkspaceName workspacePath = "" \/ plain (getWorkspaceName workspacePath) = true.
Proof. apply lacks_dot_plain; apply sanitize_all_lacks; discriminate. Qed.

Lemma lacks_append (c : ascii) (a b : string) :
  Glob.lacks c (a +:+ b) = Glob.lacks c a && Glob.lacks c b.
Proof.
  induction a as [|x a IH]; [reflexivity|].
  now rewrite append_cons, !GlobFacts.lacks_cons, IH, andb_assoc.
Qed.

(** A name with an extension is a plain segment. *)
Lemma extension_plain (name ext : string) :
  Glob.lacks "/" name = true -> Glob.lacks "/" ext = true -> 2 < String.length ext ->
  plain (name +:+ ext) = true.
Proof.
  intros Hname Hext Hlen. apply plain_spec.
  split; [now rewrite lacks_append, Hname, Hext|].
  repeat split; intros Heq; apply (f_equal String.length) in Heq;
    rewrite append_length in Heq; simpl in Heq; lia.
Qed.

Section Store.

Variable storagePath : string.

Local Abbreviation indexFile := (Storage.indexFile storagePath).
Local Abbreviation blobPath := (Storage.blobPath storagePath).
Local Abbreviation blobPaths := (Storage.blobPaths storagePath).
Local Abbreviation contentsDir := (Storage.contentsDir storagePath).
Local Abbreviation saveIndex := (Storage.saveIndex storagePath).
Local Abbreviation loadIndex := (Storage.loadIndex storagePath).
Local Abbreviation saveFileContents := (Storage.saveFileContents storagePath).
Local Abbreviation loadFileContents := (Storage.loadFileContents storagePath).

(** The path of a metadata document, as [path.join] returns it. *)
Lemma indexFile_stem (name : string) :
  Glob.lacks "/" name = true ->
  indexFile name = Str.stem storagePath +:+ name +:+ ".json".
Proof.
  intros Hname. unfold Storage.indexFile.
  destruct (join_plain storagePath (name +:+ ".json")) as [-> _];
    [apply extension_plain; [exact Hname|reflexivity|simpl; lia]|reflexivity].
Qed.

(** The path of a content blob with a plain id, as [path.join] returns
    it: in [contents], in the workspace's directory. *)
Lemma blobPath_stem (name id : string) :
  name = "" \/ plain name = true -> Glob.lacks "/" id = true ->
  blobPath name id
  = Str.stem (Str.join storagePath name) +:+ "contents" +:+ "/" +:+ id +:+ ".txt".
Proof.
  intros Hname Hid. unfold Storage.blobPath.
  destruct (join_plain (contentsDir name) (id +:+ ".txt")) as [-> _];
    [apply extension_plain; [exact Hid|reflexivity|simpl; lia]|].
  assert (Hdir : Str.stem (contentsDir name)
                 = Str.stem (Str.join storagePath name) +:+ "contents" +:+ "/").
  { unfold Storage.contentsDir. destruct Hname as [->|Hname].
    - rewrite join_all_nothing, join_nothing.
      now destruct (join_plain storagePath "contents" eq_refl) as [_ ->].
    - now apply join_all_plain. }
  rewrite Hdir, !append_assoc. reflexivity.
Qed.

(** Two plain ids give two blob paths. *)
Lemma blobPath_inj (name id1 id2 : string) :
  name = "" \/ plain name = true ->
  Glob.lacks "/" id1 = true -> Glob.lacks "/" id2 = true ->
  blobPath name id1 = blobPath name id2 -> id1 = id2.
Proof.
  intros Hname H1 H2 Heq. rewrite !blobPath_stem in Heq by assumption.
  do 3 apply String.app_inj in Heq. apply append_inv_tail in Heq. exact Heq.
Qed.

(** A metadata document is never at the path of a content blob. *)
Lemma indexFile_not_blob (name workspaceName id : string) :
  Glob.lacks "/" name = true ->
  workspaceName = "" \/ plain workspaceName = true -> Glob.lacks "/" id = true ->
  indexFile name <> blobPath workspaceName id.
Proof.
  intros Hname Hws Hid. rewrite indexFile_stem, blobPath_stem by assumption.
  rewrite <- !append_assoc. apply json_not_txt.
Qed.

(** Distinct plain ids name distinct content blobs. *)
Lemma blobPaths_distinct (workspacePath : string) (files : list CodeFile.t) :
  List.NoDup (List.map CodeFile.id files) ->
  List.Forall (fun file => Glob.lacks "/" (CodeFile.id file) = true) files ->
  List.NoDup (blobPaths (getWorkspaceName workspacePath) files).
Proof.
  induction files as [|file files IH]; intros Hnodup Hplain; [constructor|].
  inversion Hnodup as [|? ? Hfresh Hnodup']; subst.
  inversion Hplain as [|? ? Hfile Hplain']; subst.
  unfold Storage.blobPaths. simpl. constructor; [|apply IH; assumption].
  intros Hin. apply in_map_iff in Hin. destruct Hin as (other & Heq & Hother).
  apply Hfresh. apply in_map_iff. exists other. split; [|exact Hother].
  apply (blobPath_inj (getWorkspaceName workspacePath)); auto.
  - apply getWorkspaceName_plain.
  - rewrite List.Forall_forall in Hplain'. apply Hplain', Hother.
Qed.

Local Abbreviation write_blob := (Storage.write_blob storagePath).
Local Abbreviation write_blobs := (Storage.write_blobs storagePath).

Lemma write_blob_frame (workspaceName : string) (d : disk) (file : CodeFile.t) :
  docs (write_blob workspaceName d file) = docs d /\
  write_denied (write_blob workspaceName d file) = write_denied d /\
  read_denied (write_blob workspaceName d file) = read_denied d.
Proof. unfold Storage.write_blob. destruct (write_denied d _); simpl; auto. Qed.

Lemma write_blobs_frame (workspaceName : string) (files : list CodeFile.t) :
  forall d : disk,
    docs (write_blobs workspaceName files d) = docs d /\
    write_denied (write_blobs workspaceName files d) = write_denied d /\
    read_denied (write_blobs workspaceName files d) = read_denied d.
Proof.
  induction files as [|file files IH]; intros d; simpl; [auto|].
  destruct (IH (write_blob workspaceName d file)) as (-> & -> & ->).
  apply write_blob_frame.
Qed.

(** A path that no file of the list writes to keeps its content. *)
Lemma write_blobs_other (workspaceName p : string) (files : list CodeFile.t) :
  forall d : disk,
    (forall file, In file files -> blobPath workspaceName (CodeFile.id file) <> p) ->
    blobs (write_blobs workspaceName files d) !! p = blobs d !! p.
Proof.
  induction files as [|file files IH]; intros d Hother; simpl; [reflexivity|].
  rewrite IH by (intros f Hf; apply Hother; now right).
  unfold Storage.write_blob. destruct (write_denied d _); simpl; [reflexivity|].
  apply lookup_insert_ne, Hother. now left.
Qed.

(** When no two files share a blob path, the blob of a file whose write
    is not refused holds its content once the loop is over. *)
Lemma write_blobs_written (workspaceName : string) (files : list CodeFile.t) :
  forall d : disk,
    List.NoDup (blobPaths workspaceName files) ->
    forall file, In file files ->
      write_denied d (blobPath workspaceName (CodeFile.id file)) = false ->
      blobs (write_blobs workspaceName files d) !! blobPath workspaceName (CodeFile.id file)
      = Some (CodeFile.content file).
Proof.
  induction files as [|file0 files IH]; intros d Hnodup file Hin Hwrite; [destruct Hin|].
  unfold Storage.blobPaths in Hnodup. simpl in Hnodup.
  inversion Hnodup as [|? ? Hfresh Hnodup']; subst. simpl.
  destruct (write_blob_frame workspaceName d file0) as (_ & Hwd & _).
  destruct Hin as [->|Hin].
  - rewrite write_blobs_other.
    + unfold Storage.write_blob. rewrite Hwrite. simpl. apply lookup_insert_eq.
    + intros f Hf Heq. apply Hfresh. rewrite <- Heq.
      apply (in_map (fun file => blobPath workspaceName (CodeFile.id file))), Hf.
  - apply IH; [exact Hnodup'|exact Hin|]. rewrite Hwd. exact Hwrite.
Qed.

Lemma saveFileContents_unfold (workspaceName : string) (files : list CodeFile.t)
    (d : disk) :
  write_denied d (contentsDir workspaceName) = false ->
  saveFileContents workspaceName files d
  = Js.Normal tt (write_blobs workspaceName files d).
Proof.
  intros Hdir. unfold Storage.saveFileContents, Js.bind at 1, mkdirSync.
  rewrite Hdir. clear Hdir. revert d.
  induction files as [|file files IH]; intros d; simpl; [reflexivity|].
  unfold Js.bind, Js.try_catch, writeFile. rewrite <- IH.
  unfold Storage.write_blob. destruct (write_denied d _); reflexivity.
Qed.

Lemma saveIndex_unfold (workspacePath : string) (index : CodebaseIndex.t) (d : disk) :
  let workspaceName := getWorkspaceName workspacePath in
  write_denied d (indexFile workspaceName) = false ->
  write_denied d (contentsDir workspaceName) = false ->
  saveIndex workspacePath index d
  = Js.Normal tt
      (write_blobs workspaceName (CodebaseIndex.files index)
         (write_doc (indexFile workspaceName) (compact index) d)).
Proof.
  intros workspaceName Hdoc Hdir.
  unfold Storage.saveIndex, Js.try_catch, Js.bind, writeDoc.
  fold workspaceName. rewrite Hdoc.
  fold (write_doc (indexFile workspaceName) (compact index) d).
  rewrite saveFileContents_unfold by exact Hdir. reflexivity.
Qed.

(** What [loadIndex] returns when the metadata document is one that
    [saveIndex] wrote and it can be read. *)
Lemma loadIndex_unfold (workspacePath : string) (c : CompactIndex) (d : disk) :
  let workspaceName := getWorkspaceName workspacePath in
  docs d !! indexFile workspaceName = Some (Indexed c) ->
  read_denied d (indexFile workspaceName) = false ->
  loadIndex workspacePath d
  = Js.Normal
      (Some (expand c
               (List.map (fun file =>
                  with_content file (blob_text d (blobPath workspaceName (id file))))
                  (files c)))) d.
Proof.
  intros workspaceName Hdoc Hread.
  unfold Storage.loadIndex, Js.try_catch, Js.bind, existsSync, readDoc,
    Storage.loadFileContents.
  fold workspaceName. cbv beta iota.
  rewrite bool_decide_eq_true_2 by (rewrite Hdoc; eexists; reflexivity).
  cbn [negb]. cbv beta iota. rewrite Hread, Hdoc.
  cbn [JSON_parse]. unfold Js.ret. do 3 f_equal.
  apply List.map_ext. intros file. unfold readFile, Storage.blob_text.
  destruct (read_denied d (blobPath workspaceName (id file))); [reflexivity|].
  destruct (blobs d !! _); reflexivity.
Qed.

Lemma Forall2_map_same {A B} (R : A -> B -> Prop) (h : A -> B) (l : list A) :
  (forall x, In x l -> R x (h x)) -> List.Forall2 R l (List.map h l).
Proof.
  induction l as [|x l IH]; intros Hall; simpl; constructor.
  - apply Hall. now left.
  - apply IH. intros y Hy. apply Hall. now right.
Qed.

(** The round trip for an index in which no two files share a blob path. *)
Lemma round_trip_distinct_blobs (workspacePath : string) (ix : CodebaseIndex.t) (d : disk) :
  let workspaceName := getWorkspaceName workspacePath in
  List.NoDup (blobPaths workspaceName (CodebaseIndex.files ix)) ->
  write_denied d (indexFile workspaceName) = false ->
  read_denied d (indexFile workspaceName) = false ->
  write_denied d (contentsDir workspaceName) = false ->
  (forall f, In f (CodebaseIndex.files ix) ->
     write_denied d (blobPath workspaceName (CodeFile.id f)) = false /\
     read_denied d (blobPath workspaceName (CodeFile.id f)) = false) ->
  exists (d' : disk) (loaded : CodebaseIndex.t),
    saveIndex workspacePath ix d = Js.Normal tt d' /\
    loadIndex workspacePath d' = Js.Normal (Some loaded) d' /\
    List.Forall2 same_file (CodebaseIndex.files ix) (CodebaseIndex.files loaded) /\
    docs d' !! indexFile workspaceName = Some (Indexed (compact ix)) /\
    List.Forall2 (fun f m => id m = CodeFile.id f /\
                   blobs d' !! blobPath workspaceName (id m) = Some (CodeFile.content f))
                 (CodebaseIndex.files ix) (files (compact ix)).
Proof.
  intros workspaceName Hnodup Hwdoc Hrdoc Hdir Hblobs.
  set (d1 := write_doc (indexFile workspaceName) (compact ix) d).
  set (d' := write_blobs workspaceName (CodebaseIndex.files ix) d1).
  destruct (write_blobs_frame workspaceName (CodebaseIndex.files ix) d1)
    as (Hdocs & Hwd & Hrd). fold d' in Hdocs, Hwd, Hrd.
  change (read_denied d1) with (read_denied d) in Hrd.
  assert (Hdoc : docs d' !! indexFile workspaceName = Some (Indexed (compact ix))).
  { rewrite Hdocs. apply lookup_insert_eq. }
  assert (Hwritten : forall f, In f (CodebaseIndex.files ix) ->
            blobs d' !! blobPath workspaceName (CodeFile.id f) = Some (CodeFile.content f)).
  { intros f Hf. apply write_blobs_written; [exact Hnodup|exact Hf|]. apply Hblobs, Hf. }
  exists d'. eexists. split; [apply saveIndex_unfold; assumption|].
  split; [apply (loadIndex_unfold workspacePath (compact ix)); [exact Hdoc|]|].
  { rewrite Hrd. exact Hrdoc. }
  split; [|split; [exact Hdoc|]].
  - simpl. rewrite List.map_map. apply Forall2_map_same. intros f Hf.
    unfold Storage.blob_text. simpl. rewrite Hrd. fold workspaceName.
    destruct (Hblobs f Hf) as [_ ->]. rewrite (Hwritten f Hf).
    unfold same_file. simpl. auto.
  - simpl. apply Forall2_map_same. intros f Hf. simpl. split; [reflexivity|].
    apply Hwritten, Hf.
Qed.

(** [saveIndex] ends, by returning or by throwing, with the metadata
    document written when its path takes writes. *)
Lemma saveIndex_writes_doc (workspacePath : string) (ix : CodebaseIndex.t) (d : disk) :
  let workspaceName := getWorkspaceName workspacePath in
  write_denied d (indexFile workspaceName) = false ->
  exists d' : disk,
    (saveIndex workspacePath ix d = Js.Normal tt d' \/
     exists e, saveIndex workspacePath ix d = Js.Throws e d') /\
    docs d' !! indexFile workspaceName = Some (Indexed (compact ix)) /\
    read_denied d' = read_denied d.
Proof.
  intros workspaceName Hwdoc.
  destruct (write_denied d (contentsDir workspaceName)) eqn:Hdir.
  - exists (write_doc (indexFile workspaceName) (compact ix) d). split; [right|].
    + exists "EACCES".
      unfold Storage.saveIndex, Js.try_catch, Js.bind, writeDoc,
        Storage.saveFileContents, Js.bind, mkdirSync.
      fold workspaceName. rewrite Hwdoc. simpl. rewrite Hdir. reflexivity.
    + split; [apply lookup_insert_eq|reflexivity].
  - exists (write_blobs workspaceName (CodebaseIndex.files ix)
              (write_doc (indexFile workspaceName) (compact ix) d)).
    split; [left; apply saveIndex_unfold; assumption|].
    destruct (write_blobs_frame workspaceName (CodebaseIndex.files ix)
                (write_doc (indexFile workspaceName) (compact ix) d)) as (Hd & _ & Hr).
    rewrite Hd, Hr. split; [apply lookup_insert_eq|reflexivity].
Qed.

(** C10. Once [saveIndex] has written the metadata document, whether it
    then returns or throws, the stored document is the compact form of
    the index and [loadIndex] returns an index without a summary whose
    files have neither symbols nor a modification time.  The loaded
    index has the saved root path, counts, histogram and timestamp; its
    files are, in order, those of the saved index, each with the saved
    id, path, relative path, language, size and hash, and with the text
    that the store holds at the path of its content blob as content,
    empty when there is none or it cannot be read.  When the contents
    directory takes writes and no two files share a blob path, the blob
    of every file whose write is not refused holds that file's content. *)
Theorem load_lacks_unpersisted_fields
    (workspacePath : string) (ix : CodebaseIndex.t) (d : disk) :
  let workspaceName := getWorkspaceName workspacePath in
  write_denied d (indexFile workspaceName) = false ->
  read_denied d (indexFile workspaceName) = false ->
  exists (d' : disk) (loaded : CodebaseIndex.t),
    (saveIndex workspacePath ix d = Js.Normal tt d' \/
     exists e, saveIndex workspacePath ix d = Js.Throws e d') /\
    docs d' !! indexFile workspaceName = Some (Indexed (compact ix)) /\
    loadIndex workspacePath d' = Js.Normal (Some loaded) d' /\
    persisted_index ix loaded /\
    List.Forall2
      (fun f g => persisted_file f g /\
                  CodeFile.content g
                  = blob_text d' (blobPath workspaceName (CodeFile.id f)))
      (CodebaseIndex.files ix) (CodebaseIndex.files loaded) /\
    (write_denied d (contentsDir workspaceName) = false ->
     List.NoDup (blobPaths workspaceName (CodebaseIndex.files ix)) ->
     forall f, In f (CodebaseIndex.files ix) ->
       write_denied d (blobPath workspaceName (CodeFile.id f)) = false ->
       blobs d' !! blobPath workspaceName (CodeFile.id f) = Some (CodeFile.content f)).
Proof.
  intros workspaceName Hwdoc Hrdoc.
  set (d1 := write_doc (indexFile workspaceName) (compact ix) d).
  assert (Hload : forall d' : disk,
            docs d' !! indexFile workspaceName = Some (Indexed (compact ix)) ->
            read_denied d' = read_denied d ->
            exists loaded,
              loadIndex workspacePath d' = Js.Normal (Some loaded) d' /\
              persisted_index ix loaded /\
              List.Forall2
                (fun f g => persisted_file f g /\
                            CodeFile.content g
                            = blob_text d' (blobPath workspaceName (CodeFile.id f)))
                (CodebaseIndex.files ix) (CodebaseIndex.files loaded)).
  { intros d' Hdoc Hrd. eexists.
    split; [apply (loadIndex_unfold workspacePath (compact ix)); [exact Hdoc|]|].
    { rewrite Hrd. exact Hrdoc. }
    split; [repeat split|].
    simpl. rewrite List.map_map. apply Forall2_map_same. intros f _.
    split; [repeat split|reflexivity]. }
  destruct (write_denied d (contentsDir workspaceName)) eqn:Hdir.
  - destruct (Hload d1) as (loaded & Hl & Hix & Hfiles);
      [apply lookup_insert_eq|reflexivity|].
    exists d1, loaded. split; [right; exists "EACCES"|].
    { unfold Storage.saveIndex, Js.try_catch, Js.bind, writeDoc,
        Storage.saveFileContents, Js.bind, mkdirSync.
      fold workspaceName. rewrite Hwdoc. simpl. rewrite Hdir. reflexivity. }
    split; [apply lookup_insert_eq|]. split; [exact Hl|]. split; [exact Hix|].
    split; [exact Hfiles|discriminate].
  - set (d' := write_blobs workspaceName (CodebaseIndex.files ix) d1).
    destruct (write_blobs_frame workspaceName (CodebaseIndex.files ix) d1)
      as (Hdocs & Hwd & Hrd). fold d' in Hdocs, Hwd, Hrd.
    assert (Hdoc : docs d' !! indexFile workspaceName = Some (Indexed (compact ix)))
      by (rewrite Hdocs; apply lookup_insert_eq).
    destruct (Hload d' Hdoc Hrd) as (loaded & Hl & Hix & Hfiles).
    exists d', loaded. split; [left; apply saveIndex_unfold; assumption|].
    split; [exact Hdoc|]. split; [exact Hl|]. split; [exact Hix|].
    split; [exact Hfiles|].
    intros _ Hnodup f Hf Hwrite. apply write_blobs_written; assumption.
Qed.

End Store.

(** C3. For an index that [indexWorkspace] returned and in which no two
    files share the path of a content blob (ids that are pairwise
    distinct and hold no path separator give such paths): when the
    metadata document and every content blob can be written and read,
    [saveIndex] returns, [loadIndex] then returns an index whose files
    are, in order, the files of the saved index with the same relative
    path, language, size, hash and content, and every record of the saved
    metadata document has the id of a file whose content is the blob
    stored under that id. *)
Theorem save_load_round_trip
    (regexp : string -> option (string -> bool)) (dateNow : nat -> N)
    (random36 : nat -> string) (root : option Fs.node) (progress : bool)
    (st st' : Indexer.state) (storagePath workspacePath : string)
    (ix : CodebaseIndex.t) (d : disk) :
  let workspaceName := getWorkspaceName workspacePath in
  Indexer.indexWorkspace regexp dateNow random36 root workspacePath progress st
  = Js.Normal ix st' ->
  List.NoDup (blobPaths storagePath workspaceName (CodebaseIndex.files ix)) ->
  write_denied d (indexFile storagePath workspaceName) = false ->
  read_denied d (indexFile storagePath workspaceName) = false ->
  write_denied d (contentsDir storagePath workspaceName) = false ->
  (forall f, In f (CodebaseIndex.files ix) ->
     write_denied d (blobPath storagePath workspaceName (CodeFile.id f)) = false /\
     read_denied d (blobPath storagePath workspaceName (CodeFile.id f)) = false) ->
  exists (d' : disk) (loaded : CodebaseIndex.t),
    saveIndex storagePath workspacePath ix d = Js.Normal tt d' /\
    loadIndex storagePath workspacePath d' = Js.Normal (Some loaded) d' /\
    List.Forall2 same_file (CodebaseIndex.files ix) (CodebaseIndex.files loaded) /\
    docs d' !! indexFile storagePath workspaceName = Some (Indexed (compact ix)) /\
    List.Forall2 (fun f m => id m = CodeFile.id f /\
                   blobs d' !! blobPath storagePath workspaceName (id m)
                   = Some (CodeFile.content f))
                 (CodebaseIndex.files ix) (files (compact ix)).
Proof.
  intros workspaceName Hrun Hnodup Hwdoc Hrdoc Hdir Hblobs.
  apply round_trip_distinct_blobs; assumption.
Qed.

(** C3, as the claim states it: on a host whose clock and random draw
    repeat, [indexWorkspace] gives two files the same id, the second
    blob replaces the first, and the index loaded after saving has the
    content of the second file for both. *)
Lemma save_load_round_trip_repeated_id :
  exists (ix : CodebaseIndex.t) (st' : Indexer.state) (d' : disk)
         (loaded : CodebaseIndex.t),
    Indexer.indexWorkspace Examples.regexp Examples.dateNow Examples.stuck
      (Some Examples.twins) "/ws" false Examples.fresh
    = Js.Normal ix st' /\
    List.map CodeFile.id (CodebaseIndex.files ix) = ["file_1000_x"; "file_1000_x"] /\
    List.map CodeFile.content (CodebaseIndex.files ix)
    = ["def a(): pass"; "def b(): pass"] /\
    saveIndex "/store" "/ws" ix Examples.empty_disk = Js.Normal tt d' /\
    loadIndex "/store" "/ws" d' = Js.Normal (Some loaded) d' /\
    List.map CodeFile.content (CodebaseIndex.files loaded)
    = ["def b(): pass"; "def b(): pass"] /\
    ~ List.Forall2 same_file (CodebaseIndex.files ix) (CodebaseIndex.files loaded).
Proof.
  do 4 eexists.
  split; [vm_compute; reflexivity|].
  split; [reflexivity|]. split; [reflexivity|].
  split; [apply saveIndex_unfold; reflexivity|].
  split; [apply (loadIndex_unfold "/store" "/ws"); [apply lookup_insert_eq|reflexivity]|].
  split; [vm_compute; reflexivity|].
  intros Hsame. inversion Hsame as [|f g fs gs Hfg _]; subst.
  destruct Hfg as (_ & _ & _ & _ & Hcontent). vm_compute in Hcontent. discriminate.
Qed.

Lemma walked_blobs_distinct :
  List.NoDup (blobPaths "/store" (getWorkspaceName "/ws")
                (CodebaseIndex.files Examples.walked_index)).
Proof.
  vm_compute. repeat constructor; simpl; intuition discriminate.
Defined.

Lemma save_load_round_trip_witness :
  exists (d' : disk) (loaded : CodebaseIndex.t),
    saveIndex "/store" "/ws" Examples.walked_index Examples.empty_disk = Js.Normal tt d' /\
    loadIndex "/store" "/ws" d' = Js.Normal (Some loaded) d' /\
    List.Forall2 same_file (CodebaseIndex.files Examples.walked_index)
                 (CodebaseIndex.files loaded) /\
    docs d' !! indexFile "/store" (getWorkspaceName "/ws")
    = Some (Indexed (compact Examples.walked_index)) /\
    List.Forall2 (fun f m => id m = CodeFile.id f /\
                   blobs d' !! blobPath "/store" (getWorkspaceName "/ws") (id m)
                   = Some (CodeFile.content f))
                 (CodebaseIndex.files Examples.walked_index)
                 (files (compact Examples.walked_index)).
Proof.
  apply (save_load_round_trip Examples.regexp Examples.dateNow Examples.random36
           (Some Examples.workspace) false Examples.fresh Examples.walked_state
           "/store" "/ws" Examples.walked_index Examples.empty_disk).
  - vm_compute. reflexivity.
  - exact walked_blobs_distinct.
  - reflexivity.
  - reflexivity.
  - reflexivity.
  - intros f _. split; reflexivity.
Defined.

Lemma load_lacks_unpersisted_fields_witness :
  exists (d' : disk) (loaded : CodebaseIndex.t),
    (saveIndex "/store" "/ws" Examples.walked_index Examples.empty_disk = Js.Normal tt d' \/
     exists e, saveIndex "/store" "/ws" Examples.walked_index Examples.empty_disk
               = Js.Throws e d') /\
    docs d' !! indexFile "/store" (getWorkspaceName "/ws")
    = Some (Indexed (compact Examples.walked_index)) /\
    loadIndex "/store" "/ws" d' = Js.Normal (Some loaded) d' /\
    persisted_index Examples.walked_index loaded /\
    List.Forall2
      (fun f g => persisted_file f g /\
                  CodeFile.content g
                  = blob_text d' (blobPath "/store" (getWorkspaceName "/ws") (CodeFile.id f)))
      (CodebaseIndex.files Examples.walked_index) (CodebaseIndex.files loaded) /\
    (write_denied Examples.empty_disk (contentsDir "/store" (getWorkspaceName "/ws")) = false ->
     List.NoDup (blobPaths "/store" (getWorkspaceName "/ws")
                   (CodebaseIndex.files Examples.walked_index)) ->
     forall f, In f (CodebaseIndex.files Examples.walked_index) ->
       write_denied Examples.empty_disk
         (blobPath "/store" (getWorkspaceName "/ws") (CodeFile.id f)) = false ->
       blobs d' !! blobPath "/store" (getWorkspaceName "/ws") (CodeFile.id f)
       = Some (CodeFile.content f)).
Proof.
  apply (load_lacks_unpersisted_fields "/store" "/ws" Examples.walked_index
           Examples.empty_disk); reflexivity.
Defined.

Section Operations.

Variable storagePath : string.

Local Abbreviation indexFile := (Storage.indexFile storagePath).
Local Abbreviation blobPath := (Storage.blobPath storagePath).
Local Abbreviation contentsDir := (Storage.contentsDir storagePath).
Local Abbreviation saveIndex := (Storage.saveIndex storagePath).
Local Abbreviation loadIndex := (Storage.loadIndex storagePath).
Local Abbreviation deleteIndex := (Storage.deleteIndex storagePath).
Local Abbreviation getIndexMetadata := (Storage.getIndexMetadata storagePath).
Local Abbreviation write_blobs := (Storage.write_blobs storagePath).
Local Abbreviation loaded_content := (Storage.loaded_content storagePath).
Local Abbreviation loaded_from := (Storage.loaded_from storagePath).
Local Abbreviation blobPaths := (Storage.blobPaths storagePath).

(** [loadIndex] in all cases. *)
Lemma loadIndex_cases (workspacePath : string) (d : disk) :
  let workspaceName := getWorkspaceName workspacePath in
  loadIndex workspacePath d
  = Js.Normal
      (if read_denied d (indexFile workspaceName) then None
       else docs d !! indexFile workspaceName ≫= loaded_from d workspaceName) d.
Proof.
  intros workspaceName.
  unfold Storage.loadIndex, Js.try_catch, Js.bind, existsSync, readDoc.
  fold workspaceName. cbv beta iota zeta.
  destruct (docs d !! indexFile workspaceName) as [content|] eqn:Hdoc.
  - rewrite bool_decide_eq_true_2 by (eexists; reflexivity).
    cbn [negb]. cbv beta iota.
    destruct (read_denied d (indexFile workspaceName)); [reflexivity|].
    rewrite ?Hdoc.
    destruct content as [|fileCount totalSize lastIndexed|c]; try reflexivity.
    cbn [JSON_parse mbind option_bind]. unfold Js.ret, Storage.loadFileContents.
    unfold Storage.loaded_from. do 3 f_equal. apply List.map_ext. intros m.
    unfold readFile, Storage.loaded_content.
    destruct (read_denied d (blobPath workspaceName (id m))); [reflexivity|].
    destruct (blobs d !! _); reflexivity.
  - rewrite bool_decide_eq_false_2 by (intros [? ?]; discriminate).
    simpl. destruct (read_denied d (indexFile workspaceName)); reflexivity.
Qed.

(** X14. [loadIndex] never throws and never changes the store.  It
    returns nothing when the metadata document is absent, cannot be read,
    is a text that [JSON.parse] rejects, or is JSON without an array of
    files.  On a document that [saveIndex] wrote and that can be read it
    returns the document's fields, each file with the text of its blob,
    or with the empty string when the blob is absent or cannot be read. *)
Theorem loadIndex_never_fails (workspacePath : string) (d : disk) :
  let workspaceName := getWorkspaceName workspacePath in
  exists r : option CodebaseIndex.t,
    loadIndex workspacePath d = Js.Normal r d /\
    (docs d !! indexFile workspaceName = None \/
     read_denied d (indexFile workspaceName) = true \/
     docs d !! indexFile workspaceName = Some Unparsable \/
     (exists fileCount totalSize lastIndexed,
        docs d !! indexFile workspaceName
        = Some (Headless fileCount totalSize lastIndexed)) ->
     r = None) /\
    (forall c, docs d !! indexFile workspaceName = Some (Indexed c) ->
       read_denied d (indexFile workspaceName) = false ->
       exists loaded, r = Some loaded /\
         CodebaseIndex.rootPath loaded = rootPath c /\
         CodebaseIndex.fileCount loaded = fileCount c /\
         CodebaseIndex.totalSize loaded = totalSize c /\
         CodebaseIndex.lastIndexed loaded = lastIndexed c /\
         CodebaseIndex.languages loaded = languages c /\
         List.Forall2
           (fun m g => id m = CodeFile.id g /\ path m = CodeFile.path g /\
                       relativePath m = CodeFile.relativePath g /\
                       language m = CodeFile.language g /\
                       size m = CodeFile.size g /\ hash m = CodeFile.hash g /\
                       CodeFile.content g = loaded_content d workspaceName m)
           (files c) (CodebaseIndex.files loaded)).
Proof.
  intros workspaceName. eexists. split; [apply loadIndex_cases|]. fold workspaceName.
  split.
  - intros [Hnone|[Hdenied|[Hbad|(a & b & c & Hbad)]]];
      rewrite ?Hnone, ?Hdenied, ?Hbad; destruct (read_denied d _); reflexivity.
  - intros c Hdoc Hread. rewrite Hread, Hdoc. eexists. split; [reflexivity|].
    repeat split. simpl. apply Forall2_map_same. intros m _. repeat split.
Qed.

(** X15. When the metadata document cannot be written, [saveIndex] throws
    and leaves the store as it was: no blob is written. *)
Theorem saveIndex_refused (workspacePath : string) (ix : CodebaseIndex.t) (d : disk) :
  write_denied d (indexFile (getWorkspaceName workspacePath)) = true ->
  saveIndex workspacePath ix d = Js.Throws "EACCES" d.
Proof.
  intros Hdenied. unfold Storage.saveIndex, Js.try_catch, Js.bind, writeDoc.
  rewrite Hdenied. reflexivity.
Qed.

Lemma write_blobs_denied (workspaceName p : string) (files : list CodeFile.t) :
  forall d : disk,
    write_denied d p = true ->
    blobs (write_blobs workspaceName files d) !! p = blobs d !! p.
Proof.
  induction files as [|file files IH]; intros d Hdenied; simpl; [reflexivity|].
  destruct (write_blob_frame storagePath workspaceName d file) as (_ & Hwd & _).
  rewrite IH by (rewrite Hwd; exact Hdenied).
  unfold Storage.write_blob.
  destruct (write_denied d (blobPath workspaceName (CodeFile.id file))) eqn:Hw;
    [reflexivity|].
  simpl. apply lookup_insert_ne. intros Heq. congruence.
Qed.

(** X16. A content blob that cannot be written does not make [saveIndex]
    fail: when the metadata document and the contents directory take
    writes, [saveIndex] returns, the document is written, and a blob path
    that refuses writes keeps what it held. *)
Theorem saveIndex_swallows_blob_failures
    (workspacePath : string) (ix : CodebaseIndex.t) (d : disk) :
  let workspaceName := getWorkspaceName workspacePath in
  write_denied d (indexFile workspaceName) = false ->
  write_denied d (contentsDir workspaceName) = false ->
  exists d' : disk,
    saveIndex workspacePath ix d = Js.Normal tt d' /\
    docs d' !! indexFile workspaceName = Some (Indexed (compact ix)) /\
    forall p, write_denied d p = true -> blobs d' !! p = blobs d !! p.
Proof.
  intros workspaceName Hdoc Hdir. eexists.
  split; [apply saveIndex_unfold; assumption|]. fold workspaceName.
  destruct (write_blobs_frame storagePath workspaceName (CodebaseIndex.files ix)
              (write_doc (indexFile workspaceName) (compact ix) d)) as (Hd & _ & _).
  split; [rewrite Hd; apply lookup_insert_eq|].
  intros p Hp. now rewrite write_blobs_denied.
Qed.

(** X17. [saveIndex] removes nothing: however it ends, every blob that no
    file of the saved index writes to, and every metadata document of
    another path, is what it was.  The blobs of an earlier snapshot stay
    in the store. *)
Theorem saveIndex_removes_nothing
    (workspacePath : string) (ix : CodebaseIndex.t) (d : disk) :
  let workspaceName := getWorkspaceName workspacePath in
  exists d' : disk,
    (saveIndex workspacePath ix d = Js.Normal tt d' \/
     exists e, saveIndex workspacePath ix d = Js.Throws e d') /\
    (forall p, (forall f, In f (CodebaseIndex.files ix) ->
                          blobPath workspaceName (CodeFile.id f) <> p) ->
               blobs d' !! p = blobs d !! p) /\
    (forall q, q <> indexFile workspaceName -> docs d' !! q = docs d !! q).
Proof.
  intros workspaceName.
  destruct (write_denied d (indexFile workspaceName)) eqn:Hdoc.
  - exists d. split; [right; exists "EACCES";
                      unfold Storage.saveIndex, Js.try_catch, Js.bind, writeDoc;
                      fold workspaceName; rewrite Hdoc; reflexivity|]. auto.
  - destruct (write_denied d (contentsDir workspaceName)) eqn:Hdir.
    + exists (write_doc (indexFile workspaceName) (compact ix) d). split; [right|].
      * exists "EACCES".
        unfold Storage.saveIndex, Js.try_catch, Js.bind, writeDoc,
          Storage.saveFileContents, Js.bind, mkdirSync.
        fold workspaceName. rewrite Hdoc. simpl. rewrite Hdir. reflexivity.
      * split; [reflexivity|]. intros q Hq. simpl. now apply lookup_insert_ne.
    + exists (write_blobs workspaceName (CodebaseIndex.files ix)
                (write_doc (indexFile workspaceName) (compact ix) d)).
      split; [left; apply saveIndex_unfold; assumption|].
      destruct (write_blobs_frame storagePath workspaceName (CodebaseIndex.files ix)
                  (write_doc (indexFile workspaceName) (compact ix) d)) as (Hd & _ & _).
      split.
      * intros p Hp. now rewrite write_blobs_other.
      * intros q Hq. rewrite Hd. simpl. now apply lookup_insert_ne.
Qed.

Lemma getIndexMetadata_cases (workspacePath : string) (d : disk) :
  let workspaceName := getWorkspaceName workspacePath in
  getIndexMetadata workspacePath d
  = Js.Normal
      (if read_denied d (indexFile workspaceName) then None
       else docs d !! indexFile workspaceName ≫= metadata_from) d.
Proof.
  intros workspaceName.
  unfold Storage.getIndexMetadata, Js.try_catch, Js.bind, existsSync, readDoc.
  fold workspaceName. cbv beta iota zeta.
  destruct (docs d !! indexFile workspaceName) as [content|] eqn:Hdoc.
  - rewrite bool_decide_eq_true_2 by (eexists; reflexivity).
    cbn [negb]. cbv beta iota.
    destruct (read_denied d (indexFile workspaceName)); [reflexivity|].
    rewrite ?Hdoc. destruct content; reflexivity.
  - rewrite bool_decide_eq_false_2 by (intros [? ?]; discriminate).
    simpl. destruct (read_denied d (indexFile workspaceName)); reflexivity.
Qed.


Lemma filter_map_swap {A B} (p : B -> bool) (h : A -> B) (l : list A) :
  List.filter p (List.map h l) = List.map h (List.filter (fun x => p (h x)) l).
Proof.
  induction l as [|x l IH]; [reflexivity|]. simpl.
  destruct (p (h x)); simpl; now rewrite IH.
Qed.

Lemma getSymbols_reloaded (files : list CodeFile.t) :
  forall result : gmap string (list string),
    fold_left
      (fun result file =>
         match CodeFile.symbols file with
         | Some (s :: symbols) => <[CodeFile.relativePath file := s :: symbols]> result
         | _ => result
         end)
      (List.map reloaded_file files) result
    = result.
Proof. induction files as [|f files IH]; intros result; [reflexivity|apply IH]. Qed.

Lemma getFileContext_reloaded (filePath : string) (files : list CodeFile.t) :
  match List.find (fun f => bool_decide (CodeFile.relativePath f = filePath)
                            || bool_decide (CodeFile.path f = filePath))
                  (List.map reloaded_file files) with
  | Some file => CodeFile.content file
  | None => ""
  end
  = match List.find (fun f => bool_decide (CodeFile.relativePath f = filePath)
                              || bool_decide (CodeFile.path f = filePath)) files with
    | Some file => CodeFile.content file
    | None => ""
    end.
Proof.
  induction files as [|f files IH]; [reflexivity|].
  change (List.map reloaded_file (f :: files))
    with (reloaded_file f :: List.map reloaded_file files).
  cbn [List.find].
  change (CodeFile.relativePath (reloaded_file f)) with (CodeFile.relativePath f).
  change (CodeFile.path (reloaded_file f)) with (CodeFile.path f).
  destruct (bool_decide (CodeFile.relativePath f = filePath)
            || bool_decide (CodeFile.path f = filePath)); [reflexivity|exact IH].
Qed.

(** X12. When the metadata document and every content blob can be
    written and read and no two files share the path of a content blob
    (as when their ids are distinct and hold no path separator),
    [saveIndex] followed by [loadIndex] returns the saved index without
    its symbols, modification times and summary.  On the index so returned
    [getSymbols] is empty and [searchFiles] finds a file by its relative
    path or its content only, no longer by a symbol; [getFileContext]
    and [getFilesByLanguage] answer as they did on the saved index. *)
Theorem reload_answers_queries
    (workspacePath : string) (ix : CodebaseIndex.t) (d : disk) :
  let workspaceName := getWorkspaceName workspacePath in
  List.NoDup (blobPaths workspaceName (CodebaseIndex.files ix)) ->
  write_denied d (indexFile workspaceName) = false ->
  read_denied d (indexFile workspaceName) = false ->
  write_denied d (contentsDir workspaceName) = false ->
  (forall f, In f (CodebaseIndex.files ix) ->
     write_denied d (blobPath workspaceName (CodeFile.id f)) = false /\
     read_denied d (blobPath workspaceName (CodeFile.id f)) = false) ->
  exists d' : disk,
    saveIndex workspacePath ix d = Js.Normal tt d' /\
    loadIndex workspacePath d' = Js.Normal (Some (reloaded ix)) d' /\
    Indexer.getSymbols (reloaded ix) = ∅ /\
    (forall filePath,
       Indexer.getFileContext (reloaded ix) filePath = Indexer.getFileContext ix filePath) /\
    (forall language,
       Indexer.getFilesByLanguage (reloaded ix) language
       = List.map reloaded_file (Indexer.getFilesByLanguage ix language)) /\
    (forall query limit,
       Indexer.searchFiles (reloaded ix) query limit
       = take limit
           (List.map reloaded_file
              (List.filter (Indexer.matches_text (Indexer.toLowerCase query))
                           (CodebaseIndex.files ix)))).
Proof.
  intros workspaceName Hnodup Hwdoc Hrdoc Hdir Hblobs.
  set (d1 := write_doc (indexFile workspaceName) (compact ix) d).
  set (d' := write_blobs workspaceName (CodebaseIndex.files ix) d1).
  destruct (write_blobs_frame storagePath workspaceName (CodebaseIndex.files ix) d1)
    as (Hdocs & Hwd & Hrd). fold d' in Hdocs, Hwd, Hrd.
  change (read_denied d1) with (read_denied d) in Hrd.
  assert (Hdoc : docs d' !! indexFile workspaceName = Some (Indexed (compact ix))).
  { rewrite Hdocs. apply lookup_insert_eq. }
  assert (Hwritten : forall f, In f (CodebaseIndex.files ix) ->
            blobs d' !! blobPath workspaceName (CodeFile.id f) = Some (CodeFile.content f)).
  { intros f Hf. apply write_blobs_written; [exact Hnodup|exact Hf|]. apply Hblobs, Hf. }
  exists d'. split; [apply saveIndex_unfold; assumption|]. split; [|split; [|split; [|split]]].
  - rewrite loadIndex_cases. fold workspaceName. rewrite Hrd, Hrdoc, Hdoc.
    simpl. do 2 f_equal. rewrite List.map_map. unfold reloaded. f_equal.
    apply List.map_ext_in. intros f Hf.
    unfold Storage.loaded_content, reloaded_file. fold workspaceName.
    change (id (compact_file f)) with (CodeFile.id f).
    rewrite Hrd. destruct (Hblobs f Hf) as [_ ->]. rewrite (Hwritten f Hf). reflexivity.
  - unfold Indexer.getSymbols, reloaded. cbn [CodebaseIndex.files expand].
    apply getSymbols_reloaded.
  - intros filePath. unfold Indexer.getFileContext, reloaded.
    cbn [CodebaseIndex.files expand]. apply getFileContext_reloaded.
  - intros language. unfold Indexer.getFilesByLanguage, reloaded.
    cbn [CodebaseIndex.files expand]. apply filter_map_swap.
  - intros query limit. unfold Indexer.searchFiles, reloaded.
    cbn [CodebaseIndex.files expand]. rewrite filter_map_swap. do 2 f_equal.
    apply List.filter_ext. intros f. unfold Indexer.matches_query, Indexer.matches_text.
    cbn. apply orb_false_r.
Qed.

Local Abbreviation deleted := (Storage.deleted storagePath).

Lemma filter_outside_id {A} (dir : string) (m : gmap string A) :
  filter (fun kv => inside dir kv.1 = true) m = ∅ ->
  filter (fun kv => inside dir kv.1 = false) m = m.
Proof.
  intros Hempty. apply map_filter_id. intros i x Hix. simpl.
  destruct (inside dir i) eqn:Hin; [|reflexivity].
  assert (Hsome : filter (fun kv => inside dir kv.1 = true) m !! i = Some x)
    by (apply map_lookup_filter_Some_2; assumption).
  rewrite Hempty, lookup_empty in Hsome. discriminate.
Qed.

Lemma filter_outside_idempotent {A} (dir : string) (m : gmap string A) :
  filter (fun kv => inside dir kv.1 = true)
         (filter (fun kv => inside dir kv.1 = false) m) = ∅.
Proof.
  apply map_empty. intros i. apply map_lookup_filter_None.
  destruct (filter (fun kv => inside dir kv.1 = false) m !! i) as [x|] eqn:Hix;
    [right|now left].
  apply map_lookup_filter_Some in Hix. destruct Hix as [_ Hout]. simpl in *.
  intros y _. congruence.
Qed.

(** [deleteIndex] when both removals are allowed. *)
Lemma deleteIndex_unfold (workspacePath : string) (d : disk) :
  let workspaceName := getWorkspaceName workspacePath in
  write_denied d (indexFile workspaceName) = false ->
  write_denied d (Str.join storagePath workspaceName) = false ->
  deleteIndex workspacePath d = Js.Normal tt (deleted workspacePath d).
Proof.
  intros workspaceName Hdoc Hdir.
  unfold Storage.deleteIndex, Storage.deleted, Js.try_catch, Js.bind, existsSync,
    unlink, existsDir, rm_recursive.
  fold workspaceName. cbv beta iota zeta.
  set (dir := Str.join storagePath workspaceName) in *.
  assert (Hrest : forall docs1 : gmap string document,
    negb (bool_decide (filter (fun kv : string * string => inside dir kv.1 = true)
                              (blobs d) = ∅))
    || negb (bool_decide (filter (fun kv : string * document =>
                                    inside dir kv.1 = true) docs1 = ∅)) = false ->
    mkDisk docs1 (blobs d) (write_denied d) (read_denied d)
    = mkDisk (filter (fun kv => inside dir kv.1 = false) docs1)
             (filter (fun kv => inside dir kv.1 = false) (blobs d))
             (write_denied d) (read_denied d)).
  { intros docs1 Hnone. apply orb_false_iff in Hnone. destruct Hnone as [Hb Hd].
    apply negb_false_iff, bool_decide_eq_true_1 in Hb, Hd.
    rewrite !filter_outside_id by assumption. reflexivity. }
  destruct (docs d !! indexFile workspaceName) as [c|] eqn:Hpresent.
  - rewrite bool_decide_eq_true_2 by (eexists; reflexivity). rewrite Hdoc.
    cbn [docs blobs write_denied read_denied].
    destruct (negb _ || negb _) eqn:Hany; cbn [docs blobs write_denied read_denied].
    + rewrite Hdir. reflexivity.
    + unfold Js.ret. rewrite <- Hrest by assumption. reflexivity.
  - rewrite bool_decide_eq_false_2 by (intros [? ?]; discriminate).
    unfold Js.ret at 1. rewrite (delete_id (docs d)) by assumption.
    destruct (negb _ || negb _) eqn:Hany.
    + rewrite Hdir. reflexivity.
    + unfold Js.ret. rewrite <- Hrest by assumption. now destruct d.
Qed.

Lemma prefix_append_cancel (a b c : string) :
  String.prefix (a +:+ b) (a +:+ c) = String.prefix b c.
Proof.
  induction a as [|x a IH]; [reflexivity|].
  rewrite !append_cons, IndexerFacts.prefix_cons.
  destruct (ascii_dec x x) as [_|Hne]; [exact IH|congruence].
Qed.

(** A name followed by a separator is a prefix of another name followed
    by [c] only when the names are equal and [c] is the separator. *)
Lemma prefix_name (c : ascii) (rest : string) : forall n n' : string,
  Glob.lacks "/" n' = true -> Glob.lacks c n = true ->
  String.prefix (n +:+ "/") (n' +:+ String c rest) = true ->
  n = n' /\ c = "/"%char.
Proof.
  induction n as [|x n IH]; intros [|y n'] Hsep Hc Hpre.
  - change ("" +:+ "/") with "/" in Hpre. change ("" +:+ String c rest) with (String c rest) in Hpre.
    rewrite IndexerFacts.prefix_cons in Hpre.
    destruct (ascii_dec "/" c) as [<-|_]; [auto|discriminate].
  - change ("" +:+ "/") with "/" in Hpre. rewrite append_cons, IndexerFacts.prefix_cons in Hpre.
    destruct (ascii_dec "/" y) as [<-|_]; [|discriminate].
    rewrite GlobFacts.lacks_cons in Hsep. discriminate.
  - change ("" +:+ String c rest) with (String c rest) in Hpre.
    rewrite append_cons, IndexerFacts.prefix_cons in Hpre.
    destruct (ascii_dec x c) as [<-|_]; [|discriminate].
    rewrite GlobFacts.lacks_cons in Hc. unfold Str.eqb_ascii in Hc.
    rewrite Ascii.eqb_refl in Hc. discriminate.
  - rewrite !append_cons, IndexerFacts.prefix_cons in Hpre.
    destruct (ascii_dec x y) as [<-|_]; [|discriminate].
    rewrite GlobFacts.lacks_cons in Hsep, Hc.
    apply andb_prop in Hsep, Hc. destruct Hsep as [_ Hsep], Hc as [_ Hc].
    destruct (IH n' Hsep Hc Hpre) as [-> ->]. auto.
Qed.

(** What goes on after the stem of a directory with a plain segment lies
    inside the directory. *)
Lemma inside_stem (dir first rest : string) :
  plain first = true -> rest = "" \/ (exists r, rest = String "/" r) ->
  inside dir (Str.stem dir +:+ first +:+ rest) = true.
Proof.
  intros Hfirst Hrest. unfold inside.
  destruct (bool_decide (Str.stem dir = "")) eqn:Hstem;
    [|apply SymbolsFacts.prefix_append].
  apply bool_decide_eq_true_1 in Hstem. rewrite Hstem.
  change ("" +:+ first +:+ rest) with (first +:+ rest).
  pose proof (plain_lacks first Hfirst) as Hlacks.
  apply plain_spec in Hfirst. destruct Hfirst as (_ & Hne & _ & Hdots).
  apply andb_true_iff. split; apply negb_true_iff.
  - destruct first as [|c first]; [congruence|].
    rewrite append_cons, startsWith_slash_cons.
    rewrite GlobFacts.lacks_cons in Hlacks. apply andb_prop in Hlacks.
    destruct Hlacks as [Hc _]. now apply negb_true_iff in Hc.
  - apply bool_decide_eq_false_2.
    destruct Hrest as [->|(r & ->)].
    + rewrite append_nil_r, split_lacks by exact Hlacks. simpl. congruence.
    + rewrite split_app_sep, split_lacks by exact Hlacks. simpl. congruence.
Qed.

(** The stem of the workspace's directory. *)
Lemma home_stem (name : string) :
  name = "" \/ plain name = true ->
  Str.stem (Str.join storagePath name)
  = Str.stem storagePath +:+ (if bool_decide (name = "") then "" else name +:+ "/").
Proof.
  intros [->|Hname].
  - rewrite join_nothing. cbn [bool_decide]. now rewrite append_nil_r.
  - rewrite bool_decide_eq_false_2 by (apply plain_not_empty, Hname).
    now destruct (join_plain storagePath name Hname) as [_ ->].
Qed.

(** The content blobs of a workspace lie inside its directory. *)
Lemma inside_blobPath (workspaceName id : string) :
  workspaceName = "" \/ plain workspaceName = true -> Glob.lacks "/" id = true ->
  inside (Str.join storagePath workspaceName) (blobPath workspaceName id) = true.
Proof.
  intros Hname Hid. rewrite blobPath_stem by assumption.
  apply inside_stem; [reflexivity|right; eexists; reflexivity].
Qed.

(** X19. When the metadata document and the workspace's directory can be
    removed, [deleteIndex] returns; afterwards [loadIndex] and
    [getIndexMetadata] return nothing, no content blob of the workspace
    whose id holds no path separator is left, and deleting again changes
    nothing. *)
Theorem deleteIndex_then_absent (workspacePath : string) (d : disk) :
  let workspaceName := getWorkspaceName workspacePath in
  write_denied d (indexFile workspaceName) = false ->
  write_denied d (Str.join storagePath workspaceName) = false ->
  exists d' : disk,
    deleteIndex workspacePath d = Js.Normal tt d' /\
    loadIndex workspacePath d' = Js.Normal None d' /\
    getIndexMetadata workspacePath d' = Js.Normal None d' /\
    (forall id, Glob.lacks "/" id = true ->
                blobs d' !! blobPath workspaceName id = None) /\
    deleteIndex workspacePath d' = Js.Normal tt d'.
Proof.
  intros workspaceName Hdoc Hdir. exists (deleted workspacePath d).
  assert (Hgone : docs (deleted workspacePath d) !! indexFile workspaceName = None).
  { unfold Storage.deleted. cbn [docs]. fold workspaceName.
    apply map_lookup_filter_None. left. apply lookup_delete_eq. }
  split; [apply deleteIndex_unfold; assumption|]. split; [|split; [|split]].
  - rewrite loadIndex_cases. fold workspaceName. rewrite Hgone.
    now destruct (read_denied _ _).
  - rewrite getIndexMetadata_cases. fold workspaceName. rewrite Hgone.
    now destruct (read_denied _ _).
  - intros id Hid. unfold Storage.deleted. cbn [blobs]. fold workspaceName.
    apply map_lookup_filter_None. right. intros x _. simpl.
    rewrite inside_blobPath; [discriminate|apply getWorkspaceName_plain|exact Hid].
  - rewrite deleteIndex_unfold by assumption. f_equal.
    unfold Storage.deleted. cbn [docs blobs write_denied read_denied].
    fold workspaceName. f_equal.
    + rewrite <- map_filter_delete, delete_delete_eq.
      rewrite map_filter_filter. apply map_filter_ext. intros i x _. simpl. tauto.
    + rewrite map_filter_filter. apply map_filter_ext. intros i x _. simpl. tauto.
Qed.

(** The metadata document and the content blobs of a workspace lie
    outside the directory of a workspace with another name. *)
Lemma indexFile_outside (n n' : string) :
  plain n = true -> Glob.lacks "." n = true -> Glob.lacks "/" n' = true ->
  inside (Str.join storagePath n) (indexFile n') = false.
Proof.
  intros Hn Hdot Hsep. unfold inside.
  rewrite home_stem, indexFile_stem by auto.
  rewrite (bool_decide_eq_false_2 (n = "")) by (apply plain_not_empty, Hn).
  rewrite bool_decide_eq_false_2.
  - rewrite prefix_append_cancel. change ".json" with (String "." "json").
    destruct (String.prefix (n +:+ "/") (n' +:+ String "." "json")) eqn:Hpre;
      [|reflexivity].
    destruct (prefix_name "." "json" n n' Hsep Hdot Hpre) as [_ Heq]. discriminate.
  - intros Heq. apply (f_equal String.length) in Heq.
    rewrite !append_length in Heq. simpl in Heq. lia.
Qed.

Lemma blobPath_outside (n n' id : string) :
  plain n = true -> plain n' = true -> n <> n' -> Glob.lacks "/" id = true ->
  inside (Str.join storagePath n) (blobPath n' id) = false.
Proof.
  intros Hn Hn' Hne Hid. unfold inside.
  rewrite blobPath_stem, !home_stem by auto.
  rewrite (bool_decide_eq_false_2 (n = "")), (bool_decide_eq_false_2 (n' = ""))
    by (apply plain_not_empty; assumption).
  rewrite bool_decide_eq_false_2.
  - rewrite !append_assoc, prefix_append_cancel.
    change ("/" +:+ ?s) with (String "/" s).
    match goal with
    | |- String.prefix _ (n' +:+ String "/" ?rest) = false =>
        destruct (String.prefix (n +:+ "/") (n' +:+ String "/" rest)) eqn:Hpre;
          [|reflexivity];
        destruct (prefix_name "/" rest n n' (plain_lacks n' Hn') (plain_lacks n Hn) Hpre)
          as [Heq _]; congruence
    end.
  - intros Heq. apply (f_equal String.length) in Heq.
    rewrite !append_length in Heq. simpl in Heq. lia.
Qed.

Lemma filter_outside_lookup {A} (dir k : string) (m : gmap string A) :
  inside dir k = false ->
  filter (fun kv => inside dir kv.1 = false) m !! k = m !! k.
Proof.
  intros Hout. destruct (m !! k) as [x|] eqn:Hk.
  - apply map_lookup_filter_Some_2; assumption.
  - apply map_lookup_filter_None_2. now left.
Qed.

(** What [deleteIndex] leaves alone, however it ends. *)
Lemma deleteIndex_frame (workspacePath : string) (d : disk) :
  let workspaceName := getWorkspaceName workspacePath in
  exists d' : disk,
    deleteIndex workspacePath d = Js.Normal tt d' /\
    (forall k, k <> indexFile workspaceName ->
               inside (Str.join storagePath workspaceName) k = false ->
               docs d' !! k = docs d !! k) /\
    (forall k, inside (Str.join storagePath workspaceName) k = false ->
               blobs d' !! k = blobs d !! k).
Proof.
  intros workspaceName.
  unfold Storage.deleteIndex, Js.try_catch, Js.bind, existsSync, unlink, existsDir,
    rm_recursive, Js.ret.
  fold workspaceName. cbv beta iota zeta.
  assert (Hsecond : forall d1 : disk,
    (forall k, k <> indexFile workspaceName -> docs d1 !! k = docs d !! k) ->
    blobs d1 = blobs d ->
    exists d' : disk,
      match
        (if negb (bool_decide
                    (filter (fun kv : string * string =>
                               inside (Str.join storagePath workspaceName) kv.1 = true)
                            (blobs d1) = ∅))
            || negb (bool_decide
                       (filter (fun kv : string * document =>
                                  inside (Str.join storagePath workspaceName) kv.1 = true)
                               (docs d1) = ∅))
         then rm_recursive (Str.join storagePath workspaceName)
         else fun s => Js.Normal tt s) d1
      with
      | Js.Normal a s' => Js.Normal a s'
      | Js.Throws _ s' => Js.Normal tt s'
      | Js.Diverges => Js.Diverges
      end = Js.Normal tt d' /\
      (forall k, k <> indexFile workspaceName ->
                 inside (Str.join storagePath workspaceName) k = false ->
                 docs d' !! k = docs d !! k) /\
      (forall k, inside (Str.join storagePath workspaceName) k = false ->
                 blobs d' !! k = blobs d !! k)).
  { intros d1 Hdocs Hblobs. unfold rm_recursive.
    destruct (negb _ || negb _);
      [destruct (write_denied d1 (Str.join storagePath workspaceName))|];
      eexists; (split; [reflexivity|]); cbn [docs blobs];
      (split; [intros k Hk Hout|intros k Hout]);
      rewrite ?filter_outside_lookup by exact Hout;
      rewrite ?Hblobs; auto. }
  destruct (bool_decide (is_Some (docs d !! indexFile workspaceName)));
    [destruct (write_denied d (indexFile workspaceName))|].
  - exists d. auto.
  - apply Hsecond; [|reflexivity].
    intros k Hk. cbn [docs]. now apply lookup_delete_ne.
  - apply Hsecond; auto.
Qed.

(** X30. The store is keyed by the workspace's name, the base name of
    its path with every character other than a letter, a digit or a
    hyphen replaced by an underscore.  Two workspace paths with the same
    name share one stored index: each operation on one is the operation
    on the other.  For two paths with different names, neither of them
    empty, [deleteIndex] of one returns and leaves the metadata document
    of the other and its content blobs (with ids that hold no path
    separator) as they were.  For a path whose name is empty, such as
    the root [/], [path.join] gives the storage directory itself: when
    the removals are allowed, [deleteIndex] of it leaves no metadata
    document and no such content blob of any workspace. *)
Theorem store_keyed_by_name (p q : string) (d : disk) :
  (getWorkspaceName p = getWorkspaceName q ->
   loadIndex q d = loadIndex p d /\
   getIndexMetadata q d = getIndexMetadata p d /\
   deleteIndex q d = deleteIndex p d /\
   forall ix, saveIndex q ix d = saveIndex p ix d) /\
  (getWorkspaceName p <> getWorkspaceName q ->
   getWorkspaceName p <> "" -> getWorkspaceName q <> "" ->
   exists d' : disk,
     deleteIndex p d = Js.Normal tt d' /\
     docs d' !! indexFile (getWorkspaceName q) = docs d !! indexFile (getWorkspaceName q) /\
     forall id, Glob.lacks "/" id = true ->
                blobs d' !! blobPath (getWorkspaceName q) id
                = blobs d !! blobPath (getWorkspaceName q) id) /\
  (getWorkspaceName p = "" ->
   write_denied d (indexFile (getWorkspaceName p)) = false ->
   write_denied d (Str.join storagePath (getWorkspaceName p)) = false ->
   exists d' : disk,
     deleteIndex p d = Js.Normal tt d' /\
     docs d' !! indexFile (getWorkspaceName q) = None /\
     forall id, Glob.lacks "/" id = true ->
                blobs d' !! blobPath (getWorkspaceName q) id = None).
Proof.
  assert (Hsep : forall s, Glob.lacks "/" (getWorkspaceName s) = true)
    by (intros s; apply sanitize_all_lacks; discriminate).
  assert (Hdot : forall s, Glob.lacks "." (getWorkspaceName s) = true)
    by (intros s; apply sanitize_all_lacks; discriminate).
  split; [|split].
  - intros Hsame.
    unfold Storage.loadIndex, Storage.getIndexMetadata, Storage.deleteIndex,
      Storage.saveIndex.
    rewrite Hsame. auto.
  - intros Hne Hp Hq.
    assert (Hplain_p : plain (getWorkspaceName p) = true)
      by (destruct (getWorkspaceName_plain p); [congruence|assumption]).
    assert (Hplain_q : plain (getWorkspaceName q) = true)
      by (destruct (getWorkspaceName_plain q); [congruence|assumption]).
    destruct (deleteIndex_frame p d) as (d' & Hrun & Hdocs & Hblobs).
    exists d'. split; [exact Hrun|]. split.
    + apply Hdocs; [|apply indexFile_outside; auto].
      rewrite !indexFile_stem by auto. intros Heq.
      apply String.app_inj, append_inv_tail in Heq. congruence.
    + intros id Hid. apply Hblobs, blobPath_outside; auto.
  - intros Hp Hdoc Hdir. exists (deleted p d).
    split; [apply deleteIndex_unfold; assumption|].
    unfold Storage.deleted. cbn [docs blobs]. rewrite Hp.
    assert (Hhome : Str.stem (Str.join storagePath "") = Str.stem storagePath)
      by apply join_nothing.
    split.
    + apply map_lookup_filter_None. right. intros x _. simpl.
      rewrite indexFile_stem by auto.
      rewrite <- Hhome, <- (append_nil_r (getWorkspaceName q +:+ ".json")).
      rewrite <- append_assoc, append_assoc.
      rewrite inside_stem; [discriminate| |now left].
      apply extension_plain; [auto|reflexivity|simpl; lia].
    + intros id Hid. apply map_lookup_filter_None. right. intros x _. simpl.
      rewrite blobPath_stem, home_stem by (auto using getWorkspaceName_plain).
      rewrite <- Hhome.
      destruct (getWorkspaceName_plain q) as [Hq|Hq].
      * rewrite Hq. cbn [bool_decide]. rewrite append_nil_r.
        rewrite inside_stem; [discriminate|reflexivity|right; eexists; reflexivity].
      * rewrite bool_decide_eq_false_2 by (apply plain_not_empty, Hq).
        rewrite !append_assoc.
        rewrite inside_stem; [discriminate|exact Hq|right; eexists; reflexivity].
Qed.

End Operations.

(** Ids that hold a path separator.  [path.join] resolves the segments of
    an id like those of any path, so two ids may name one content blob,
    and the blob of one workspace may be the blob of another, outside the
    directory that [deleteIndex] removes. *)
Lemma blobPath_shared_by_two_ids :
  blobPath "/store" "ws" "a/../b" = blobPath "/store" "ws" "b".
Proof. vm_compute. reflexivity. Qed.

Lemma blobPath_outside_directory :
  blobPath "/store" "ws" "../../other/contents/7" = blobPath "/store" "other" "7" /\
  inside (Str.join "/store" "ws") (blobPath "/store" "ws" "../../other/contents/7")
  = false.
Proof. split; vm_compute; reflexivity. Qed.

Lemma reload_answers_queries_witness :
  exists d' : disk,
    saveIndex "/store" "/ws" Examples.walked_index Examples.empty_disk = Js.Normal tt d' /\
    loadIndex "/store" "/ws" d' = Js.Normal (Some (reloaded Examples.walked_index)) d' /\
    Indexer.getSymbols (reloaded Examples.walked_index) = ∅ /\
    (forall filePath,
       Indexer.getFileContext (reloaded Examples.walked_index) filePath
       = Indexer.getFileContext Examples.walked_index filePath) /\
    (forall language,
       Indexer.getFilesByLanguage (reloaded Examples.walked_index) language
       = List.map reloaded_file
           (Indexer.getFilesByLanguage Examples.walked_index language)) /\
    (forall query limit,
       Indexer.searchFiles (reloaded Examples.walked_index) query limit
       = take limit
           (List.map reloaded_file
              (List.filter (Indexer.matches_text (Indexer.toLowerCase query))
                           (CodebaseIndex.files Examples.walked_index)))).
Proof.
  apply (reload_answers_queries "/store" "/ws" Examples.walked_index Examples.empty_disk).
  - exact walked_blobs_distinct.
  - reflexivity.
  - reflexivity.
  - reflexivity.
  - intros f _. split; reflexivity.
Defined.

Lemma saveIndex_refused_witness :
  saveIndex "/store" "/ws" Examples.walked_index Examples.locked_disk
  = Js.Throws "EACCES" Examples.locked_disk.
Proof.
  apply (saveIndex_refused "/store" "/ws" Examples.walked_index Examples.locked_disk).
  reflexivity.
Defined.

Lemma saveIndex_swallows_blob_failures_witness :
  exists d' : disk,
    saveIndex "/store" "/ws" Examples.walked_index Examples.blobs_refused
    = Js.Normal tt d' /\
    docs d' !! indexFile "/store" (getWorkspaceName "/ws")
    = Some (Indexed (compact Examples.walked_index)) /\
    forall p, write_denied Examples.blobs_refused p = true ->
              blobs d' !! p = blobs Examples.blobs_refused !! p.
Proof.
  apply (saveIndex_swallows_blob_failures "/store" "/ws" Examples.walked_index
           Examples.blobs_refused).
  - reflexivity.
  - reflexivity.
Defined.

Lemma deleteIndex_then_absent_witness :
  exists d' : disk,
    deleteIndex "/store" "/ws" Examples.stored_disk = Js.Normal tt d' /\
    loadIndex "/store" "/ws" d' = Js.Normal None d' /\
    getIndexMetadata "/store" "/ws" d' = Js.Normal None d' /\
    (forall id, Glob.lacks "/" id = true ->
                blobs d' !! blobPath "/store" (getWorkspaceName "/ws") id = None) /\
    deleteIndex "/store" "/ws" d' = Js.Normal tt d'.
Proof.
  apply (deleteIndex_then_absent "/store" "/ws" Examples.stored_disk).
  - reflexivity.
  - reflexivity.
Defined.

End StorageFacts.

(** ** The commands *)
Module ExtensionFacts.
Import Extension.

Section Commands.

Variable regexp : string -> option (string -> bool).
Variable dateNow : nat -> N.
Variable random36 : nat -> string.
Variable storagePath : string.

Local Abbreviation indexWorkspace := (Indexer.indexWorkspace regexp dateNow random36).
Local Abbreviation indexWorkspace_command :=
  (Extension.indexWorkspace_command regexp dateNow random36 storagePath).
Local Abbreviation clearIndex_command := (Extension.clearIndex_command storagePath).

(** The walk returns, whatever the tree. *)
Lemma indexWorkspace_returns (root : option Fs.node) (workspacePath : string)
    (progress : bool) (st : Indexer.state) :
  exists st', indexWorkspace root workspacePath progress st
              = Js.Normal (Indexer.index st') st'.
Proof.
  destruct (IndexerFacts.indexWorkspace_stages regexp dateNow random36
              (fun _ => True) progress) with
    (root := root) (workspacePath := workspacePath) (st := st)
    as (patterns & st' & _ & Hrun & _).
  - intros file symbols relativePath s _ _. exact I.
  - intros patterns. exact I.
  - exists st'. exact Hrun.
Qed.

(** [deleteIndex] returns, whatever the store. *)
Lemma deleteIndex_returns (workspacePath : string) (d : Storage.disk) :
  exists d', Storage.deleteIndex storagePath workspacePath d = Js.Normal tt d'.
Proof.
  unfold Storage.deleteIndex, Js.try_catch.
  match goal with
  | |- exists d', match ?c d with _ => _ end = _ => destruct (c d) as [[] d'|e d'|] eqn:Hc
  end.
  - exists d'. reflexivity.
  - exists d'. reflexivity.
  - exfalso. revert Hc.
    unfold Js.bind, Storage.existsSync, Storage.unlink, Storage.existsDir,
      Storage.rm_recursive, Js.ret.
    cbv beta iota zeta.
    repeat match goal with
           | |- context [if ?b then _ else _] => destruct b
           end; discriminate.
Qed.

(** X27. With a folder open the index command ends without an error
    reaching its caller, whatever the tree and the store.  When the
    metadata document and the contents directory take writes, the index
    that the walk returned is afterwards the watcher's snapshot and the
    stored metadata document is its compact form; when the metadata
    document cannot be written, the store and the watcher are left as
    they were, so a watcher without a snapshot stays without one. *)
Theorem index_command_outcome (root : option Fs.node) (x : world) (fsPath : string) :
  Watcher.workspaceFolder (watcher x) = Some fsPath ->
  exists (st' : Indexer.state) (x' : world),
    indexWorkspace root fsPath true (indexer x) = Js.Normal (Indexer.index st') st' /\
    indexWorkspace_command root x = Js.Normal tt x' /\
    indexer x' = st' /\
    (Storage.write_denied (store x)
       (Storage.indexFile storagePath (Storage.getWorkspaceName fsPath)) = false ->
     Storage.write_denied (store x)
       (Storage.contentsDir storagePath (Storage.getWorkspaceName fsPath)) = false ->
     Watcher.currentIndex (watcher x') = Some (Indexer.index st') /\
     Storage.docs (store x')
       !! Storage.indexFile storagePath (Storage.getWorkspaceName fsPath)
     = Some (Storage.Indexed (Storage.compact (Indexer.index st')))) /\
    (Storage.write_denied (store x)
       (Storage.indexFile storagePath (Storage.getWorkspaceName fsPath)) = true ->
     store x' = store x /\ watcher x' = watcher x).
Proof.
  intros Hfolder.
  destruct (indexWorkspace_returns root fsPath true (indexer x)) as (st' & Hrun).
  exists st'. unfold Extension.indexWorkspace_command. rewrite Hfolder, Hrun.
  set (workspaceName := Storage.getWorkspaceName fsPath).
  destruct (Storage.write_denied (store x) (Storage.indexFile storagePath workspaceName))
    eqn:Hdoc.
  - assert (Hsave : Storage.saveIndex storagePath fsPath (Indexer.index st') (store x)
                    = Js.Throws "EACCES" (store x)).
    { unfold Storage.saveIndex, Js.try_catch, Js.bind, Storage.writeDoc.
      fold workspaceName. rewrite Hdoc. reflexivity. }
    rewrite Hsave. eexists. split; [reflexivity|]. split; [reflexivity|].
    split; [reflexivity|]. split; [discriminate|]. intros _. split; reflexivity.
  - destruct (Storage.write_denied (store x)
                (Storage.contentsDir storagePath workspaceName)) eqn:Hdir.
    + destruct (StorageFacts.saveIndex_writes_doc storagePath fsPath
                  (Indexer.index st') (store x) Hdoc) as (d' & [Hsave|[e Hsave]] & _);
        rewrite Hsave; eexists; (split; [reflexivity|]); (split; [reflexivity|]);
        (split; [reflexivity|]); split; discriminate.
    + rewrite (StorageFacts.saveIndex_unfold storagePath fsPath (Indexer.index st')
                 (store x) Hdoc Hdir).
      eexists. split; [reflexivity|]. split; [reflexivity|]. split; [reflexivity|].
      split; [|discriminate]. intros _ _. split; [reflexivity|].
      cbn [store]. fold workspaceName.
      destruct (StorageFacts.write_blobs_frame storagePath workspaceName
                  (CodebaseIndex.files (Indexer.index st'))
                  (Storage.write_doc (Storage.indexFile storagePath workspaceName)
                     (Storage.compact (Indexer.index st')) (store x))) as (Hd & _ & _).
      rewrite Hd. apply lookup_insert_eq.
Qed.


End Commands.

Lemma index_command_outcome_witness :
  exists (st' : Indexer.state) (x' : world),
    Indexer.indexWorkspace Examples.regexp Examples.dateNow Examples.random36
      (Some Examples.workspace) "/ws" true (indexer Examples.started)
    = Js.Normal (Indexer.index st') st' /\
    Extension.indexWorkspace_command Examples.regexp Examples.dateNow Examples.random36
      "/store" (Some Examples.workspace) Examples.started
    = Js.Normal tt x' /\
    indexer x' = st' /\
    (Storage.write_denied (store Examples.started)
       (Storage.indexFile "/store" (Storage.getWorkspaceName "/ws")) = false ->
     Storage.write_denied (store Examples.started)
       (Storage.contentsDir "/store" (Storage.getWorkspaceName "/ws")) = false ->
     Watcher.currentIndex (watcher x') = Some (Indexer.index st') /\
     Storage.docs (store x')
       !! Storage.indexFile "/store" (Storage.getWorkspaceName "/ws")
     = Some (Storage.Indexed (Storage.compact (Indexer.index st')))) /\
    (Storage.write_denied (store Examples.started)
       (Storage.indexFile "/store" (Storage.getWorkspaceName "/ws")) = true ->
     store x' = store Examples.started /\ watcher x' = watcher Examples.started).
Proof.
  apply (index_command_outcome Examples.regexp Examples.dateNow Examples.random36
           "/store" (Some Examples.workspace) Examples.started "/ws").
  reflexivity.
Defined.


End ExtensionFacts.


(** ** The scenarios of the specification, run on the model *)
Module Scenarios.

(** A root with [a.py] (one [def foo():]), an ignored [node_modules] and a
    file of 600 KiB. *)
Example scenario_index :
  match Indexer.indexWorkspace Examples.regexp Examples.dateNow Examples.random36
          (Some (Fs.Dir "ws" true
                   [ Fs.File "a.py" (Some (Fs.mkStats 40 7)) (Some Examples.python_source);
                     Fs.Dir "node_modules" true
                       [ Fs.File "x.js" (Some (Fs.mkStats 14 7)) (Some "function f(){}") ];
                     Fs.File "big.txt" (Some (Fs.mkStats 614400 7)) (Some "") ]))
          "/ws" true Examples.fresh with
  | Js.Normal ix st =>
      CodebaseIndex.fileCount ix = 1 /\
      CodebaseIndex.languages ix = {[ "python" := 1 ]} /\
      CodebaseIndex.summary ix = Some (Summary.mk 1 0 1) /\
      List.map CodeFile.symbols (CodebaseIndex.files ix) = [Some ["fn:foo"]] /\
      CodebaseIndex.totalSize ix = 40%N /\
      Indexer.reported st = ["Indexed: a.py"]
  | _ => False
  end.
Proof. vm_compute. repeat split; reflexivity. Qed.

Example scenario_symbols :
  Symbols.extractSymbols "class A{} async function f(){} const g = async (x) => 1"
                         "javascript"
  = Some ["fn:f"; "fn:g"; "class:A"] /\
  Symbols.extractSymbols "public class A { private static int f(int x) {} }" "java"
  = Some ["class:A"; "method:f"] /\
  Symbols.extractSymbols "fn main() {}" "rust" = Some [].
Proof. repeat split; vm_compute; reflexivity. Qed.

Example scenario_hash :
  Indexer.simpleHash "hello" = "5e918d2" /\ Indexer.simpleHash "" = "0".
Proof. split; vm_compute; reflexivity. Qed.

Example scenario_ignore :
  Indexer.shouldIgnore Examples.regexp [] "x.js" "node_modules/x.js" false = true /\
  Indexer.shouldIgnore Examples.regexp [] ".gitignore" ".gitignore" false = true /\
  Indexer.shouldIgnore Examples.regexp ["*.tmp"] "a.tmp" "a.tmp" false = true /\
  Indexer.shouldIgnore Examples.regexp ["*.tmp"] "a.py" "src/a.py" false = false.
Proof. repeat split; vm_compute; reflexivity. Qed.

Example scenario_workspace_name :
  Storage.getWorkspaceName "/home/me/my project.v2/" = "my_project_v2".
Proof. vm_compute. reflexivity. Qed.

(** A notification while a re-index is under way: the run that settles
    re-arms the timeout, and its expiry starts the second walk. *)
Example scenario_pending_changes :
  let w := Watcher.run [Watcher.Notification;
                        Watcher.Settled (Watcher.Completed Examples.walked_index)]
                       Examples.indexing in
  Watcher.walks w = 1 /\ Watcher.isIndexing w = false /\
  Watcher.debounceTimer w = Some 10000%N /\
  Watcher.walks (Watcher.step w (Watcher.Elapse 5000)) = 2.
Proof. vm_compute. repeat split; reflexivity. Qed.

End Scenarios.
